(** * documentation-mapper: a shallow embedding and its verified properties

    The development follows the JavaScript sources class by class:
    [Database] (the SQLite and the MongoDB backend), [PackageFetcher],
    [DocumentationCrawler], [DependencyScanner] (the parsers of
    package.json, requirements.txt, pyproject.toml, Cargo.toml, Gemfile,
    pom.xml, go.mod and *.csproj, each given the content of its file) and
    [DocumentationMapper] ([loadDependenciesFromJSON],
    [processDependencies], [queryDocumentation]).  The walk over the file
    system ([scan], [findManifestFiles], [parseManifestFile]),
    [parseComposerJson], whose versions are values of any type, and the
    command line are not part of it.

    Conventions of the embedding.
    - A JavaScript string whose code units are all below 256 is the Rocq
      [string] of those code units; every literal of the sources is of that
      kind.  [String.length] is then the JavaScript [length].
    - Values that come out of [JSON.parse] or out of an HTTP response are
      [JsVal]s; numbers are integers.
    - Asynchronous methods run one after the other ([await] everywhere), so
      they are functions in a state-and-exception monad [M] over a [World]:
      the database, the two in-memory caches, and a trace of the calls,
      requests and pauses made so far.
    - A pause is a number of milliseconds and a rational number: the
      pause between two records is not whole.
    - Whatever the outside decides (HTTP answers, database faults, the clock,
      [Math.random]) is read from an [Env] of oracles indexed by the number of
      effects performed so far.
    - A regular expression is the function that computes its match at the
      head of a string, written out from the pattern; [Js.replaceAll],
      [matchAll] and [firstMatch] add the search.  [\s] and [trim] are read
      on code units below 256.
    - Logging is left out: no call of the logger changes what a method
      returns, stores or sends. *)

From Stdlib Require Import ZArith QArith Qround Lia Lqa Ascii DecimalString.
From stdpp Require Import base strings gmap list sorting.

Local Open Scope Z_scope.

(** ** JavaScript strings *)

Module Js.

Definition code (c : ascii) : N := Ascii.N_of_ascii c.

Definition inRange (lo hi : N) (c : ascii) : bool :=
  ((lo <=? code c) && (code c <=? hi))%N.

(** [\d] *)
Definition isDigit (c : ascii) : bool := inRange 48 57 c.

(** [\s], also the set removed by [trim]: TAB, LF, VT, FF, CR, SP, NBSP
    (the other members have code units above 255). *)
Definition isSpace (c : ascii) : bool :=
  inRange 9 13 c || (code c =? 32)%N || (code c =? 160)%N.

Definition isUpper (c : ascii) : bool := inRange 65 90 c.
Definition isLower (c : ascii) : bool := inRange 97 122 c.

(** [toLowerCase] on one code unit: A-Z, and the Latin-1 capitals
    U+00C0..U+00DE except the multiplication sign U+00D7. *)
Definition lowerChar (c : ascii) : ascii :=
  if isUpper c || (inRange 192 222 c && negb (code c =? 215)%N)
  then Ascii.ascii_of_N (code c + 32)
  else c.

Fixpoint toLowerCase (s : string) : string :=
  match s with
  | EmptyString => EmptyString
  | String c r => String (lowerChar c) (toLowerCase r)
  end.

(** Case folding of an [/i] regular expression without the [u] flag: only
    the ASCII letters fold onto ASCII letters. *)
Definition foldChar (c : ascii) : ascii :=
  if isLower c then Ascii.ascii_of_N (code c - 32) else c.

Definition eqCI (a b : ascii) : bool := Ascii.eqb (foldChar a) (foldChar b).

Fixpoint drop (n : nat) (s : string) : string :=
  match n, s with
  | O, _ => s
  | S k, String _ r => drop k r
  | S _, EmptyString => EmptyString
  end.

Fixpoint take (n : nat) (s : string) : string :=
  match n, s with
  | S k, String c r => String c (take k r)
  | _, _ => EmptyString
  end.

(** [s.substring(0, n)] *)
Definition substring0 (n : nat) (s : string) : string := take n s.

(** The part of [q] after the decimal point: [q] modulo 1. *)
Definition fraction (q : Q) : Q := (q - inject_Z (Qfloor q))%Q.

(** [s.startsWith(p)] *)
Fixpoint startsWith (p s : string) : bool :=
  match p, s with
  | EmptyString, _ => true
  | String a p', String b s' => Ascii.eqb a b && startsWith p' s'
  | String _ _, EmptyString => false
  end.

(** Prefix test under [/i]. *)
Fixpoint startsWithCI (p s : string) : bool :=
  match p, s with
  | EmptyString, _ => true
  | String a p', String b s' => eqCI a b && startsWithCI p' s'
  | String _ _, EmptyString => false
  end.

(** Offset of the first occurrence of [p] in [s]. *)
Fixpoint indexOf (p s : string) : option nat :=
  if startsWith p s then Some O
  else match s with
       | EmptyString => None
       | String _ r => option_map S (indexOf p r)
       end.

Fixpoint indexOfCI (p s : string) : option nat :=
  if startsWithCI p s then Some O
  else match s with
       | EmptyString => None
       | String _ r => option_map S (indexOfCI p r)
       end.

(** [s.includes(p)] *)
Definition includes (p s : string) : bool :=
  match indexOf p s with Some _ => true | None => false end.

(** [s.endsWith(p)] *)
Definition endsWith (p s : string) : bool :=
  (String.length p <=? String.length s)%nat
  && String.eqb (drop (String.length s - String.length p) s) p.

(** [s.replace(p, r)] with a string pattern: the first occurrence only. *)
Definition replaceFirst (p r s : string) : string :=
  match indexOf p s with
  | Some i => take i s +:+ r +:+ drop (i + String.length p) s
  | None => s
  end.

(** [s.replace(/^p/, '')] for a literal [p]. *)
Definition stripPrefix (p s : string) : string :=
  if startsWith p s then drop (String.length p) s else s.

(** [s.replace(/p$/, '')] for a literal [p]. *)
Definition stripSuffix (p s : string) : string :=
  if endsWith p s then take (String.length s - String.length p) s else s.

(** [s.split(sep)] for a one-character separator. *)
Fixpoint splitAcc (sep : ascii) (cur : string) (s : string) : list string :=
  match s with
  | EmptyString => [cur]
  | String c r =>
      if Ascii.eqb c sep then cur :: splitAcc sep EmptyString r
      else splitAcc sep (cur +:+ String c EmptyString) r
  end.

Definition split (sep : ascii) (s : string) : list string :=
  splitAcc sep EmptyString s.

(** [s.replace(re, repl)] for a global regular expression that never
    matches the empty string: [m s] is the length of the match of [re]
    that starts at the head of [s], if there is one.  The scan goes left
    to right and resumes after each match. *)
Fixpoint replaceAllFrom (m : string -> option nat) (repl : string)
         (skip : nat) (s : string) {struct s} : string :=
  match skip with
  | S k =>
      match s with
      | EmptyString => EmptyString
      | String _ r => replaceAllFrom m repl k r
      end
  | O =>
      match m s with
      | Some (S k) =>
          repl +:+ match s with
                   | EmptyString => EmptyString
                   | String _ r => replaceAllFrom m repl k r
                   end
      | _ =>
          match s with
          | EmptyString => EmptyString
          | String c r => String c (replaceAllFrom m repl O r)
          end
      end
  end.

Definition replaceAll (m : string -> option nat) (repl s : string) : string :=
  replaceAllFrom m repl O s.

Fixpoint dropWhile (p : ascii -> bool) (s : string) : string :=
  match s with
  | EmptyString => EmptyString
  | String c r => if p c then dropWhile p r else s
  end.

Fixpoint spanLength (p : ascii -> bool) (s : string) : nat :=
  match s with
  | EmptyString => O
  | String c r => if p c then S (spanLength p r) else O
  end.

Fixpoint allChars (p : ascii -> bool) (s : string) : bool :=
  match s with
  | EmptyString => true
  | String c r => p c && allChars p r
  end.

(** Removes the trailing run of characters satisfying [p]. *)
Fixpoint dropWhileEnd (p : ascii -> bool) (s : string) : string :=
  match s with
  | EmptyString => EmptyString
  | String c r =>
      if p c && allChars p r then EmptyString
      else String c (dropWhileEnd p r)
  end.

(** [s.trim()] *)
Definition trim (s : string) : string :=
  dropWhileEnd isSpace (dropWhile isSpace s).

Definition hexDigit (n : N) : ascii :=
  Ascii.ascii_of_N (if (n <? 10)%N then 48 + n else 55 + n).

Definition percent (n : N) : string :=
  String "%" (String (hexDigit (n / 16)) (String (hexDigit (n mod 16)) EmptyString)).

(** The characters [encodeURIComponent] leaves alone:
    [A-Z a-z 0-9 - _ . ! ~ * ' ( )]. *)
Definition isUnreserved (c : ascii) : bool :=
  isUpper c || isLower c || isDigit c
  || existsb (fun n => (code c =? n)%N) [45; 95; 46; 33; 126; 42; 39; 40; 41]%N.

(** One code unit through [encodeURIComponent]: the UTF-8 bytes of the
    code point, percent-escaped. *)
Definition encodeChar (c : ascii) : string :=
  if isUnreserved c then String c EmptyString
  else if (code c <? 128)%N then percent (code c)
  else percent (192 + code c / 64) +:+ percent (128 + code c mod 64).

Fixpoint encodeURIComponent (s : string) : string :=
  match s with
  | EmptyString => EmptyString
  | String c r => encodeChar c +:+ encodeURIComponent r
  end.

(** Decimal rendering of an integer, as in a template literal. *)
Definition ofZ (z : Z) : string := NilZero.string_of_int (Z.to_int z).

End Js.

(** ** JavaScript values

    The values of [JSON.parse] and of [response.data].  The fields of a
    [JObj] are listed in property-enumeration order with distinct keys;
    properties inherited from a prototype are not part of the model. *)

#[warnings="-register-all"] Inductive JsVal : Type :=
| JUndef
| JNull
| JBool (b : bool)
| JNum (z : Z)
| JStr (s : string)
| JArr (l : list JsVal)
| JObj (fields : list (string * JsVal)).

(** A thrown [Error]: its [message], and [error.response.status] when the
    error is an HTTP answer outside 2xx. *)
Record JsError := mkError { message : string; status : option Z }.

Inductive Res (A : Type) : Type :=
| Ok (a : A)
| Throw (e : JsError).
Arguments Ok {A} a.
Arguments Throw {A} e.

Module JsOps.

Definition Error (msg : string) : JsError := mkError msg None.
Definition TypeError (msg : string) : JsError := mkError msg None.

(** ToBoolean *)
Definition truthy (v : JsVal) : bool :=
  match v with
  | JUndef | JNull => false
  | JBool b => b
  | JNum z => negb (z =? 0)
  | JStr s => negb (String.eqb s "")
  | JArr _ | JObj _ => true
  end.

(** [a || b] *)
Definition or (a b : JsVal) : JsVal := if truthy a then a else b.

Fixpoint assoc (k : string) (fs : list (string * JsVal)) : JsVal :=
  match fs with
  | [] => JUndef
  | (k', v) :: r => if String.eqb k k' then v else assoc k r
  end.

Fixpoint digitsValue (acc : nat) (s : string) : option nat :=
  match s with
  | EmptyString => Some acc
  | String c r =>
      if Js.isDigit c
      then digitsValue (10 * acc + (N.to_nat (Js.code c) - 48))%nat r
      else None
  end.

(** A property key that is an array index: "0", or digits without a
    leading zero. *)
Definition arrayIndex (k : string) : option nat :=
  match k with
  | EmptyString => None
  | String c r =>
      if (Js.code c =? 48)%N
      then (if String.eqb r "" then Some O else None)
      else digitsValue O k
  end.

Definition charAt (i : nat) (s : string) : JsVal :=
  match String.get i s with
  | Some c => JStr (String c EmptyString)
  | None => JUndef
  end.

(** [v.k] and [v[k]]: a [TypeError] on [undefined] and [null]. *)
Definition getp (v : JsVal) (k : string) : Res JsVal :=
  match v with
  | JUndef =>
      Throw (TypeError ("Cannot read properties of undefined (reading '" +:+ k +:+ "')"))
  | JNull =>
      Throw (TypeError ("Cannot read properties of null (reading '" +:+ k +:+ "')"))
  | JObj fs => Ok (assoc k fs)
  | JArr l =>
      if String.eqb k "length" then Ok (JNum (Z.of_nat (length l)))
      else match arrayIndex k with
           | Some i => Ok (nth i l JUndef)
           | None => Ok JUndef
           end
  | JStr s =>
      if String.eqb k "length" then Ok (JNum (Z.of_nat (String.length s)))
      else match arrayIndex k with
           | Some i => Ok (charAt i s)
           | None => Ok JUndef
           end
  | JBool _ | JNum _ => Ok JUndef
  end.

(** [v > 0], for the values a [length] takes: a number, a boolean,
    [undefined] or [null].  A string or an object on the left would need
    ToNumber of a string, which is outside the model and read as NaN. *)
Definition gtZero (v : JsVal) : bool :=
  match v with
  | JNum z => 0 <? z
  | JBool b => b
  | _ => false
  end.

(** [v === s] for a string [s]. *)
Definition strictEqStr (v : JsVal) (s : string) : bool :=
  match v with
  | JStr t => String.eqb t s
  | _ => false
  end.

Fixpoint charsOf (s : string) : list JsVal :=
  match s with
  | EmptyString => []
  | String c r => JStr (String c EmptyString) :: charsOf r
  end.

(** The elements a [for ... of] runs over. *)
Definition iterate (v : JsVal) : Res (list JsVal) :=
  match v with
  | JArr l => Ok l
  | JStr s => Ok (charsOf s)
  | _ => Throw (TypeError "response.data.items is not iterable")
  end.

Definition indexKeys (n : nat) : list string :=
  map (fun i => Js.ofZ (Z.of_nat i)) (seq 0 n).

(** [Object.keys(v)] of a value that is neither [undefined] nor [null]. *)
Definition keys (v : JsVal) : list string :=
  match v with
  | JObj fs => map fst fs
  | JArr l => indexKeys (length l)
  | JStr s => indexKeys (String.length s)
  | _ => []
  end.

(** [Object.entries(v)], same proviso. *)
Definition entries (v : JsVal) : list (string * JsVal) :=
  match v with
  | JObj fs => fs
  | JArr l => combine (indexKeys (length l)) l
  | JStr s => combine (indexKeys (String.length s)) (charsOf s)
  | _ => []
  end.

(** ToString, as [new Error(v)] applies it to its argument. *)
Definition elementString (toS : JsVal -> string) (v : JsVal) : string :=
  match v with
  | JUndef | JNull => ""
  | _ => toS v
  end.

Fixpoint toString (v : JsVal) : string :=
  match v with
  | JUndef => "undefined"
  | JNull => "null"
  | JBool true => "true"
  | JBool false => "false"
  | JNum z => Js.ofZ z
  | JStr s => s
  | JArr l => String.concat "," (map (elementString toString) l)
  | JObj _ => "[object Object]"
  end.

End JsOps.

(** ** Data model *)

(** A dependency record, as the scanner and [loadDependenciesFromJSON]
    produce it. *)
Record Dependency := mkDep {
  ecosystem : string;
  name : string;
  version : string;
  source : string;
  manifestPath : string;
  isDevDependency : bool
}.

(** A documentation record.  An absent property is [None]; [doc_content] is
    a string or a value taken from a response, [Some JUndef] when the
    property is there with the value [undefined]. *)
Record Documentation := mkDoc {
  doc_url : option string;
  doc_content : option JsVal;
  doc_crawled_at : option string;
  doc_source : option string;
  doc_note : option string;
  doc_error : option string
}.

Definition emptyDoc : Documentation := mkDoc None None None None None None.

(** The object literal [packageData] of [processDependencies].  Its
    [documentation] is what the crawler returned: [None] is [undefined]. *)
Record PackageData := mkPkg {
  pkg_ecosystem : string;
  pkg_name : string;
  pkg_version : string;
  pkg_source : string;
  pkg_description : JsVal;
  pkg_documentation : option Documentation;
  pkg_manifestPath : string;
  pkg_isDevDependency : bool;
  pkg_lastUpdated : string
}.

(** A row of the table [packages], or a document of the collection
    [packages] with [row_id] for its [_id].  In SQLite the column
    [documentation] holds [JSON.stringify] of a documentation record and is
    parsed back by every read; the row carries the parsed record.  [None] is
    [null], which only a MongoDB document can hold.  [row_description] is
    the value bound to the column, a string for all the fetcher returns;
    [row_last_updated] is a [Date] in MongoDB, shown by its ISO string. *)
Record Row := mkRow {
  row_id : Z;
  row_ecosystem : string;
  row_name : string;
  row_version : string;
  row_source : string;
  row_description : JsVal;
  row_documentation : option Documentation;
  row_manifest_path : string;
  row_is_dev_dependency : bool;
  row_last_updated : string
}.

(** The table in rowid order (the collection in insertion order), and the
    largest rowid ever handed out ([AUTOINCREMENT]; for MongoDB the counter
    behind fresh [_id]s). *)
Record DbState := mkDb {
  rows : list Row;
  lastId : Z
}.

(** [this.type]: ['sqlite'], the default, or ['mongodb']; [initialize]
    refuses anything else. *)
Inductive DbType : Type :=
| SQLite
| MongoDB.

(** What [storePackage] resolves to, [{ id: this.lastID }] or the result of
    [updateOne]; the caller drops it. *)
Inductive StoreResult : Type :=
| RunResult (lastID : Z)
| UpdateResult (matchedCount : Z) (upsertedId : option Z).

Inductive Request : Type :=
| Get (url : string) (timeout : Z)
| Post (url : string) (scrapeUrl : string) (timeout : Z).

Inductive HttpResult : Type :=
| Response (data : JsVal)
| Rejected (e : JsError).

(** What a run leaves behind besides the database: the calls of the two
    network-facing components, the requests sent, and the pauses. *)
Inductive Event : Type :=
| EvFetchDescription (d : Dependency)
| EvCrawlDocumentation (d : Dependency)
| EvHttp (r : Request)
| EvDelay (ms : Q).

Record World := mkWorld {
  database : DbState;
  fetcherCache : gmap string JsVal;
  crawlerCache : gmap string (option Documentation);
  trace : list Event;
  ticks : nat
}.

(** The outside: oracles indexed by [ticks], and the configuration. *)
Record Env := mkEnv {
  http : nat -> Request -> HttpResult;
  dbFault : nat -> option string;
  clock : nat -> string;
  random : nat -> Q;
  FIRECRAWL_API_KEY : option string;
  FIRECRAWL_BASE_URL : option string;
  skipDocs : bool;
  dbType : DbType
}.

(** ** The monad of asynchronous methods *)

Definition M (A : Type) : Type := World -> Res A * World.

Definition ret {A} (a : A) : M A := fun w => (Ok a, w).

Definition throw {A} (e : JsError) : M A := fun w => (Throw e, w).

Definition bind {A B} (m : M A) (k : A -> M B) : M B :=
  fun w =>
    match m w with
    | (Ok a, w') => k a w'
    | (Throw e, w') => (Throw e, w')
    end.

(** [try { m } catch (error) { h error }] *)
Definition tryCatch {A} (m : M A) (h : JsError -> M A) : M A :=
  fun w =>
    match m w with
    | (Ok a, w') => (Ok a, w')
    | (Throw e, w') => h e w'
    end.

(** A pure step that may throw. *)
Definition lift {A} (r : Res A) : M A := fun w => (r, w).

Notation "x <- m ;; k" := (bind m (fun x => k))
  (at level 100, m at next level, right associativity).
Notation "m ;;; k" := (bind m (fun _ => k))
  (at level 100, right associativity).

Definition setDatabase (d : DbState) (w : World) : World :=
  mkWorld d (fetcherCache w) (crawlerCache w) (trace w) (ticks w).
Definition setFetcherCache (c : gmap string JsVal) (w : World) : World :=
  mkWorld (database w) c (crawlerCache w) (trace w) (ticks w).
Definition setCrawlerCache (c : gmap string (option Documentation)) (w : World) : World :=
  mkWorld (database w) (fetcherCache w) c (trace w) (ticks w).
Definition logEvent (e : Event) (w : World) : World :=
  mkWorld (database w) (fetcherCache w) (crawlerCache w) (trace w ++ [e]) (ticks w).
Definition tickWorld (w : World) : World :=
  mkWorld (database w) (fetcherCache w) (crawlerCache w) (trace w) (S (ticks w)).

Definition emit (e : Event) : M unit := fun w => (Ok tt, logEvent e w).

Section Effects.
Context (env : Env).

(** [axios.get] and [axios.post]: the result is [response.data]. *)
Definition axios (r : Request) : M JsVal :=
  fun w =>
    let w' := tickWorld (logEvent (EvHttp r) w) in
    match http env (ticks w) r with
    | Response d => (Ok d, w')
    | Rejected e => (Throw e, w')
    end.

(** [new Date().toISOString()] *)
Definition now : M string :=
  fun w => (Ok (clock env (ticks w)), tickWorld w).

(** [this.delay(ms)] *)
Definition delay (ms : Q) : M unit := emit (EvDelay ms).

(** [200 + Math.random() * 300]: [Math.random()] is a number from 0 up
    to, but not including, 1, here the oracle's number modulo 1; the sum
    is any number from 200 up to, but not including, 500. *)
Definition randomDelay : M Q :=
  fun w => (Ok (200 + Js.fraction (random env (ticks w)) * 300)%Q, tickWorld w).

End Effects.

(** ** Database.js *)

(** The [filters] object of [queryPackages]: a property is [None] when it
    is [undefined]. *)
Record Filters := mkFilters {
  filter_package : option string;
  filter_version : option string;
  filter_ecosystem : option string
}.

Module Database.

(** [WHERE name = ? AND version = ? AND ecosystem = ?] *)
Definition sameKey (e n v : string) (r : Row) : bool :=
  String.eqb (row_name r) n && String.eqb (row_version r) v
  && String.eqb (row_ecosystem r) e.

(** [JSON.parse(JSON.stringify(d))]: a property whose value is [undefined]
    is dropped. *)
Definition jsonDocumentation (d : Documentation) : Documentation :=
  mkDoc (doc_url d)
        (match doc_content d with Some JUndef => None | c => c end)
        (doc_crawled_at d) (doc_source d) (doc_note d) (doc_error d).

(** The row written for [packageData], with
    [JSON.stringify(packageData.documentation || {})] read back. *)
Definition rowOf (id : Z) (p : PackageData) : Row :=
  mkRow id (pkg_ecosystem p) (pkg_name p) (pkg_version p) (pkg_source p)
        (pkg_description p)
        (Some (jsonDocumentation
                 (match pkg_documentation p with Some d => d | None => emptyDoc end)))
        (pkg_manifestPath p) (pkg_isDevDependency p) (pkg_lastUpdated p).

(** BSON has no [undefined]: the driver writes [null] for it. *)
Definition bsonValue (v : JsVal) : JsVal :=
  match v with
  | JUndef => JNull
  | _ => v
  end.

Definition bsonDocumentation (d : Documentation) : Documentation :=
  mkDoc (doc_url d) (option_map bsonValue (doc_content d))
        (doc_crawled_at d) (doc_source d) (doc_note d) (doc_error d).

(** The document that [$set: {...packageData, lastUpdated: new Date(...)}]
    makes of the document with [_id] [id]. *)
Definition documentOf (id : Z) (p : PackageData) : Row :=
  mkRow id (pkg_ecosystem p) (pkg_name p) (pkg_version p) (pkg_source p)
        (bsonValue (pkg_description p))
        (option_map bsonDocumentation (pkg_documentation p))
        (pkg_manifestPath p) (pkg_isDevDependency p) (pkg_lastUpdated p).

(** [INSERT OR REPLACE INTO packages ...] under
    [UNIQUE(ecosystem, name, version)] and
    [id INTEGER PRIMARY KEY AUTOINCREMENT]: the rows in conflict are
    deleted, the new row gets the next rowid and goes last.  The result is
    [this.lastID]. *)
Definition insertOrReplace (p : PackageData) (d : DbState) : Z * DbState :=
  let id := lastId d + 1 in
  (id,
   mkDb (List.filter
           (fun r => negb (sameKey (pkg_ecosystem p) (pkg_name p) (pkg_version p) r))
           (rows d)
         ++ [rowOf id p])
        id).

(** The first document the filter matches is updated in place. *)
Fixpoint updateFirst (key : Row -> bool) (p : PackageData) (rs : list Row)
  : option (list Row) :=
  match rs with
  | [] => None
  | r :: rest =>
      if key r then Some (documentOf (row_id r) p :: rest)
      else option_map (cons r) (updateFirst key p rest)
  end.

(** [updateOne({ecosystem, name, version}, {$set: ...}, {upsert: true})] *)
Definition updateOneUpsert (p : PackageData) (d : DbState) : StoreResult * DbState :=
  match updateFirst (sameKey (pkg_ecosystem p) (pkg_name p) (pkg_version p)) p (rows d) with
  | Some rs => (UpdateResult 1 None, mkDb rs (lastId d))
  | None =>
      let id := lastId d + 1 in
      (UpdateResult 0 (Some id), mkDb (rows d ++ [documentOf id p]) id)
  end.

(** [SELECT * FROM packages WHERE ...] through [connection.get], and
    [findOne({name, version, ecosystem})]: the first match or nothing. *)
Definition selectOne (n v e : string) (d : DbState) : option Row :=
  List.find (sameKey e n v) (rows d).

(** [if (filters.x) { sql += ' AND x = ?' }] *)
Definition condition (f : option string) (col : Row -> string) (r : Row) : bool :=
  match f with
  | Some s => if String.eqb s "" then true else String.eqb (col r) s
  | None => true
  end.

Definition matches (f : Filters) (r : Row) : bool :=
  condition (filter_package f) row_name r
  && condition (filter_version f) row_version r
  && condition (filter_ecosystem f) row_ecosystem r.

(** [ORDER BY name, version] with the default (binary) collation. *)
Definition rowLeb (a b : Row) : bool :=
  match String.compare (row_name a) (row_name b) with
  | Lt => true
  | Gt => false
  | Eq => String.leb (row_version a) (row_version b)
  end.

Definition rowLe (a b : Row) : Prop := rowLeb a b = true.

#[global] Instance rowLe_dec : RelDecision rowLe :=
  fun a b => decide (rowLeb a b = true).

(** [SELECT * FROM packages WHERE 1=1 ... ORDER BY name, version] through
    [connection.all], and [find(query).sort({name: 1, version: 1})].  The
    order of rows that agree on name and version is left open by both; the
    sort used here is one admissible choice. *)
Definition selectAll (f : Filters) (d : DbState) : list Row :=
  merge_sort rowLe (List.filter (matches f) (rows d)).

Section WithEnv.
Context (env : Env).

(** One statement on the connection.  It fails when the fault oracle says
    so (the callback gets [err], the promise of the driver rejects) and the
    table is then as it was; otherwise the statement takes effect. *)
Definition statement {A} (run : DbState -> A * DbState) : M A :=
  fun w =>
    let w' := tickWorld w in
    match dbFault env (ticks w) with
    | Some msg => (Throw (JsOps.Error msg), w')
    | None => let '(a, d) := run (database w) in (Ok a, setDatabase d w')
    end.

Definition storePackageSQLite (p : PackageData) : M StoreResult :=
  statement (fun d => let '(id, d') := insertOrReplace p d in (RunResult id, d')).

Definition storePackageMongoDB (p : PackageData) : M StoreResult :=
  statement (updateOneUpsert p).

Definition storePackage (p : PackageData) : M StoreResult :=
  match dbType env with
  | SQLite => storePackageSQLite p
  | MongoDB => storePackageMongoDB p
  end.

Definition getPackageDocumentationSQLite (n v e : string) : M (option Row) :=
  statement (fun d => (selectOne n v e d, d)).

Definition getPackageDocumentationMongoDB (n v e : string) : M (option Row) :=
  statement (fun d => (selectOne n v e d, d)).

Definition getPackageDocumentation (n v e : string) : M (option Row) :=
  match dbType env with
  | SQLite => getPackageDocumentationSQLite n v e
  | MongoDB => getPackageDocumentationMongoDB n v e
  end.

Definition queryPackagesSQLite (f : Filters) : M (list Row) :=
  statement (fun d => (selectAll f d, d)).

Definition queryPackagesMongoDB (f : Filters) : M (list Row) :=
  statement (fun d => (selectAll f d, d)).

Definition queryPackages (f : Filters) : M (list Row) :=
  match dbType env with
  | SQLite => queryPackagesSQLite f
  | MongoDB => queryPackagesMongoDB f
  end.

End WithEnv.
End Database.

(** ** PackageFetcher.js *)

Definition dquote : string := String (Ascii.ascii_of_N 34) EmptyString.

Module PackageFetcher.
Import JsOps.

Definition cacheKey (e n v : string) : string :=
  e +:+ ":" +:+ n +:+ ":" +:+ v.

Definition noDescription : JsVal := JStr "No description available".

(** [v.k] as a step of a method. *)
Definition prop (v : JsVal) (k : string) : M JsVal := lift (getp v k).

(** [a && b] and [a || b] with [b] evaluated on demand. *)
Definition andThen (a : JsVal) (b : M JsVal) : M JsVal :=
  if truthy a then b else ret a.
Definition orElse (a : JsVal) (b : M JsVal) : M JsVal :=
  if truthy a then ret a else b.

Definition readCache : M (gmap string JsVal) :=
  fun w => (Ok (fetcherCache w), w).
Definition cacheSet (k : string) (v : JsVal) : M unit :=
  fun w => (Ok tt, setFetcherCache (<[k := v]> (fetcherCache w)) w).

Section WithEnv.
Context (env : Env).

Definition fetchNPMDescription (name version : string) : M JsVal :=
  tryCatch
    (data <- axios env (Get ("https://registry.npmjs.org/" +:+ Js.encodeURIComponent name) 10000) ;;
     found <- andThen data (versions <- prop data "versions" ;;
                            andThen versions (prop versions version)) ;;
     if truthy found then
       versions <- prop data "versions" ;;
       versionData <- prop versions version ;;
       d1 <- prop versionData "description" ;;
       orElse d1 (d2 <- prop data "description" ;; ret (or d2 noDescription))
     else
       d <- prop data "description" ;;
       ret (or d noDescription))
    (fun error => throw (Error ("NPM fetch failed: " +:+ message error))).

Definition pypiSummary (url : string) : M JsVal :=
  data <- axios env (Get url 10000) ;;
  info <- prop data "info" ;;
  s <- prop info "summary" ;;
  orElse s (d <- prop info "description" ;; ret (or d noDescription)).

Definition fetchPyPIDescription (name version : string) : M JsVal :=
  tryCatch
    (pypiSummary ("https://pypi.org/pypi/" +:+ Js.encodeURIComponent name +:+ "/"
                  +:+ Js.encodeURIComponent version +:+ "/json"))
    (fun error =>
       tryCatch
         (pypiSummary ("https://pypi.org/pypi/" +:+ Js.encodeURIComponent name +:+ "/json"))
         (fun fallbackError =>
            throw (Error ("PyPI fetch failed: " +:+ message error)))).

Definition fetchCratesDescription (name version : string) : M JsVal :=
  tryCatch
    (data <- axios env (Get ("https://crates.io/api/v1/crates/" +:+ Js.encodeURIComponent name) 10000) ;;
     crate <- prop data "crate" ;;
     d1 <- prop crate "description" ;;
     orElse d1 (d2 <- prop crate "description" ;; ret (or d2 noDescription)))
    (fun error => throw (Error ("Crates.io fetch failed: " +:+ message error))).

Definition fetchMavenDescription (name version : string) : M JsVal :=
  tryCatch
    (let parts := Js.split ":" name in
     let groupId := nth 0 parts "" in
     let artifactId := nth 1 parts "" in
     if String.eqb groupId "" || String.eqb artifactId "" then
       ret (JStr "Invalid Maven coordinate format")
     else
       data <- axios env (Get ("https://search.maven.org/solrsearch/select?q=g:"
                               +:+ dquote +:+ groupId +:+ dquote +:+ "+AND+a:"
                               +:+ dquote +:+ artifactId +:+ dquote
                               +:+ "&rows=1&wt=json") 10000) ;;
       response <- prop data "response" ;;
       docs <- prop response "docs" ;;
       len <- andThen docs (prop docs "length") ;;
       if truthy docs && gtZero len then
         ret (JStr ("Maven package " +:+ groupId +:+ ":" +:+ artifactId
                    +:+ " version " +:+ version))
       else
         ret (JStr "Maven package description not available"))
    (fun error => throw (Error ("Maven fetch failed: " +:+ message error))).

Definition fetchRubyGemsDescription (name version : string) : M JsVal :=
  tryCatch
    (data <- axios env (Get ("https://rubygems.org/api/v1/gems/"
                             +:+ Js.encodeURIComponent name +:+ ".json") 10000) ;;
     i <- prop data "info" ;;
     orElse i (s <- prop data "summary" ;; ret (or s noDescription)))
    (fun error => throw (Error ("RubyGems fetch failed: " +:+ message error))).

Definition fetchGitHubGoDescription (name version : string) : M JsVal :=
  tryCatch
    (let parts := Js.split "/" name in
     if (3 <=? length parts)%nat then
       let owner := nth 1 parts "" in
       let repo := nth 2 parts "" in
       data <- axios env (Get ("https://api.github.com/repos/" +:+ owner +:+ "/" +:+ repo) 10000) ;;
       d <- prop data "description" ;;
       ret (or d noDescription)
     else
       ret (JStr ("GitHub Go module " +:+ name)))
    (fun error => ret (JStr ("GitHub Go module " +:+ name))).

Definition fetchGoDescription (name version : string) : M JsVal :=
  tryCatch
    (if Js.startsWith "github.com/" name then
       fetchGitHubGoDescription name version
     else
       ret (JStr ("Go module " +:+ name +:+ "@" +:+ version)))
    (fun error => throw (Error ("Go fetch failed: " +:+ message error))).

(** The [for ... of] loop of [fetchNuGetDescription]: [Some d] when it
    returns [d] from the method, [None] when it runs to its end. *)
Fixpoint findCatalogEntry (version : string) (items : list JsVal) : M (option JsVal) :=
  match items with
  | [] => ret None
  | item :: rest =>
      entry <- prop item "catalogEntry" ;;
      v <- prop entry "version" ;;
      if strictEqStr v version then
        d <- prop entry "description" ;;
        ret (Some (or d noDescription))
      else
        findCatalogEntry version rest
  end.

Definition fetchNuGetDescription (name version : string) : M JsVal :=
  tryCatch
    (data <- axios env (Get ("https://api.nuget.org/v3/registration5-semver1/"
                             +:+ Js.toLowerCase name +:+ "/index.json") 10000) ;;
     items <- prop data "items" ;;
     len <- andThen items (prop items "length") ;;
     if truthy items && gtZero len then
       elements <- lift (iterate items) ;;
       hit <- findCatalogEntry version elements ;;
       match hit with
       | Some d => ret d
       | None =>
           let latestItem := List.last elements JUndef in
           entry <- prop latestItem "catalogEntry" ;;
           d <- prop entry "description" ;;
           ret (or d noDescription)
       end
     else
       ret (JStr "NuGet package description not available"))
    (fun error => throw (Error ("NuGet fetch failed: " +:+ message error))).

Definition fetchPackagistDescription (name version : string) : M JsVal :=
  tryCatch
    (data <- axios env (Get ("https://repo.packagist.org/p2/"
                             +:+ Js.encodeURIComponent name +:+ ".json") 10000) ;;
     packages <- prop data "packages" ;;
     versions <- andThen packages (prop packages name) ;;
     if truthy packages && truthy versions then
       exact <- prop versions version ;;
       if truthy exact then
         d <- prop exact "description" ;;
         ret (or d noDescription)
       else
         let versionKeys := keys versions in
         let latestVersion := List.last versionKeys "undefined" in
         latest <- prop versions latestVersion ;;
         d <- prop latest "description" ;;
         ret (or d noDescription)
     else
       ret (JStr "Packagist package description not available"))
    (fun error => throw (Error ("Packagist fetch failed: " +:+ message error))).

(** The [switch (ecosystem)] of [fetchDescription]. *)
Definition dispatch (ecosystem name version : string) : M JsVal :=
  if String.eqb ecosystem "npm" then fetchNPMDescription name version
  else if String.eqb ecosystem "python" || String.eqb ecosystem "pypi"
  then fetchPyPIDescription name version
  else if String.eqb ecosystem "rust" then fetchCratesDescription name version
  else if String.eqb ecosystem "java" then fetchMavenDescription name version
  else if String.eqb ecosystem "ruby" then fetchRubyGemsDescription name version
  else if String.eqb ecosystem "go" then fetchGoDescription name version
  else if String.eqb ecosystem "dotnet" then fetchNuGetDescription name version
  else if String.eqb ecosystem "php" then fetchPackagistDescription name version
  else ret (JStr ("Package from " +:+ ecosystem +:+ " ecosystem")).

Definition fetchDescription (dependency : Dependency) : M JsVal :=
  emit (EvFetchDescription dependency) ;;;
  let key := cacheKey (ecosystem dependency) (name dependency) (version dependency) in
  cache <- readCache ;;
  match cache !! key with
  | Some cached => ret cached
  | None =>
      tryCatch
        (description <- dispatch (ecosystem dependency) (name dependency)
                                 (version dependency) ;;
         cacheSet key description ;;;
         ret description)
        (fun error =>
           ret (JStr ("Failed to fetch description: " +:+ message error)))
  end.

End WithEnv.
End PackageFetcher.

(** ** DocumentationCrawler.js *)

Module DocumentationCrawler.
Import JsOps.

Definition cacheKey (e n v : string) : string :=
  e +:+ ":" +:+ n +:+ ":" +:+ v.

Definition prop (v : JsVal) (k : string) : M JsVal := lift (getp v k).

Definition andThen (a : JsVal) (b : M JsVal) : M JsVal :=
  if truthy a then b else ret a.

Definition readCache : M (gmap string (option Documentation)) :=
  fun w => (Ok (crawlerCache w), w).
Definition cacheSet (k : string) (v : option Documentation) : M unit :=
  fun w => (Ok tt, setCrawlerCache (<[k := v]> (crawlerCache w)) w).

(** [/<tag[^>]*>[\s\S]*?<\/tag>/i] at the head of [s]: the opening name,
    everything up to the first [>], and everything up to the first closing
    tag after it. *)
Definition matchBlock (tag : string) (s : string) : option nat :=
  let opening := "<" +:+ tag in
  let closing := "</" +:+ tag +:+ ">" in
  if Js.startsWithCI opening s then
    let afterName := Js.drop (String.length opening) s in
    match Js.indexOf ">" afterName with
    | Some j =>
        match Js.indexOfCI closing (Js.drop (S j) afterName) with
        | Some k =>
            Some (String.length opening + j + 1 + k + String.length closing)%nat
        | None => None
        end
    | None => None
    end
  else None.

(** [/<[^>]+>/] at the head of [s]. *)
Definition matchTag (s : string) : option nat :=
  match s with
  | String c r =>
      if Ascii.eqb c "<" then
        match Js.indexOf ">" r with
        | Some (S j) => Some (S (S (S j)))
        | _ => None
        end
      else None
  | EmptyString => None
  end.

(** [/\s+/] at the head of [s]. *)
Definition matchSpaces (s : string) : option nat :=
  match Js.spanLength Js.isSpace s with
  | O => None
  | n => Some n
  end.

Definition stripMarkup (html : string) : string :=
  Js.trim
    (Js.replaceAll matchSpaces " "
       (Js.replaceAll matchTag " "
          (Js.replaceAll (matchBlock "style") ""
             (Js.replaceAll (matchBlock "script") "" html)))).

(** [extractTextFromHTML(html)]: [html.replace] exists on strings only. *)
Definition extractTextFromHTML (html : JsVal) : Res string :=
  match html with
  | JStr s => Ok (stripMarkup s)
  | JUndef => Throw (TypeError "Cannot read properties of undefined (reading 'replace')")
  | JNull => Throw (TypeError "Cannot read properties of null (reading 'replace')")
  | _ => Throw (TypeError "html.replace is not a function")
  end.

Definition noUrlNote : Documentation :=
  mkDoc None None None None
        (Some "No documentation URL available for this ecosystem/package") None.

(** [!docUrl] *)
Definition missing (docUrl : option string) : bool :=
  match docUrl with
  | Some u => String.eqb u ""
  | None => true
  end.

Section WithEnv.
Context (env : Env).

(** The repository URL of an npm package, when the registry names one on
    github.com: the [try] block of the [npm] case. *)
Definition npmRepositoryUrl (name : string) : M (option string) :=
  tryCatch
    (data <- axios env (Get ("https://registry.npmjs.org/" +:+ Js.encodeURIComponent name) 5000) ;;
     url <- andThen data (repository <- prop data "repository" ;;
                          andThen repository (prop repository "url")) ;;
     if truthy url then
       match url with
       | JStr u =>
           let repoUrl := Js.stripSuffix ".git" (Js.stripPrefix "git+" u) in
           if Js.includes "github.com" repoUrl then ret (Some repoUrl) else ret None
       | _ => throw (TypeError "repoUrl.replace is not a function")
       end
     else ret None)
    (fun error => ret None).

(** [getDocumentationUrl(dependency)]: [None] is [null]. *)
Definition getDocumentationUrl (dependency : Dependency) : M (option string) :=
  let ecosystem := ecosystem dependency in
  let name := name dependency in
  let version := version dependency in
  if String.eqb ecosystem "npm" then
    repo <- npmRepositoryUrl name ;;
    match repo with
    | Some u => ret (Some u)
    | None => ret (Some ("https://www.npmjs.com/package/" +:+ Js.encodeURIComponent name))
    end
  else if String.eqb ecosystem "python" || String.eqb ecosystem "pypi" then
    ret (Some ("https://pypi.org/project/" +:+ Js.encodeURIComponent name +:+ "/"
               +:+ Js.encodeURIComponent version +:+ "/"))
  else if String.eqb ecosystem "rust" then
    ret (Some ("https://docs.rs/" +:+ Js.encodeURIComponent name +:+ "/"
               +:+ Js.encodeURIComponent version +:+ "/"))
  else if String.eqb ecosystem "java" then
    ret (Some ("https://mvnrepository.com/artifact/"
               +:+ Js.encodeURIComponent (Js.replaceFirst ":" "/" name) +:+ "/"
               +:+ Js.encodeURIComponent version))
  else if String.eqb ecosystem "ruby" then
    ret (Some ("https://rubygems.org/gems/" +:+ Js.encodeURIComponent name
               +:+ "/versions/" +:+ Js.encodeURIComponent version))
  else if String.eqb ecosystem "go" then
    if Js.startsWith "github.com/" name then ret (Some ("https://" +:+ name))
    else ret (Some ("https://pkg.go.dev/" +:+ Js.encodeURIComponent name +:+ "@"
                    +:+ Js.encodeURIComponent version))
  else if String.eqb ecosystem "dotnet" then
    ret (Some ("https://www.nuget.org/packages/" +:+ Js.encodeURIComponent name +:+ "/"
               +:+ Js.encodeURIComponent version))
  else if String.eqb ecosystem "php" then
    ret (Some ("https://packagist.org/packages/" +:+ Js.encodeURIComponent name))
  else ret None.

(** The body of the [try] of one attempt. *)
Definition fetchPage (docUrl : string) : M Documentation :=
  data <- axios env (Get docUrl 10000) ;;
  content <- lift (extractTextFromHTML data) ;;
  t <- now env ;;
  ret (mkDoc (Some docUrl) (Some (JStr (Js.substring0 5000 content))) (Some t)
             (Some "basic_fetch")
             (Some "Basic HTML text extraction - consider using Firecrawl API for better results")
             None).

(** [for (let attempt = 1; attempt <= 3; attempt++)] from [attempt] on,
    with [left] iterations to go.  [None] is the [undefined] a method
    returns when it runs off its end. *)
Fixpoint attempts (docUrl : string) (left : nat) (attempt : Z)
  : M (option Documentation) :=
  match left with
  | O => ret None
  | S left' =>
      tryCatch
        (doc <- fetchPage docUrl ;; ret (Some doc))
        (fun error =>
           if bool_decide (status error = Some 403) && (attempt <? 3) then
             delay (inject_Z (attempt * 2000)) ;;;
             attempts docUrl left' (attempt + 1)
           else
             t <- now env ;;
             ret (Some (mkDoc (Some docUrl) None (Some t) None None
                              (Some ("Failed to fetch documentation: " +:+ message error)))))
  end.

Definition fetchBasicDocumentation (dependency : Dependency)
  : M (option Documentation) :=
  docUrl <- getDocumentationUrl dependency ;;
  if missing docUrl then ret (Some noUrlNote)
  else attempts (default "" docUrl) 3 1.

Definition firecrawlBaseUrl : string :=
  match FIRECRAWL_BASE_URL env with
  | Some u => if String.eqb u "" then "https://api.firecrawl.dev" else u
  | None => "https://api.firecrawl.dev"
  end.

Definition crawlWithFirecrawl (dependency : Dependency) : M (option Documentation) :=
  docUrl <- getDocumentationUrl dependency ;;
  if missing docUrl then ret (Some noUrlNote)
  else
    let url := default "" docUrl in
    tryCatch
      (data <- axios env (Post (firecrawlBaseUrl +:+ "/v1/scrape") url 30000) ;;
       success <- prop data "success" ;;
       if truthy success then
         payload <- prop data "data" ;;
         markdown <- prop payload "markdown" ;;
         t <- now env ;;
         ret (Some (mkDoc (Some url) (Some markdown) (Some t) (Some "firecrawl") None None))
       else
         e <- prop data "error" ;;
         throw (Error (toString (or e (JStr "Firecrawl request failed")))))
      (fun error => fetchBasicDocumentation dependency).

(** [if (this.firecrawlApiKey)] *)
Definition hasApiKey : bool :=
  match FIRECRAWL_API_KEY env with
  | Some k => negb (String.eqb k "")
  | None => false
  end.

Definition crawlDocumentation (dependency : Dependency) : M (option Documentation) :=
  emit (EvCrawlDocumentation dependency) ;;;
  let key := cacheKey (ecosystem dependency) (name dependency) (version dependency) in
  cache <- readCache ;;
  match cache !! key with
  | Some cached => ret cached
  | None =>
      tryCatch
        (documentation <- (if hasApiKey then crawlWithFirecrawl dependency
                           else fetchBasicDocumentation dependency) ;;
         cacheSet key documentation ;;;
         ret documentation)
        (fun error =>
           t <- now env ;;
           ret (Some (mkDoc None None (Some t) None None (Some (message error)))))
  end.

End WithEnv.
End DocumentationCrawler.

(** ** DependencyScanner.js *)

Module DependencyScanner.
Import JsOps.

Definition rbind {A B} (r : Res A) (k : A -> Res B) : Res B :=
  match r with
  | Ok a => k a
  | Throw e => Throw e
  end.

(** [version.replace(/^[^\d]*/, '')]: the leading run of non-digits goes. *)
Definition stripRange (version : JsVal) : Res string :=
  match version with
  | JStr s => Ok (Js.dropWhile (fun c => negb (Js.isDigit c)) s)
  | JUndef => Throw (TypeError "Cannot read properties of undefined (reading 'replace')")
  | JNull => Throw (TypeError "Cannot read properties of null (reading 'replace')")
  | _ => Throw (TypeError "version.replace is not a function")
  end.

(** One of the two [for ... of Object.entries(...)] loops. *)
Fixpoint collect (filePath : string) (dev : bool) (es : list (string * JsVal))
  : Res (list Dependency) :=
  match es with
  | [] => Ok []
  | (name, version) :: rest =>
      rbind (stripRange version) (fun v =>
      rbind (collect filePath dev rest) (fun ds =>
      Ok (mkDep "npm" name v "registry" filePath dev :: ds)))
  end.

Definition section (filePath : string) (dev : bool) (obj : JsVal)
  : Res (list Dependency) :=
  if truthy obj then collect filePath dev (entries obj) else Ok [].

(** [parsePackageJson(filePath)], given [content], the value of
    [JSON.parse(fs.readFileSync(filePath, 'utf8'))]. *)
Definition parsePackageJson (filePath : string) (content : JsVal)
  : Res (list Dependency) :=
  rbind (getp content "dependencies") (fun deps =>
  rbind (section filePath false deps) (fun regular =>
  rbind (getp content "devDependencies") (fun devDeps =>
  rbind (section filePath true devDeps) (fun dev =>
  Ok (regular ++ dev))))).

(** *** Line-based manifests *)

Definition LF : ascii := Ascii.ascii_of_N 10.
Definition CR : ascii := Ascii.ascii_of_N 13.
Definition quoteChar : ascii := Ascii.ascii_of_N 34.

(** [content.split('\n')] *)
Definition lines (content : string) : list string := Js.split LF content.

(** [[a-zA-Z0-9\-_.]] *)
Definition isNameChar (c : ascii) : bool :=
  Js.isLower c || Js.isUpper c || Js.isDigit c
  || Ascii.eqb c "-" || Ascii.eqb c "_" || Ascii.eqb c ".".

(** [[><=~!]] *)
Definition isOperatorChar (c : ascii) : bool :=
  Ascii.eqb c ">" || Ascii.eqb c "<" || Ascii.eqb c "=" || Ascii.eqb c "~"
  || Ascii.eqb c "!".

(** What [.] does not match: LF and CR (U+2028 and U+2029 have code units
    above 255). *)
Definition isLineTerminator (c : ascii) : bool := Ascii.eqb c LF || Ascii.eqb c CR.

Definition lastChar (s : string) : string :=
  Js.drop (String.length s - 1) s.

(** [line.match(/^([a-zA-Z0-9\-_.]+)([><=~!]+)(.+)$/)], groups 1 and 3.
    The two classes are disjoint, so group 1 is the whole run of name
    characters.  Group 2 is greedy: it takes the whole run of operator
    characters, and gives the last one back to group 3 when nothing else
    is left for it.  Group 3 has to reach the end of the line without
    meeting a line terminator. *)
Definition matchRequirement (line : string) : option (string * string) :=
  let n := Js.spanLength isNameChar line in
  let afterName := Js.drop n line in
  let k := Js.spanLength isOperatorChar afterName in
  let rest := Js.drop k afterName in
  if (n =? 0)%nat || (k =? 0)%nat then None
  else if String.eqb rest "" then
    if (2 <=? k)%nat then Some (Js.take n line, lastChar (Js.take k afterName))
    else None
  else if Js.allChars (fun c => negb (isLineTerminator c)) rest
  then Some (Js.take n line, rest)
  else None.

(** [line => line.trim() && !line.startsWith('#')] *)
Definition keepLine (line : string) : bool :=
  negb (String.eqb (Js.trim line) "") && negb (Js.startsWith "#" line).

(** The body of the [for] loop of [parseRequirementsTxt]. *)
Definition requirement (filePath line : string) : Dependency :=
  match matchRequirement line with
  | Some (name, version) => mkDep "pypi" name version "pypi" filePath false
  | None => mkDep "pypi" (Js.trim line) "*" "pypi" filePath false
  end.

(** [parseRequirementsTxt(filePath)], given [content], the text of the
    file. *)
Definition parseRequirementsTxt (filePath content : string) : list Dependency :=
  map (requirement filePath) (List.filter keepLine (lines content)).

(** [s.replace(re, '')] where [re] is the global pattern of one double
    quote. *)
Fixpoint removeQuotes (s : string) : string :=
  match s with
  | EmptyString => EmptyString
  | String c r => if Ascii.eqb c quoteChar then removeQuotes r
                  else String c (removeQuotes r)
  end.

(** [const [name, version] = line.split('=').map(...)], each part trimmed
    and rid of its double quotes: an element that is not there is
    [undefined], which the two tests that follow treat as the empty
    string. *)
Definition tomlEntry (line : string) : string * string :=
  let parts := map (fun s => removeQuotes (Js.trim s)) (Js.split "=" line) in
  (nth 0 parts "", nth 1 parts "").

(** [version || '*'] *)
Definition orStar (version : string) : string :=
  if String.eqb version "" then "*" else version.

(** The [for] loop of [parsePyprojectToml], with the flag
    [inDependenciesSection]. *)
Fixpoint pyprojectLoop (filePath : string) (inDependenciesSection : bool)
         (ls : list string) : list Dependency :=
  match ls with
  | [] => []
  | line :: rest =>
      if Js.includes "[tool.poetry.dependencies]" line then
        pyprojectLoop filePath true rest
      else
        let inSection :=
          if Js.startsWith "[" line && inDependenciesSection then false
          else inDependenciesSection in
        if inSection && Js.includes "=" line then
          let '(name, version) := tomlEntry line in
          if negb (String.eqb name "") && negb (String.eqb name "python") then
            mkDep "pypi" name (orStar version) "pypi" filePath false
            :: pyprojectLoop filePath inSection rest
          else pyprojectLoop filePath inSection rest
        else pyprojectLoop filePath inSection rest
  end.

Definition parsePyprojectToml (filePath content : string) : list Dependency :=
  pyprojectLoop filePath false (lines content).

(** The [for] loop of [parseCargoToml]. *)
Fixpoint cargoLoop (filePath : string) (inDependenciesSection : bool)
         (ls : list string) : list Dependency :=
  match ls with
  | [] => []
  | line :: rest =>
      if Js.includes "[dependencies]" line then
        cargoLoop filePath true rest
      else
        let inSection :=
          if Js.startsWith "[" line && inDependenciesSection then false
          else inDependenciesSection in
        if inSection && Js.includes "=" line then
          let '(name, version) := tomlEntry line in
          if negb (String.eqb name "") then
            mkDep "rust" name (orStar version) "crates.io" filePath false
            :: cargoLoop filePath inSection rest
          else cargoLoop filePath inSection rest
        else cargoLoop filePath inSection rest
  end.

Definition parseCargoToml (filePath content : string) : list Dependency :=
  cargoLoop filePath false (lines content).

(** *** go.mod *)

(** The first match of a regular expression without a leading anchor:
    [m] is tried at every offset, from the left. *)
Fixpoint firstMatch {A} (m : string -> option A) (s : string) : option A :=
  match m s with
  | Some a => Some a
  | None =>
      match s with
      | EmptyString => None
      | String _ r => firstMatch m r
      end
  end.

(** [[^@\s]] *)
Definition isTokenChar (c : ascii) : bool :=
  negb (Ascii.eqb c "@") && negb (Js.isSpace c).

(** [([^@\s]+)\s+([^@\s]+)] at the head of [s].  The classes of
    neighbouring parts are disjoint, so each greedy run is the whole
    run. *)
Definition twoTokens (s : string) : option (string * string) :=
  let n1 := Js.spanLength isTokenChar s in
  let afterName := Js.drop n1 s in
  let k := Js.spanLength Js.isSpace afterName in
  let afterGap := Js.drop k afterName in
  let n2 := Js.spanLength isTokenChar afterGap in
  if (n1 =? 0)%nat || (k =? 0)%nat || (n2 =? 0)%nat then None
  else Some (Js.take n1 s, Js.take n2 afterGap).

(** [require\s+] at the head of [s]: what follows the whole run of
    whitespace. *)
Definition afterRequire (s : string) : option string :=
  if Js.startsWith "require" s then
    let r := Js.drop 7 s in
    let k := Js.spanLength Js.isSpace r in
    if (k =? 0)%nat then None else Some (Js.drop k r)
  else None.

(** [/require\s+\(([\s\S]*?)\)/] at the head of [s]: group 1. *)
Definition requireBlockAt (s : string) : option string :=
  match afterRequire s with
  | Some (String c r) =>
      if Ascii.eqb c "(" then
        match Js.indexOf ")" r with
        | Some j => Some (Js.take j r)
        | None => None
        end
      else None
  | _ => None
  end.

(** [/require\s+([^@\s]+)\s+([^@\s]+)/] at the head of [s]. *)
Definition requireLineAt (s : string) : option (string * string) :=
  match afterRequire s with
  | Some r => twoTokens r
  | None => None
  end.

Definition goRecord (filePath : string) (nv : string * string) : Dependency :=
  mkDep "go" nv.1 nv.2 "goproxy" filePath false.

(** The inner [for] loop, over the lines of a block:
    [depLine.trim().match(/^([^@\s]+)\s+([^@\s]+)/)]. *)
Fixpoint blockRecords (filePath : string) (depLines : list string) : list Dependency :=
  match depLines with
  | [] => []
  | depLine :: rest =>
      match twoTokens (Js.trim depLine) with
      | Some nv => goRecord filePath nv :: blockRecords filePath rest
      | None => blockRecords filePath rest
      end
  end.

(** The body of the [for] loop of [parseGoMod]: what one line adds. *)
Definition goLine (filePath line : string) : list Dependency :=
  if Js.startsWith "require" line || Js.includes "=>" line then
    match firstMatch requireBlockAt line with
    | Some block =>
        blockRecords filePath
          (List.filter (fun l => negb (String.eqb (Js.trim l) "")) (Js.split LF block))
    | None =>
        match firstMatch requireLineAt line with
        | Some nv => [goRecord filePath nv]
        | None => []
        end
    end
  else [].

Definition parseGoMod (filePath content : string) : list Dependency :=
  flat_map (goLine filePath) (lines content).

(** *** XML manifests *)

(** [s.match(re)] for a global regular expression that never matches the
    empty string: the matches, left to right, each search resuming after
    the previous match.  [m s] is the length of the match at the head of
    [s]. *)
Fixpoint matchAllFrom (m : string -> option nat) (skip : nat) (s : string)
         {struct s} : list string :=
  match skip with
  | S k =>
      match s with
      | EmptyString => []
      | String _ r => matchAllFrom m k r
      end
  | O =>
      match m s with
      | Some (S k) =>
          Js.take (S k) s
          :: match s with
             | EmptyString => []
             | String _ r => matchAllFrom m k r
             end
      | _ =>
          match s with
          | EmptyString => []
          | String _ r => matchAllFrom m O r
          end
      end
  end.

Definition matchAll (m : string -> option nat) (s : string) : list string :=
  matchAllFrom m O s.

(** [/<dependency>[\s\S]*?<\/dependency>/] at the head of [s]. *)
Definition matchDependency (s : string) : option nat :=
  if Js.startsWith "<dependency>" s then
    match Js.indexOf "</dependency>" (Js.drop 12 s) with
    | Some k => Some (12 + k + 13)%nat
    | None => None
    end
  else None.

(** [/<PackageReference[^>]*>[\s\S]*?<\/PackageReference>/] at the head
    of [s]. *)
Definition matchPackageReference (s : string) : option nat :=
  if Js.startsWith "<PackageReference" s then
    let afterName := Js.drop 17 s in
    match Js.indexOf ">" afterName with
    | Some j =>
        match Js.indexOf "</PackageReference>" (Js.drop (S j) afterName) with
        | Some k => Some (17 + j + 1 + k + 19)%nat
        | None => None
        end
    | None => None
    end
  else None.

(** [opening([^x]+)closing] at the head of [s], where [closing] begins
    with [x]: group 1 is the whole run of characters other than [x]. *)
Definition captureAt (opening : string) (x : ascii) (closing : string) (s : string)
  : option string :=
  if Js.startsWith opening s then
    let body := Js.drop (String.length opening) s in
    let n := Js.spanLength (fun c => negb (Ascii.eqb c x)) body in
    if (n =? 0)%nat then None
    else if Js.startsWith closing (Js.drop n body) then Some (Js.take n body)
    else None
  else None.

(** [dep.match(/<tag>([^<]+)<\/tag>/)], group 1. *)
Definition element (tag : string) (s : string) : option string :=
  firstMatch (captureAt ("<" +:+ tag +:+ ">") "<" ("</" +:+ tag +:+ ">")) s.

(** [pkg.match(re)], group 1, for the pattern of [attr=], a double quote,
    a run of one or more characters other than the double quote, and a
    double quote. *)
Definition attribute (attr : string) (s : string) : option string :=
  firstMatch (captureAt (attr +:+ "=" +:+ String quoteChar "") quoteChar
                        (String quoteChar "")) s.

(** The body of the [for] loop of [parsePomXml]. *)
Definition pomRecord (filePath dep : string) : list Dependency :=
  match element "groupId" dep, element "artifactId" dep with
  | Some groupId, Some artifactId =>
      [mkDep "java" (groupId +:+ ":" +:+ artifactId)
             (default "latest" (element "version" dep))
             "maven_central" filePath false]
  | _, _ => []
  end.

Definition parsePomXml (filePath content : string) : list Dependency :=
  flat_map (pomRecord filePath) (matchAll matchDependency content).

(** The body of the [for] loop of [parseCsproj]. *)
Definition csprojRecord (filePath pkg : string) : list Dependency :=
  match attribute "Include" pkg with
  | Some name =>
      [mkDep "dotnet" name (default "latest" (attribute "Version" pkg))
             ".net_nuget" filePath false]
  | None => []
  end.

Definition parseCsproj (filePath content : string) : list Dependency :=
  flat_map (csprojRecord filePath) (matchAll matchPackageReference content).

(** *** Gemfile *)

(** A single or a double quote. *)
Definition isQuote (c : ascii) : bool := Ascii.eqb c "'" || Ascii.eqb c quoteChar.

(** A quote, a run of one or more characters that are not quotes, and a
    quote, at the head of [s]: the run, and what follows the closing
    quote. *)
Definition quoted (s : string) : option (string * string) :=
  match s with
  | String q r =>
      if isQuote q then
        let n := Js.spanLength (fun c => negb (isQuote c)) r in
        if (n =? 0)%nat then None
        else match Js.drop n r with
             | String _ rest => Some (Js.take n r, rest)
             | EmptyString => None
             end
      else None
  | EmptyString => None
  end.

(** The optional group of the pattern, whitespace, a comma, whitespace
    and a quoted string: its capture, or [None] when the group does not
    match and is skipped. *)
Definition versionAfter (rest : string) : option string :=
  match Js.dropWhile Js.isSpace rest with
  | String c r =>
      if Ascii.eqb c "," then
        match quoted (Js.dropWhile Js.isSpace r) with
        | Some (v, _) => Some v
        | None => None
        end
      else None
  | EmptyString => None
  end.

(** The pattern of [parseGemfile] at the head of [s]: [gem], whitespace,
    the quoted name, and the optional group with the quoted version. *)
Definition gemAt (s : string) : option (string * option string) :=
  if Js.startsWith "gem" s then
    let r := Js.drop 3 s in
    let k := Js.spanLength Js.isSpace r in
    if (k =? 0)%nat then None
    else match quoted (Js.drop k r) with
         | Some (name, rest) => Some (name, versionAfter rest)
         | None => None
         end
  else None.

(** The body of the [for] loop of [parseGemfile]: [version || '>= 0']. *)
Definition gemLine (filePath line : string) : list Dependency :=
  match firstMatch gemAt line with
  | Some (name, version) =>
      [mkDep "ruby" name (default ">= 0" version) "rubygems.org" filePath false]
  | None => []
  end.

Definition parseGemfile (filePath content : string) : list Dependency :=
  flat_map (gemLine filePath) (lines content).

End DependencyScanner.

(** ** DocumentationMapper.js *)

(** What [processDependencies] pushes on [results]: an object with the
    fields of [packageData], a row read from the database, or an error
    entry. *)
Inductive ResultEntry : Type :=
| Package (p : PackageData)
| Existing (r : Row)
| Failed (ecosystem name version : string) (error : string).

(** What [loadDependenciesFromJSON] makes of one entry of the file: an
    object whose six properties hold whatever the entry holds. *)
Record LoadedDependency := mkLoaded {
  loaded_ecosystem : JsVal;
  loaded_name : JsVal;
  loaded_version : JsVal;
  loaded_source : JsVal;
  loaded_manifestPath : JsVal;
  loaded_isDevDependency : JsVal
}.

Module DocumentationMapper.

(** [dep.version === 'workspace:*' || dep.version?.includes('workspace:')] *)
Definition isWorkspace (version : string) : bool :=
  String.eqb version "workspace:*" || Js.includes "workspace:" version.

Definition workspaceNote : Documentation :=
  mkDoc None None None None
        (Some "Workspace package - no external documentation available") None.

Definition disabledNote : Documentation :=
  mkDoc None None None None (Some "Documentation fetching disabled") None.

(** The callback of [data.dependencies.map]: the properties are read in
    the order of the object literal. *)
Definition loadOne (dep : JsVal) : Res LoadedDependency :=
  DependencyScanner.rbind (JsOps.getp dep "ecosystem") (fun ecosystem =>
  DependencyScanner.rbind (JsOps.getp dep "dependency") (fun d1 =>
  DependencyScanner.rbind (JsOps.getp d1 "name") (fun name =>
  DependencyScanner.rbind (JsOps.getp dep "dependency") (fun d2 =>
  DependencyScanner.rbind (JsOps.getp d2 "version") (fun version =>
  DependencyScanner.rbind (JsOps.getp dep "dependency") (fun d3 =>
  DependencyScanner.rbind (JsOps.getp d3 "source") (fun source =>
  DependencyScanner.rbind (JsOps.getp dep "manifest_path") (fun manifestPath =>
  DependencyScanner.rbind (JsOps.getp dep "metadata") (fun metadata =>
  DependencyScanner.rbind (JsOps.getp metadata "dev_dependency") (fun isDevDependency =>
  Ok (mkLoaded ecosystem name version source manifestPath isDevDependency))))))))))).

Fixpoint loadAll (deps : list JsVal) : Res (list LoadedDependency) :=
  match deps with
  | [] => Ok []
  | dep :: rest =>
      DependencyScanner.rbind (loadOne dep) (fun d =>
      DependencyScanner.rbind (loadAll rest) (fun ds => Ok (d :: ds)))
  end.

(** [loadDependenciesFromJSON(jsonFilePath)], given [data], the value of
    [JSON.parse(fs.readFileSync(jsonFilePath, 'utf8'))].  An array is
    truthy, so the guard is the test for an array. *)
Definition loadDependenciesFromJSON (data : JsVal) : Res (list LoadedDependency) :=
  DependencyScanner.rbind (JsOps.getp data "dependencies") (fun dependencies =>
  match dependencies with
  | JArr deps => loadAll deps
  | _ => Throw (JsOps.Error "Invalid JSON format: missing dependencies array")
  end).

Section WithEnv.
Context (env : Env).

(** The body of the [try] for one [dep]; its value is the entry it
    pushes.  Nothing after [results.push] can throw, so the push is the
    last thing that matters. *)
Definition processOne (dep : Dependency) : M ResultEntry :=
  if isWorkspace (version dep) then
    t <- now env ;;
    ret (Package (mkPkg (ecosystem dep) (name dep) (version dep) (source dep)
                        (JStr ("Internal workspace package: " +:+ name dep))
                        (Some workspaceNote)
                        (manifestPath dep) (isDevDependency dep) t))
  else
    existing <- Database.getPackageDocumentation env (name dep) (version dep)
                                                 (ecosystem dep) ;;
    match existing with
    | Some row => ret (Existing row)
    | None =>
        description <- PackageFetcher.fetchDescription env dep ;;
        documentation <- (if skipDocs env then ret (Some disabledNote)
                          else DocumentationCrawler.crawlDocumentation env dep) ;;
        t <- now env ;;
        let packageData :=
          mkPkg (ecosystem dep) (name dep) (version dep) (source dep)
                description documentation
                (manifestPath dep) (isDevDependency dep) t in
        Database.storePackage env packageData ;;;
        ms <- randomDelay env ;;
        delay ms ;;;
        ret (Package packageData)
    end.

(** One turn of the [for] loop: the [try] and its [catch]. *)
Definition processRecord (dep : Dependency) : M ResultEntry :=
  tryCatch (processOne dep)
           (fun error =>
              ret (Failed (ecosystem dep) (name dep) (version dep) (message error))).

Fixpoint processFrom (dependencies : list Dependency) (results : list ResultEntry)
  : M (list ResultEntry) :=
  match dependencies with
  | [] => ret results
  | dep :: rest =>
      entry <- processRecord dep ;;
      processFrom rest (results ++ [entry])
  end.

Definition processDependencies (dependencies : list Dependency)
  : M (list ResultEntry) :=
  processFrom dependencies [].

Definition queryDocumentation (filters : Filters) : M (list Row) :=
  Database.queryPackages env filters.

End WithEnv.
End DocumentationMapper.

(** ** Vocabulary of the statements *)

(** The method returns: it does not throw, whatever the world. *)
Definition safe {A} (m : M A) : Prop :=
  forall w, exists a, (m w).1 = Ok a.

(** Every run of the method takes a world to an [R]-related one. *)
Definition respects (R : relation World) {A} (m : M A) : Prop :=
  forall w, R w (m w).2.

Definition isNet (e : Event) : Prop :=
  match e with
  | EvHttp _ | EvDelay _ => True
  | EvFetchDescription _ | EvCrawlDocumentation _ => False
  end.

(** The footprint of code that only talks to the network and reads the
    clock: database and caches as they were, requests and pauses added to
    the trace, time moving on. *)
Record netStep (w w' : World) : Prop := mkNetStep {
  net_database : database w' = database w;
  net_fetcherCache : fetcherCache w' = fetcherCache w;
  net_crawlerCache : crawlerCache w' = crawlerCache w;
  net_ticks : (ticks w <= ticks w')%nat;
  net_trace : exists evs, trace w' = trace w ++ evs /\ Forall isNet evs
}.

(** The footprint of the fetcher and of the crawler: the database as it
    was, the trace extended. *)
Record frameStep (w w' : World) : Prop := mkFrameStep {
  frame_database : database w' = database w;
  frame_trace : exists evs, trace w' = trace w ++ evs
}.

(** The events a run may add when no workspace record reaches the fetcher
    or the crawler. *)
Definition notWorkspaceCall (e : Event) : Prop :=
  match e with
  | EvFetchDescription d | EvCrawlDocumentation d =>
      DocumentationMapper.isWorkspace (version d) = false
  | EvHttp _ | EvDelay _ => True
  end.

Record callStep (w w' : World) : Prop := mkCallStep {
  call_trace : exists evs, trace w' = trace w ++ evs /\ Forall notWorkspaceCall evs
}.

Definition depKey (d : Dependency) : string * string * string :=
  (ecosystem d, name d, version d).

Definition entryKey (r : ResultEntry) : string * string * string :=
  match r with
  | Package p => (pkg_ecosystem p, pkg_name p, pkg_version p)
  | Existing row => (row_ecosystem row, row_name row, row_version row)
  | Failed e n v _ => (e, n, v)
  end.

(** The entry pushed for a workspace record at time [t]. *)
Definition workspaceEntry (dep : Dependency) (t : string) : ResultEntry :=
  Package (mkPkg (ecosystem dep) (name dep) (version dep) (source dep)
                 (JStr ("Internal workspace package: " +:+ name dep))
                 (Some DocumentationMapper.workspaceNote)
                 (manifestPath dep) (isDevDependency dep) t).

(** The answer is a rejection with status 403. *)
Definition forbidden (r : HttpResult) : bool :=
  match r with
  | Rejected e => bool_decide (status e = Some 403)
  | Response _ => false
  end.

(** The requests and pauses of [n] attempts on [docUrl], the first one
    numbered [attempt]. *)
Fixpoint pageSchedule (docUrl : string) (n : nat) (attempt : Z) : list Event :=
  match n with
  | O => []
  | S O => [EvHttp (Get docUrl 10000)]
  | S n' => EvHttp (Get docUrl 10000) :: EvDelay (inject_Z (attempt * 2000))
            :: pageSchedule docUrl n' (attempt + 1)
  end.

(** The record of a successful raw fetch of [html] from [docUrl]. *)
Definition pageDoc (docUrl t html : string) : Documentation :=
  mkDoc (Some docUrl)
        (Some (JStr (Js.substring0 5000 (DocumentationCrawler.stripMarkup html))))
        (Some t) (Some "basic_fetch")
        (Some "Basic HTML text extraction - consider using Firecrawl API for better results")
        None.

(** The error note of a failed raw fetch. *)
Definition errorDoc (docUrl t msg : string) : Documentation :=
  mkDoc (Some docUrl) None (Some t) None None
        (Some ("Failed to fetch documentation: " +:+ msg)).

(** What the last attempt, answered by [ans], makes of the record. *)
Definition pageOutcome (docUrl t : string) (ans : HttpResult) (doc : Documentation)
  : Prop :=
  match ans with
  | Response (JStr html) => doc = pageDoc docUrl t html
  | Response d =>
      exists e, DocumentationCrawler.extractTextFromHTML d = Throw e
                /\ doc = errorDoc docUrl t (message e)
  | Rejected e => doc = errorDoc docUrl t (message e)
  end.

(** A matcher never reports a match longer than its subject. *)
Definition bounded (m : string -> option nat) : Prop :=
  forall s n, m s = Some n -> (n <= String.length s)%nat.

Definition headNonSpace (s : string) : bool :=
  match s with
  | EmptyString => true
  | String c _ => negb (Js.isSpace c)
  end.

(** No match of [/<[^>]+>/] anywhere in [s]. *)
Fixpoint tagFree (s : string) : bool :=
  match s with
  | EmptyString => true
  | String _ r =>
      match DocumentationCrawler.matchTag s with
      | Some _ => false
      | None => tagFree r
      end
  end.

(** Every whitespace character of [s] is a plain space with no whitespace
    next to it. *)
Fixpoint collapsed (s : string) : bool :=
  match s with
  | EmptyString => true
  | String c r =>
      (if Js.isSpace c
       then Ascii.eqb c " "
            && match r with
               | String d _ => negb (Js.isSpace d)
               | EmptyString => true
               end
       else true)
      && collapsed r
  end.

(** A filter property that takes part in the query: supplied and not the
    empty string. *)
Definition effective (f : option string) (col : Row -> string) (r : Row) : Prop :=
  forall s, f = Some s -> s <> "" -> col r = s.

Definition noFilters : Filters := mkFilters None None None.

(** Every run of the method begins by sending [req]. *)
Definition opens (req : Request) {A} (m : M A) : Prop :=
  forall w, exists evs, trace (m w).2 = trace w ++ EvHttp req :: evs.

(** A section of package.json whose values are all strings; [None] is a
    section that is not there. *)
Definition manifestSection (o : option (list (string * string))) : JsVal :=
  match o with
  | Some l => JObj (map (fun nv => (nv.1, JStr nv.2)) l)
  | None => JUndef
  end.

Definition declared (o : option (list (string * string))) : list (string * string) :=
  match o with
  | Some l => l
  | None => []
  end.

Definition nonDigit (c : ascii) : bool := negb (Js.isDigit c).

(** The record the scanner emits for the entry [name : range]. *)
Definition npmRecord (filePath : string) (dev : bool) (nv : string * string)
  : Dependency :=
  mkDep "npm" nv.1 (Js.dropWhile nonDigit nv.2) "registry" filePath dev.

(** *** Sample worlds *)

Module Sample.

Definition emptyWorld : World := mkWorld (mkDb [] 0) ∅ ∅ [] 0.

(** A clock that shows the number of effects so far. *)
Definition stamp (t : nat) : string := "t" +:+ Js.ofZ (Z.of_nat t).

Definition e403 : JsError := mkError "Request failed with status code 403" (Some 403).
Definition e500 : JsError := mkError "Request failed with status code 500" (Some 500).
Definition timeout : JsError := mkError "timeout of 10000ms exceeded" None.

(** Every request is answered with [answer]; the database works. *)
Definition constant (answer : HttpResult) : Env :=
  mkEnv (fun _ _ => answer) (fun _ => None) stamp (fun _ => (42 # 100)%Q) None None false SQLite.

(** The registry times out; pages are served. *)
Definition registryDown : Env :=
  mkEnv (fun _ r =>
           match r with
           | Get url 10000 =>
               if Js.startsWith "https://registry.npmjs.org/" url
               then Rejected timeout
               else Response (JStr "<html><body><h1>Docs</h1></body></html>")
           | _ => Rejected timeout
           end)
        (fun _ => None) stamp (fun _ => (42 # 100)%Q) None None false SQLite.

(** The database rejects the statement issued at time [t]. *)
Definition dbFailsAt (t : nat) : Env :=
  mkEnv (fun _ _ => Response (JObj [("description", JStr "A library")]))
        (fun k => if (k =? t)%nat then Some "SQLITE_BUSY: database is locked" else None)
        stamp (fun _ => (42 # 100)%Q) None None false SQLite.

(** Pages answer 403 before time [t] and are served from then on. *)
Definition forbiddenUntil (t : nat) : Env :=
  mkEnv (fun k _ =>
           if (k <? t)%nat then Rejected e403
           else Response (JStr "<p>Hello   <b>world</b></p>"))
        (fun _ => None) stamp (fun _ => (42 # 100)%Q) None None false SQLite.

Definition lodash : Dependency :=
  mkDep "npm" "lodash" "4.17.21" "registry" "/repo/package.json" false.
Definition requests : Dependency :=
  mkDep "pypi" "requests" "2.31.0" "pypi" "/repo/requirements.txt" false.
Definition internal : Dependency :=
  mkDep "npm" "@acme/utils" "workspace:*" "registry" "/repo/package.json" false.
Definition serde : Dependency :=
  mkDep "rust" "serde" "1.0" "crates.io" "/repo/Cargo.toml" false.

Definition pkg (e n v : string) (d : string) : PackageData :=
  mkPkg e n v "registry" (JStr d) None "/repo/package.json" false (stamp 0).

Definition row (id : Z) (e n v : string) (d : string) : Row :=
  Database.rowOf id (pkg e n v d).

Definition worldWith (rs : list Row) : World :=
  mkWorld (mkDb rs (Z.of_nat (length rs))) ∅ ∅ [] 0.

End Sample.

(** *** Vocabulary of the further properties *)

(** The row a successful [storePackage] leaves for [packageData], by
    backend. *)
Definition storedRow (t : DbType) (id : Z) (p : PackageData) : Row :=
  match t with
  | SQLite => Database.rowOf id p
  | MongoDB => Database.documentOf id p
  end.

(** The table after a successful [storePackage], by backend. *)
Definition storeStep (t : DbType) (p : PackageData) (d : DbState) : DbState :=
  match t with
  | SQLite => (Database.insertOrReplace p d).2
  | MongoDB => (Database.updateOneUpsert p d).2
  end.

Definition rowKey (r : Row) : string * string * string :=
  (row_ecosystem r, row_name r, row_version r).

Definition pkgKey (p : PackageData) : string * string * string :=
  (pkg_ecosystem p, pkg_name p, pkg_version p).

(** What the unique index and the key generation promise of a table: one
    row per triple, one row per id, no id beyond the last one handed out. *)
Record wellFormed (d : DbState) : Prop := mkWellFormed {
  wf_keys : NoDup (map rowKey (rows d));
  wf_ids : NoDup (map row_id (rows d));
  wf_bound : Forall (fun r => row_id r <= lastId d) (rows d)
}.

(** The triple has a row. *)
Definition present (k : string * string * string) (d : DbState) : Prop :=
  exists r, In r (rows d) /\ rowKey r = k.

(** The rows of the triples other than [k], in table order. *)
Definition others (k : string * string * string) (d : DbState) : list Row :=
  List.filter (fun r => negb (bool_decide (rowKey r = k))) (rows d).

(** The documentation step of one turn: the crawler, unless documentation
    is switched off. *)
Definition documentationStep (env : Env) (dep : Dependency) : M (option Documentation) :=
  if skipDocs env then ret (Some DocumentationMapper.disabledNote)
  else DocumentationCrawler.crawlDocumentation env dep.

(** The [packageData] of one turn. *)
Definition packageOf (dep : Dependency) (description : JsVal)
           (documentation : option Documentation) (t : string) : PackageData :=
  mkPkg (ecosystem dep) (name dep) (version dep) (source dep)
        description documentation (manifestPath dep) (isDevDependency dep) t.

(** The world a turn ends in when it stores [p] at [w]: the store, the
    random number, the pause. *)
Definition afterStore (env : Env) (p : PackageData) (w : World) : World :=
  let w1 := setDatabase (storeStep (dbType env) p (database w)) (tickWorld w) in
  logEvent (EvDelay (200 + Js.fraction (random env (ticks w1)) * 300)%Q) (tickWorld w1).

(** The footprint of code whose events all satisfy [P]. *)
Record traceStep (P : Event -> Prop) (w w' : World) : Prop := mkTraceStep {
  step_trace : exists evs, trace w' = trace w ++ evs /\ Forall P evs
}.

Definition isHttp (e : Event) : Prop :=
  match e with
  | EvHttp _ => True
  | _ => False
  end.

Definition isCrawlCall (e : Event) : Prop :=
  match e with
  | EvCrawlDocumentation _ => True
  | _ => False
  end.

(** The ecosystems the two [switch] statements know. *)
Definition supported (e : string) : bool :=
  existsb (String.eqb e)
          ["npm"; "python"; "pypi"; "rust"; "java"; "ruby"; "go"; "dotnet"; "php"].

(** The number of requests and the total pause, in ms, of a stretch of
    trace. *)
Fixpoint requests (evs : list Event) : nat :=
  match evs with
  | [] => O
  | EvHttp _ :: r => S (requests r)
  | _ :: r => requests r
  end.

Fixpoint pauses (evs : list Event) : Q :=
  match evs with
  | [] => 0%Q
  | EvDelay ms :: r => (ms + pauses r)%Q
  | _ :: r => pauses r
  end.

(** Every run of the method sends at most [n] requests and pauses for at
    most [ms] milliseconds. *)
Definition costs (n : nat) (ms : Z) {A} (m : M A) : Prop :=
  forall w, exists evs,
    trace (m w).2 = trace w ++ evs
    /\ (requests evs <= n)%nat /\ (0 <= pauses evs <= inject_Z ms)%Q.

(** The entries of a run that does not fetch documentation: a package
    entry carries one of the two fixed notes, and the row of a record
    found in the table is one of the rows of which [inTable] holds. *)
Definition disabledEntry (inTable : Row -> Prop) (r : ResultEntry) : Prop :=
  match r with
  | Package p =>
      pkg_documentation p = Some DocumentationMapper.disabledNote
      \/ (DocumentationMapper.isWorkspace (pkg_version p) = true
          /\ pkg_documentation p = Some DocumentationMapper.workspaceNote)
  | Existing row => inTable row
  | Failed _ _ _ _ => True
  end.

(** No colon in [s]. *)
Definition noColon (s : string) : bool :=
  Js.allChars (fun c => negb (Ascii.eqb c ":")) s.

(** The loop that [parsePyprojectToml] and [parseCargoToml] share, by the
    header of the section, the two constants of the record and the names
    left out. *)
Fixpoint sectionLoop (header eco src : string) (skip : string -> bool)
         (filePath : string) (inSection : bool) (ls : list string) : list Dependency :=
  match ls with
  | [] => []
  | line :: rest =>
      if Js.includes header line then
        sectionLoop header eco src skip filePath true rest
      else
        let inSection' :=
          if Js.startsWith "[" line && inSection then false else inSection in
        if inSection' && Js.includes "=" line then
          let '(name, version) := DependencyScanner.tomlEntry line in
          if negb (String.eqb name "") && negb (skip name) then
            mkDep eco name (DependencyScanner.orStar version) src filePath false
            :: sectionLoop header eco src skip filePath inSection' rest
          else sectionLoop header eco src skip filePath inSection' rest
        else sectionLoop header eco src skip filePath inSection' rest
  end.

(** The record of the scanner for ecosystem [eco]. *)
Definition scanned (eco src filePath : string) (d : Dependency) : Prop :=
  ecosystem d = eco /\ source d = src /\ manifestPath d = filePath
  /\ isDevDependency d = false /\ name d <> "" /\ version d <> "".

(** Where a record of the loop comes from: a line of [ls] with an equals
    sign, read as [name = version]. *)
Definition fromLine (header eco src : string) (skip : string -> bool)
           (filePath : string) (ls : list string) (d : Dependency) : Prop :=
  scanned eco src filePath d
  /\ skip (name d) = false
  /\ exists line, In line ls
                  /\ Js.includes header line = false
                  /\ Js.includes "=" line = true
                  /\ name d = (DependencyScanner.tomlEntry line).1
                  /\ version d
                     = DependencyScanner.orStar (DependencyScanner.tomlEntry line).2.

(** A character of a name or a version written without quotes inside: no
    white space, equals sign, double quote or opening bracket. *)
Definition bareChar (c : ascii) : bool :=
  negb (Js.isSpace c) && negb (Ascii.eqb c "=")
  && negb (Ascii.eqb c DependencyScanner.quoteChar) && negb (Ascii.eqb c "[").

(** The line [name = version] of a manifest, the version in double
    quotes. *)
Definition entryLine (name version : string) : string :=
  name +:+ " = " +:+ dquote +:+ version +:+ dquote.

(** A table without rows of workspace records: the tables the program
    writes. *)
Definition plainTable (d : DbState) : Prop :=
  Forall (fun r => DocumentationMapper.isWorkspace (row_version r) = false) (rows d).

(** [s] stops inside a tag: its last [<] has no [>] after it. *)
Fixpoint endsInTag (inTag : bool) (s : string) : bool :=
  match s with
  | EmptyString => inTag
  | String c r =>
      endsInTag (if Ascii.eqb c "<" then true
                 else if Ascii.eqb c ">" then false else inTag) r
  end.

Definition insideTag (s : string) : bool := endsInTag false s.

(** * Properties *)

(** ** The monad *)

Section MonadFacts.
Context (R : relation World) `{!PreOrder R}.

Lemma respects_ret {A} (a : A) : respects R (ret a).
Proof. intros w. reflexivity. Qed.

Lemma respects_throw {A} (e : JsError) : respects R (@throw A e).
Proof. intros w. reflexivity. Qed.

Lemma respects_lift {A} (r : Res A) : respects R (lift r).
Proof. intros w. reflexivity. Qed.

Lemma respects_bind {A B} (m : M A) (k : A -> M B) :
  respects R m -> (forall a, respects R (k a)) -> respects R (bind m k).
Proof.
  intros Hm Hk w. unfold bind. specialize (Hm w).
  destruct (m w) as [[a|e] w1]; simpl in *; [|done].
  etrans; [exact Hm|apply Hk].
Qed.

Lemma respects_tryCatch {A} (m : M A) (h : JsError -> M A) :
  respects R m -> (forall e, respects R (h e)) -> respects R (tryCatch m h).
Proof.
  intros Hm Hh w. unfold tryCatch. specialize (Hm w).
  destruct (m w) as [[a|e] w1]; simpl in *; [done|].
  etrans; [exact Hm|apply Hh].
Qed.

Lemma respects_weaken (R' : relation World) {A} (m : M A) :
  (forall w w', R' w w' -> R w w') -> respects R' m -> respects R m.
Proof. intros HR Hm w. apply HR, Hm. Qed.
End MonadFacts.

Lemma safe_ret {A} (a : A) : safe (ret a).
Proof. intros w. by exists a. Qed.

Lemma safe_bind {A B} (m : M A) (k : A -> M B) :
  safe m -> (forall a, safe (k a)) -> safe (bind m k).
Proof.
  intros Hm Hk w. unfold bind. destruct (Hm w) as [a Ha].
  destruct (m w) as [[a'|e] w1]; simpl in *; [|done]. apply Hk.
Qed.

Lemma safe_tryCatch {A} (m : M A) (h : JsError -> M A) :
  (forall e, safe (h e)) -> safe (tryCatch m h).
Proof.
  intros Hh w. unfold tryCatch.
  destruct (m w) as [[a|e] w1]; simpl; [by exists a|apply Hh].
Qed.

Lemma safe_run {A} (m : M A) w :
  safe m -> exists a w', m w = (Ok a, w').
Proof.
  intros Hm. destruct (Hm w) as [a Ha]. exists a, (m w).2.
  destruct (m w) as [r w']; simpl in *; by subst.
Qed.

#[global] Instance netStep_preorder : PreOrder netStep.
Proof.
  split.
  - intros w. split; try done. exists []. by rewrite app_nil_r.
  - intros w1 w2 w3 [D1 F1 C1 T1 (e1 & E1 & P1)] [D2 F2 C2 T2 (e2 & E2 & P2)].
    split; try congruence; [lia|].
    exists (e1 ++ e2). rewrite E2, E1, app_assoc. split; [done|].
    by apply Forall_app.
Qed.

#[global] Instance frameStep_preorder : PreOrder frameStep.
Proof.
  split.
  - intros w. split; [done|]. exists []. by rewrite app_nil_r.
  - intros w1 w2 w3 [D1 (e1 & E1)] [D2 (e2 & E2)].
    split; [congruence|]. exists (e1 ++ e2). by rewrite E2, E1, app_assoc.
Qed.

#[global] Instance callStep_preorder : PreOrder callStep.
Proof.
  split.
  - intros w. split. exists []. by rewrite app_nil_r.
  - intros w1 w2 w3 [(e1 & E1 & P1)] [(e2 & E2 & P2)].
    split. exists (e1 ++ e2). rewrite E2, E1, app_assoc. split; [done|].
    by apply Forall_app.
Qed.

Lemma netStep_frameStep w w' : netStep w w' -> frameStep w w'.
Proof. intros [D _ _ _ (evs & E & _)]. split; [done|by exists evs]. Qed.

Lemma isNet_notWorkspaceCall e : isNet e -> notWorkspaceCall e.
Proof. by destruct e. Qed.

Lemma netStep_callStep w w' : netStep w w' -> callStep w w'.
Proof.
  intros [_ _ _ _ (evs & E & P)]. split. exists evs. split; [done|].
  eapply Forall_impl; [exact P|]. apply isNet_notWorkspaceCall.
Qed.

(** ** The effects *)

Section EffectFacts.
Context (env : Env).

Lemma net_axios r : respects netStep (axios env r).
Proof.
  intros w. unfold axios.
  destruct (http env (ticks w) r); simpl;
    (split; simpl; [done|done|done|lia|]);
    exists [EvHttp r]; (split; [done|by repeat constructor]).
Qed.

Lemma net_now : respects netStep (now env).
Proof.
  intros w. split; simpl; [done|done|done|lia|].
  exists []. by rewrite app_nil_r.
Qed.

Lemma net_randomDelay : respects netStep (randomDelay env).
Proof.
  intros w. split; simpl; [done|done|done|lia|].
  exists []. by rewrite app_nil_r.
Qed.

Lemma net_delay ms : respects netStep (delay ms).
Proof.
  intros w. split; simpl; [done|done|done|lia|].
  exists [EvDelay ms]. split; [done|by repeat constructor].
Qed.

Lemma safe_now : safe (now env).
Proof. intros w. by eexists. Qed.

Lemma safe_randomDelay : safe (randomDelay env).
Proof. intros w. by eexists. Qed.

Lemma safe_delay ms : safe (delay ms).
Proof. intros w. by eexists. Qed.
End EffectFacts.

Lemma net_ret {A} (a : A) : respects netStep (ret a).
Proof. apply respects_ret, _. Qed.

Lemma net_throw {A} (e : JsError) : respects netStep (@throw A e).
Proof. apply respects_throw, _. Qed.

Lemma net_lift {A} (r : Res A) : respects netStep (lift r).
Proof. apply respects_lift, _. Qed.

Lemma net_bind {A B} (m : M A) (k : A -> M B) :
  respects netStep m -> (forall a, respects netStep (k a)) -> respects netStep (bind m k).
Proof. apply respects_bind, _. Qed.

Lemma net_tryCatch {A} (m : M A) (h : JsError -> M A) :
  respects netStep m -> (forall e, respects netStep (h e)) ->
  respects netStep (tryCatch m h).
Proof. apply respects_tryCatch, _. Qed.

(** Steps through a method body made of network effects only. *)
Ltac net_step :=
  first
    [ apply net_ret
    | apply net_throw
    | apply net_lift
    | apply net_axios
    | apply net_now
    | apply net_delay
    | apply net_randomDelay
    | apply net_bind; [|intros ?]
    | apply net_tryCatch; [|intros ?]
    | match goal with
      | |- respects _ (if ?b then _ else _) => destruct b
      | |- respects _ (match ?x with _ => _ end) => destruct x
      end ].

Ltac net_steps := repeat net_step.

(** ** PackageFetcher *)

Lemma net_prop v k : respects netStep (PackageFetcher.prop v k).
Proof. apply net_lift. Qed.

Lemma net_andThen a b :
  respects netStep b -> respects netStep (PackageFetcher.andThen a b).
Proof.
  intros Hb. unfold PackageFetcher.andThen.
  destruct (JsOps.truthy a); [done|]. apply net_ret.
Qed.

Lemma net_orElse a b :
  respects netStep b -> respects netStep (PackageFetcher.orElse a b).
Proof.
  intros Hb. unfold PackageFetcher.orElse.
  destruct (JsOps.truthy a); [|done]. apply net_ret.
Qed.

Ltac fetcher_steps :=
  repeat first [ apply net_prop | apply net_andThen | apply net_orElse | net_step ].

Section FetcherFacts.
Context (env : Env).
Import PackageFetcher.

Lemma net_findCatalogEntry version items :
  respects netStep (findCatalogEntry version items).
Proof. induction items as [|item rest IH]; simpl; fetcher_steps; done. Qed.

Lemma net_dispatch e n v : respects netStep (dispatch env e n v).
Proof.
  unfold dispatch, fetchNPMDescription, fetchPyPIDescription, pypiSummary,
    fetchCratesDescription, fetchMavenDescription, fetchRubyGemsDescription,
    fetchGoDescription, fetchGitHubGoDescription, fetchNuGetDescription,
    fetchPackagistDescription.
  fetcher_steps; apply net_findCatalogEntry.
Qed.

Lemma fetchDescription_hit dep w v :
  fetcherCache w !! cacheKey (ecosystem dep) (name dep) (version dep) = Some v ->
  fetchDescription env dep w = (Ok v, logEvent (EvFetchDescription dep) w).
Proof.
  intros H. unfold fetchDescription, bind, emit, readCache. simpl. by rewrite H.
Qed.

Lemma fetchDescription_miss dep w :
  fetcherCache w !! cacheKey (ecosystem dep) (name dep) (version dep) = None ->
  fetchDescription env dep w =
    match dispatch env (ecosystem dep) (name dep) (version dep)
                   (logEvent (EvFetchDescription dep) w) with
    | (Ok d, w1) =>
        (Ok d, setFetcherCache
                 (<[cacheKey (ecosystem dep) (name dep) (version dep) := d]>
                    (fetcherCache w1)) w1)
    | (Throw e, w1) =>
        (Ok (JStr ("Failed to fetch description: " +:+ message e)), w1)
    end.
Proof.
  intros H. unfold fetchDescription, bind, emit, readCache. simpl. rewrite H.
  unfold tryCatch, bind, cacheSet, ret.
  by destruct (dispatch env _ _ _ _) as [[d|e] w1].
Qed.

Lemma safe_fetchDescription dep : safe (fetchDescription env dep).
Proof.
  intros w.
  destruct (fetcherCache w !! cacheKey (ecosystem dep) (name dep) (version dep))
    as [v|] eqn:H.
  - rewrite (fetchDescription_hit _ _ _ H). by eexists.
  - rewrite (fetchDescription_miss _ _ H).
    destruct (dispatch env _ _ _ _) as [[d|e] w1]; by eexists.
Qed.

(** What a call of [fetchDescription] does to the world, whichever way
    it goes. *)
Lemma fetchDescription_footprint dep w :
  let w' := (fetchDescription env dep w).2 in
  database w' = database w
  /\ crawlerCache w' = crawlerCache w
  /\ exists evs, trace w' = trace w ++ EvFetchDescription dep :: evs
                 /\ Forall isNet evs.
Proof.
  simpl.
  destruct (fetcherCache w !! cacheKey (ecosystem dep) (name dep) (version dep))
    as [v|] eqn:H.
  - rewrite (fetchDescription_hit _ _ _ H). simpl.
    repeat split. exists []. by split.
  - rewrite (fetchDescription_miss _ _ H).
    pose proof (net_dispatch (ecosystem dep) (name dep) (version dep)
                  (logEvent (EvFetchDescription dep) w)) as [D F C T (evs & E & P)].
    destruct (dispatch env _ _ _ _) as [[d|e] w1]; simpl in *;
      (repeat split; [done|done|]); exists evs;
      rewrite E, <- app_assoc; done.
Qed.

Lemma frame_fetchDescription dep : respects frameStep (fetchDescription env dep).
Proof.
  intros w. destruct (fetchDescription_footprint dep w) as (D & _ & evs & E & _).
  split; [done|]. by eexists.
Qed.

Lemma call_fetchDescription dep :
  DocumentationMapper.isWorkspace (version dep) = false ->
  respects callStep (fetchDescription env dep).
Proof.
  intros Hw w. destruct (fetchDescription_footprint dep w) as (_ & _ & evs & E & P).
  split. eexists. split; [exact E|].
  constructor; [done|]. eapply Forall_impl; [exact P|apply isNet_notWorkspaceCall].
Qed.
End FetcherFacts.

Section FetcherRetry.
Context (env : Env).
Import PackageFetcher.

Lemma opens_axios_bind {A} req (k : JsVal -> M A) :
  (forall a, respects netStep (k a)) -> opens req (bind (axios env req) k).
Proof.
  intros Hk w. unfold bind, axios.
  destruct (http env (ticks w) req) as [d|e]; simpl.
  - destruct (Hk d (tickWorld (logEvent (EvHttp req) w))) as [_ _ _ _ (evs & E & _)].
    exists evs. rewrite E. simpl. by rewrite <- app_assoc.
  - by exists [].
Qed.

Lemma opens_tryCatch {A} req (m : M A) h :
  opens req m -> (forall e, respects netStep (h e)) -> opens req (tryCatch m h).
Proof.
  intros Hm Hh w. unfold tryCatch. destruct (Hm w) as (evs & E).
  destruct (m w) as [[a|e] w1]; simpl in *; [by exists evs|].
  destruct (Hh e w1) as [_ _ _ _ (evs' & E' & _)].
  exists (evs ++ evs'). rewrite E', E, <- app_assoc. done.
Qed.

Lemma safe_tryCatch_body {A} (m : M A) h : safe m -> safe (tryCatch m h).
Proof.
  intros Hm w. unfold tryCatch. destruct (Hm w) as [a Ha].
  destruct (m w) as [[a'|e] w1]; simpl in *; [by eexists|done].
Qed.

Lemma safe_fetchGitHubGoDescription n v : safe (fetchGitHubGoDescription env n v).
Proof. apply safe_tryCatch. intros e. apply safe_ret. Qed.

Lemma safe_fetchGoDescription n v : safe (fetchGoDescription env n v).
Proof.
  apply safe_tryCatch_body. destruct (Js.startsWith _ _).
  - apply safe_fetchGitHubGoDescription.
  - apply safe_ret.
Qed.

Ltac opens_request :=
  right; eexists; apply opens_tryCatch;
  [first [apply opens_axios_bind | unfold pypiSummary; apply opens_axios_bind]|];
  intros; fetcher_steps; try apply net_findCatalogEntry.

(** A branch either cannot throw or begins with a request that depends
    on the key alone. *)
Lemma dispatch_throws_after_request e n v :
  safe (dispatch env e n v) \/ exists req, opens req (dispatch env e n v).
Proof.
  unfold dispatch.
  repeat match goal with
         | |- context [if ?b then _ else _] =>
             lazymatch b with
             | String.eqb e _ => destruct b eqn:?
             | (_ || _) => destruct b eqn:?
             end
         end.
  all: try (left; apply safe_ret).
  - unfold fetchNPMDescription. opens_request.
  - unfold fetchPyPIDescription. opens_request.
  - unfold fetchCratesDescription. opens_request.
  - unfold fetchMavenDescription.
    destruct (String.eqb (nth 0 (Js.split ":" n) "") "" || String.eqb (nth 1 (Js.split ":" n) "") "") eqn:Hc.
    + left. apply safe_tryCatch_body. cbv zeta. apply safe_ret.
    + right. eexists. apply opens_tryCatch.
      * cbv zeta. apply opens_axios_bind. intros; fetcher_steps.
      * intros; fetcher_steps.
  - unfold fetchRubyGemsDescription. opens_request.
  - left. apply safe_fetchGoDescription.
  - unfold fetchNuGetDescription. opens_request.
  - unfold fetchPackagistDescription. opens_request.
Qed.
End FetcherRetry.

Section FetcherCache.
Context (env : Env).
Import PackageFetcher.

Lemma fetcherCache_dispatch e n v w :
  fetcherCache (dispatch env e n v w).2 = fetcherCache w.
Proof. by destruct (net_dispatch env e n v w). Qed.

Lemma fetchDescription_keeps_entries dep w k v :
  fetcherCache w !! k = Some v ->
  fetcherCache (fetchDescription env dep w).2 !! k = Some v.
Proof.
  intros Hk.
  destruct (fetcherCache w !! cacheKey (ecosystem dep) (name dep) (version dep))
    as [c|] eqn:H.
  - by rewrite (fetchDescription_hit _ _ _ _ H).
  - rewrite (fetchDescription_miss _ _ _ H).
    pose proof (fetcherCache_dispatch (ecosystem dep) (name dep) (version dep)
                  (logEvent (EvFetchDescription dep) w)) as F.
    destruct (dispatch env _ _ _ _) as [[d|e] w1]; simpl in *.
    + rewrite F. rewrite lookup_insert_ne; [done|]. intros <-. congruence.
    + by rewrite F.
Qed.

(** C9. The fetcher's cache holds the results of branches that returned,
    and nothing else: a cached description is handed back without a
    request; when the branch of a key that is not cached returns [d]
    (a description, the "No description available" fallback or the
    placeholder of an unsupported ecosystem), [d] is cached under the key
    and the next call returns it without a request; when the branch throws,
    the "Failed to fetch description" placeholder is returned, the cache is
    as it was, and the next call sends the registry request again; and no
    call removes or overwrites an entry. *)
Theorem fetcher_cache_holds_successes dep w :
  let key := cacheKey (ecosystem dep) (name dep) (version dep) in
  let w0 := logEvent (EvFetchDescription dep) w in
  (forall v, fetcherCache w !! key = Some v ->
     fetchDescription env dep w = (Ok v, w0))
  /\ (forall d w1, fetcherCache w !! key = None ->
        dispatch env (ecosystem dep) (name dep) (version dep) w0 = (Ok d, w1) ->
        exists w',
          fetchDescription env dep w = (Ok d, w')
          /\ fetcherCache w' = <[key := d]> (fetcherCache w)
          /\ trace w' = trace w1
          /\ fetchDescription env dep w' = (Ok d, logEvent (EvFetchDescription dep) w'))
  /\ (forall e w1, fetcherCache w !! key = None ->
        dispatch env (ecosystem dep) (name dep) (version dep) w0 = (Throw e, w1) ->
        fetchDescription env dep w
          = (Ok (JStr ("Failed to fetch description: " +:+ message e)), w1)
        /\ fetcherCache w1 = fetcherCache w
        /\ exists req evs,
             trace (fetchDescription env dep w1).2
               = trace w1 ++ EvFetchDescription dep :: EvHttp req :: evs)
  /\ (forall dep' k v, fetcherCache w !! k = Some v ->
        fetcherCache (fetchDescription env dep' w).2 !! k = Some v).
Proof.
  intros key w0. subst key w0. repeat split.
  - intros v H. by apply fetchDescription_hit.
  - intros d w1 H Hd.
    pose proof (fetcherCache_dispatch (ecosystem dep) (name dep) (version dep)
                  (logEvent (EvFetchDescription dep) w)) as F.
    rewrite (fetchDescription_miss _ _ _ H). rewrite Hd in *. simpl in F.
    eexists. split; [done|]. split; [by rewrite F|]. split; [done|].
    apply fetchDescription_hit. simpl. apply lookup_insert_eq.
  - by rewrite (fetchDescription_miss _ _ _ H), H0.
  - pose proof (fetcherCache_dispatch (ecosystem dep) (name dep) (version dep)
                  (logEvent (EvFetchDescription dep) w)) as F.
    by rewrite H0 in F.
  - pose proof (fetcherCache_dispatch (ecosystem dep) (name dep) (version dep)
                  (logEvent (EvFetchDescription dep) w)) as F.
    rewrite H0 in F. simpl in F.
    assert (fetcherCache w1 !! cacheKey (ecosystem dep) (name dep) (version dep) = None)
      as H1 by (by rewrite F).
    destruct (dispatch_throws_after_request env (ecosystem dep) (name dep) (version dep))
      as [Hs|[req Hr]].
    { destruct (Hs (logEvent (EvFetchDescription dep) w)) as [a Ha]. by rewrite H0 in Ha. }
    exists req.
    destruct (Hr (logEvent (EvFetchDescription dep) w1)) as (evs & E).
    exists evs. rewrite (fetchDescription_miss _ _ _ H1).
    destruct (dispatch env _ _ _ (logEvent _ w1)) as [[d|e'] w2]; simpl in *;
      rewrite E, <- app_assoc; done.
  - intros dep' k v. apply fetchDescription_keeps_entries.
Qed.
End FetcherCache.

(** The placeholder of an unsupported ecosystem and the fallback for a
    registry entry without description are cached; the placeholder of a
    failed lookup is not. *)
Example fetcher_cache_samples :
  let cobol := mkDep "cobol" "payroll" "1.0" "" "" false in
  fetcherCache (PackageFetcher.fetchDescription (Sample.constant (Response JNull)) cobol
                  Sample.emptyWorld).2
    !! "cobol:payroll:1.0" = Some (JStr "Package from cobol ecosystem")
  /\ fetcherCache (PackageFetcher.fetchDescription (Sample.constant (Response (JObj [])))
                     Sample.lodash Sample.emptyWorld).2
       !! "npm:lodash:4.17.21" = Some (JStr "No description available")
  /\ PackageFetcher.fetchDescription Sample.registryDown Sample.lodash Sample.emptyWorld
     = (Ok (JStr "Failed to fetch description: NPM fetch failed: timeout of 10000ms exceeded"),
        mkWorld (mkDb [] 0) ∅ ∅
                [EvFetchDescription Sample.lodash;
                 EvHttp (Get "https://registry.npmjs.org/lodash" 10000)] 1).
Proof. repeat split; vm_compute; reflexivity. Qed.

(** ** DocumentationCrawler *)

Lemma net_crawler_prop v k : respects netStep (DocumentationCrawler.prop v k).
Proof. apply net_lift. Qed.

Lemma net_crawler_andThen a b :
  respects netStep b -> respects netStep (DocumentationCrawler.andThen a b).
Proof.
  intros Hb. unfold DocumentationCrawler.andThen.
  destruct (JsOps.truthy a); [done|]. apply net_ret.
Qed.

Ltac crawler_steps :=
  repeat first [ apply net_crawler_prop | apply net_crawler_andThen | net_step ].

Section CrawlerFacts.
Context (env : Env).
Import DocumentationCrawler.

Lemma net_getDocumentationUrl dep : respects netStep (getDocumentationUrl env dep).
Proof. unfold getDocumentationUrl, npmRepositoryUrl. crawler_steps. Qed.

Lemma safe_npmRepositoryUrl n : safe (npmRepositoryUrl env n).
Proof. apply safe_tryCatch. intros e. apply safe_ret. Qed.

Lemma safe_getDocumentationUrl dep : safe (getDocumentationUrl env dep).
Proof.
  unfold getDocumentationUrl. cbv zeta.
  repeat match goal with
         | |- safe (if ?b then _ else _) => destruct b
         end; try apply safe_ret.
  apply safe_bind; [apply safe_npmRepositoryUrl|].
  intros [u|]; apply safe_ret.
Qed.

Lemma net_fetchPage u : respects netStep (fetchPage env u).
Proof. unfold fetchPage. crawler_steps. Qed.

Lemma net_attempts u left attempt : respects netStep (attempts env u left attempt).
Proof.
  revert attempt. induction left as [|left IH]; intros attempt; simpl.
  - apply net_ret.
  - apply net_tryCatch; [crawler_steps; apply net_fetchPage|].
    intros e. crawler_steps. apply IH.
Qed.

Lemma net_fetchBasicDocumentation dep :
  respects netStep (fetchBasicDocumentation env dep).
Proof.
  unfold fetchBasicDocumentation.
  apply net_bind; [apply net_getDocumentationUrl|].
  intros u. destruct (missing u); [apply net_ret|apply net_attempts].
Qed.

Lemma net_crawlWithFirecrawl dep : respects netStep (crawlWithFirecrawl env dep).
Proof.
  unfold crawlWithFirecrawl.
  apply net_bind; [apply net_getDocumentationUrl|].
  intros u. destruct (missing u); [apply net_ret|].
  apply net_tryCatch; [crawler_steps|].
  intros e. apply net_fetchBasicDocumentation.
Qed.

Lemma crawlDocumentation_hit dep w v :
  crawlerCache w !! cacheKey (ecosystem dep) (name dep) (version dep) = Some v ->
  crawlDocumentation env dep w = (Ok v, logEvent (EvCrawlDocumentation dep) w).
Proof.
  intros H. unfold crawlDocumentation, bind, emit, readCache. simpl. by rewrite H.
Qed.

(** The method chosen by [if (this.firecrawlApiKey)]. *)
Lemma crawlDocumentation_miss dep w :
  crawlerCache w !! cacheKey (ecosystem dep) (name dep) (version dep) = None ->
  crawlDocumentation env dep w =
    match (if hasApiKey env then crawlWithFirecrawl env dep
           else fetchBasicDocumentation env dep)
            (logEvent (EvCrawlDocumentation dep) w) with
    | (Ok d, w1) =>
        (Ok d, setCrawlerCache
                 (<[cacheKey (ecosystem dep) (name dep) (version dep) := d]>
                    (crawlerCache w1)) w1)
    | (Throw e, w1) =>
        (Ok (Some (mkDoc None None (Some (clock env (ticks w1))) None None
                         (Some (message e)))),
         tickWorld w1)
    end.
Proof.
  intros H. unfold crawlDocumentation, bind, emit, readCache. simpl. rewrite H.
  unfold tryCatch, bind, cacheSet, ret.
  destruct (hasApiKey env);
    [destruct (crawlWithFirecrawl env dep _) as [[d|e] w1]
    |destruct (fetchBasicDocumentation env dep _) as [[d|e] w1]]; done.
Qed.

Lemma safe_crawlDocumentation dep : safe (crawlDocumentation env dep).
Proof.
  intros w.
  destruct (crawlerCache w !! cacheKey (ecosystem dep) (name dep) (version dep))
    as [v|] eqn:H.
  - rewrite (crawlDocumentation_hit _ _ _ H). by eexists.
  - rewrite (crawlDocumentation_miss _ _ H).
    destruct (hasApiKey env);
      [destruct (crawlWithFirecrawl env dep _) as [[d|e] w1]
      |destruct (fetchBasicDocumentation env dep _) as [[d|e] w1]]; by eexists.
Qed.

Lemma crawlDocumentation_footprint dep w :
  let w' := (crawlDocumentation env dep w).2 in
  database w' = database w
  /\ fetcherCache w' = fetcherCache w
  /\ exists evs, trace w' = trace w ++ EvCrawlDocumentation dep :: evs
                 /\ Forall isNet evs.
Proof.
  simpl.
  destruct (crawlerCache w !! cacheKey (ecosystem dep) (name dep) (version dep))
    as [v|] eqn:H.
  - rewrite (crawlDocumentation_hit _ _ _ H). simpl.
    repeat split. exists []. by split.
  - rewrite (crawlDocumentation_miss _ _ H).
    assert (respects netStep (if hasApiKey env then crawlWithFirecrawl env dep
                              else fetchBasicDocumentation env dep)) as Hn.
    { destruct (hasApiKey env);
        [apply net_crawlWithFirecrawl|apply net_fetchBasicDocumentation]. }
    destruct (Hn (logEvent (EvCrawlDocumentation dep) w)) as [D F C T (evs & E & P)].
    destruct (hasApiKey env);
      [destruct (crawlWithFirecrawl env dep _) as [[d|e] w1]
      |destruct (fetchBasicDocumentation env dep _) as [[d|e] w1]]; simpl in *;
      (repeat split; [done|done|]); exists evs;
      rewrite E, <- app_assoc; done.
Qed.

Lemma frame_crawlDocumentation dep : respects frameStep (crawlDocumentation env dep).
Proof.
  intros w. destruct (crawlDocumentation_footprint dep w) as (D & _ & evs & E & _).
  split; [done|]. by eexists.
Qed.

Lemma call_crawlDocumentation dep :
  DocumentationMapper.isWorkspace (version dep) = false ->
  respects callStep (crawlDocumentation env dep).
Proof.
  intros Hw w. destruct (crawlDocumentation_footprint dep w) as (_ & _ & evs & E & P).
  split. eexists. split; [exact E|].
  constructor; [done|]. eapply Forall_impl; [exact P|apply isNet_notWorkspaceCall].
Qed.
End CrawlerFacts.

Section RetryLoop.
Context (env : Env).
Import DocumentationCrawler.

(** One attempt, by the answer it gets. *)
Lemma fetchPage_run u w :
  let w1 := tickWorld (logEvent (EvHttp (Get u 10000)) w) in
  match http env (ticks w) (Get u 10000) with
  | Response (JStr html) =>
      fetchPage env u w = (Ok (pageDoc u (clock env (ticks w1)) html), tickWorld w1)
  | Response d =>
      exists e, extractTextFromHTML d = Throw e /\ status e = None
                /\ fetchPage env u w = (Throw e, w1)
  | Rejected e => fetchPage env u w = (Throw e, w1)
  end.
Proof.
  simpl. unfold fetchPage, bind, axios.
  destruct (http env (ticks w) (Get u 10000)) as [d|e]; [|done].
  destruct d; simpl; try done; by eexists.
Qed.

Lemma attempts_run u left : forall attempt w,
  (1 <= left)%nat -> attempt = 4 - Z.of_nat left ->
  exists n doc w',
    attempts env u left attempt w = (Ok (Some doc), w')
    /\ (1 <= n <= left)%nat
    /\ trace w' = trace w ++ pageSchedule u n attempt
    /\ (forall k, (k + 1 < n)%nat ->
          forbidden (http env (ticks w + k) (Get u 10000)) = true)
    /\ (n < left -> forbidden (http env (ticks w + (n - 1)) (Get u 10000)) = false)%nat
    /\ pageOutcome u (clock env (ticks w + n))
                   (http env (ticks w + (n - 1)) (Get u 10000)) doc.
Proof.
  induction left as [|left IH]; intros attempt w Hl Ha; [lia|].
  pose proof (fetchPage_run u w) as Hp. simpl in Hp.
  simpl attempts. unfold tryCatch, bind.
  destruct (http env (ticks w) (Get u 10000)) as [d|e] eqn:Hans.
  - (* a response *)
    assert ((exists html, d = JStr html) \/
            (exists e, extractTextFromHTML d = Throw e /\ status e = None
                       /\ fetchPage env u w
                          = (Throw e, tickWorld (logEvent (EvHttp (Get u 10000)) w))
                       /\ pageOutcome u (clock env (S (ticks w))) (Response d)
                            (errorDoc u (clock env (S (ticks w))) (message e))))
      as [[html ->]|(e & He & Hs & Hf & Ho)].
    { destruct d; try (right; destruct Hp as (e & He & Hs & Hf);
                        exists e; repeat split; try done; by exists e).
      left. by eexists. }
    + rewrite Hp. simpl.
      exists 1%nat. eexists. eexists. split; [done|].
      replace (ticks w + (1 - 1))%nat with (ticks w) by lia.
      replace (ticks w + 1)%nat with (S (ticks w)) by lia.
      rewrite Hans. simpl.
      split_and!; try done; try lia; intros; lia.
    + rewrite Hf. simpl. rewrite Hs. simpl.
      exists 1%nat. eexists. eexists. split; [done|].
      replace (ticks w + (1 - 1))%nat with (ticks w) by lia.
      replace (ticks w + 1)%nat with (S (ticks w)) by lia.
      rewrite Hans.
      split_and!; try done; try lia; intros; lia.
  - (* a rejection *)
    rewrite Hp. simpl.
    destruct (bool_decide (status e = Some 403) && (attempt <? 3)) eqn:Hretry.
    + apply andb_true_iff in Hretry as [H403 Hlt]. apply Z.ltb_lt in Hlt.
      destruct (IH (attempt + 1)
                  (logEvent (EvDelay (inject_Z (attempt * 2000)))
                     (tickWorld (logEvent (EvHttp (Get u 10000)) w))))
        as (n & doc & w' & Hrun & Hn & Htr & Hall & Hlast & Hout); [lia|lia|].
      exists (S n), doc, w'. simpl in *.
      unfold delay, emit, bind. simpl.
      split; [exact Hrun|]. split; [lia|]. split.
      { rewrite Htr. destruct n as [|n]; [lia|]. simpl.
        rewrite <- !app_assoc. done. }
      split.
      { intros [|k] Hk.
        - replace (ticks w + 0)%nat with (ticks w) by lia.
          rewrite Hans. exact H403.
        - replace (ticks w + S k)%nat with (S (ticks w + k)) by lia.
          apply Hall. lia. }
      split.
      { intros Hlt'. replace (ticks w + (n - 0))%nat with (S (ticks w + (n - 1))) by lia.
        apply Hlast. lia. }
      replace (ticks w + S n)%nat with (S (ticks w + n)) by lia.
      replace (ticks w + (n - 0))%nat with (S (ticks w + (n - 1))) by lia.
      exact Hout.
    + exists 1%nat. eexists. eexists. split; [done|].
      replace (ticks w + (1 - 1))%nat with (ticks w) by lia.
      replace (ticks w + 1)%nat with (S (ticks w)) by lia.
      rewrite Hans. simpl.
      split_and!; try done; try lia; try (intros; lia).
      intros Hlt. apply andb_false_iff in Hretry as [H|H]; [done|].
      apply Z.ltb_ge in H. lia.
Qed.
End RetryLoop.

(** ** Strings *)

Section StringFacts.
Import Js.

Lemma length_take n s : (String.length (take n s) <= n)%nat.
Proof.
  revert s. induction n as [|n IH]; intros [|c r]; simpl; try lia.
  specialize (IH r). lia.
Qed.

Lemma app_String c s t : String c s +:+ t = String c (s +:+ t).
Proof. reflexivity. Qed.

Lemma app_empty t : "" +:+ t = t.
Proof. reflexivity. Qed.

Lemma take_drop n s : take n s +:+ drop n s = s.
Proof.
  revert s. induction n as [|n IH]; intros [|c r]; simpl; try done.
  by rewrite app_String, IH.
Qed.

Lemma drop_nil n : drop n "" = "".
Proof. by destruct n. Qed.

Lemma length_drop n s : String.length (drop n s) = (String.length s - n)%nat.
Proof.
  revert s. induction n as [|n IH]; intros [|c r]; simpl; done.
Qed.

Lemma dropWhileEnd_prefix p s : exists q, s = dropWhileEnd p s +:+ q.
Proof.
  induction s as [|c r [q IH]]; simpl.
  - by exists "".
  - destruct (p c && allChars p r).
    + by exists (String c r).
    + exists q. by rewrite app_String, <- IH.
Qed.

Lemma dropWhile_spanLength p s : dropWhile p s = drop (spanLength p s) s.
Proof.
  induction s as [|c r IH]; simpl; [done|].
  by destruct (p c).
Qed.

Lemma spanLength_le p s : (spanLength p s <= String.length s)%nat.
Proof.
  induction s as [|c r IH]; simpl; [lia|]. destruct (p c); lia.
Qed.

Lemma headNonSpace_dropWhile s : headNonSpace (dropWhile isSpace s) = true.
Proof.
  induction s as [|c r IH]; simpl; [done|].
  destruct (isSpace c) eqn:Hc; [done|]. simpl. by rewrite Hc.
Qed.

Lemma indexOf_gt_cons c r :
  indexOf ">" (String c r)
  = if Ascii.eqb ">" c then Some O else option_map S (indexOf ">" r).
Proof.
  simpl. destruct r; by rewrite andb_true_r.
Qed.

Lemma indexOf_gt_length s i :
  indexOf ">" s = Some i -> (i < String.length s)%nat.
Proof.
  revert i. induction s as [|c r IH]; intros i.
  - simpl. done.
  - rewrite indexOf_gt_cons. destruct (Ascii.eqb ">" c).
    + intros [= <-]. simpl. lia.
    + destruct (indexOf ">" r) as [j|]; [|done].
      intros [= <-]. specialize (IH j eq_refl). simpl. lia.
Qed.

Lemma indexOf_gt_app s q i :
  indexOf ">" s = Some i -> indexOf ">" (s +:+ q) = Some i.
Proof.
  revert i. induction s as [|c r IH]; intros i.
  - simpl. done.
  - rewrite app_String, !indexOf_gt_cons. destruct (Ascii.eqb ">" c); [done|].
    destruct (indexOf ">" r) as [j|]; [|done].
    intros [= <-]. by rewrite (IH j eq_refl).
Qed.

(** *** Global replacement *)

Section ReplaceAll.
Context (m : string -> option nat) (repl : string) (Hm : bounded m).

Lemma replaceAllFrom_skip k s :
  replaceAllFrom m repl k s = replaceAll m repl (drop k s).
Proof.
  revert k. induction s as [|c r IH]; intros [|k]; try done.
  - unfold replaceAll. simpl.
    destruct (m "") as [[|n]|] eqn:H; try done.
    apply Hm in H. simpl in H. lia.
  - simpl. apply IH.
Qed.

Lemma replaceAll_nil : replaceAll m repl "" = "".
Proof.
  unfold replaceAll. simpl.
  destruct (m "") as [[|n]|] eqn:H; try done.
  apply Hm in H. simpl in H. lia.
Qed.

Lemma replaceAll_match s k :
  m s = Some (S k) ->
  replaceAll m repl s = repl +:+ replaceAll m repl (drop (S k) s).
Proof.
  intros H. unfold replaceAll at 1.
  destruct s as [|c r]; simpl; rewrite H.
  - apply Hm in H. simpl in H. lia.
  - by rewrite replaceAllFrom_skip.
Qed.

Lemma replaceAll_copy c r :
  m (String c r) = None \/ m (String c r) = Some O ->
  replaceAll m repl (String c r) = String c (replaceAll m repl r).
Proof. intros [H|H]; unfold replaceAll; simpl; by rewrite H. Qed.

(** Induction along the scan. *)
Lemma replaceAll_scan (P : string -> string -> Prop) :
  P "" "" ->
  (forall s k, m s = Some (S k) ->
               P (drop (S k) s) (replaceAll m repl (drop (S k) s)) ->
               P s (repl +:+ replaceAll m repl (drop (S k) s))) ->
  (forall c r, m (String c r) = None \/ m (String c r) = Some O ->
               P r (replaceAll m repl r) ->
               P (String c r) (String c (replaceAll m repl r))) ->
  forall s, P s (replaceAll m repl s).
Proof.
  intros Hnil Hmatch Hcopy s.
  remember (String.length s) as n eqn:Hn.
  revert s Hn. induction (lt_wf n) as [n _ IH]. intros s ->.
  destruct s as [|c r].
  - by rewrite replaceAll_nil.
  - destruct (m (String c r)) as [[|k]|] eqn:H.
    + rewrite replaceAll_copy by auto. apply Hcopy; [auto|].
      eapply IH; [|done]. simpl. lia.
    + rewrite (replaceAll_match _ _ H). apply Hmatch; [done|].
      eapply IH; [|done]. rewrite length_drop. simpl. lia.
    + rewrite replaceAll_copy by auto. apply Hcopy; [auto|].
      eapply IH; [|done]. simpl. lia.
Qed.
End ReplaceAll.
End StringFacts.

(** ** extractTextFromHTML *)

Section MarkupFacts.
Import Js DocumentationCrawler.

Lemma bounded_matchTag : bounded matchTag.
Proof.
  intros [|c r] n; simpl; [done|].
  destruct (Ascii.eqb c "<"); [|done].
  destruct (indexOf ">" r) as [[|j]|] eqn:H; try done.
  intros [= <-]. apply indexOf_gt_length in H. lia.
Qed.

Lemma bounded_matchSpaces : bounded matchSpaces.
Proof.
  intros s n. unfold matchSpaces.
  pose proof (spanLength_le isSpace s).
  destruct (spanLength isSpace s); [done|]. intros [= <-]. lia.
Qed.

(** [matchTag] fails at a [<] exactly when a [>] follows at once or
    never. *)
Lemma matchTag_None c r :
  matchTag (String c r) = None <->
  Ascii.eqb c "<" = false \/ indexOf ">" r = None \/ indexOf ">" r = Some O.
Proof.
  simpl. destruct (Ascii.eqb c "<"); [|by intuition].
  destruct (indexOf ">" r) as [[|j]|]; intuition congruence.
Qed.

Lemma matchTag_not_zero s : matchTag s <> Some O.
Proof.
  destruct s as [|c r]; simpl; [done|].
  destruct (Ascii.eqb c "<"); [|done].
  by destruct (indexOf ">" r) as [[|j]|].
Qed.

Lemma tagFree_cons c r :
  tagFree (String c r) = true <-> matchTag (String c r) = None /\ tagFree r = true.
Proof.
  change (tagFree (String c r))
    with (match matchTag (String c r) with Some _ => false | None => tagFree r end).
  destruct (matchTag (String c r)); intuition congruence.
Qed.

Lemma tagFree_drop n s : tagFree s = true -> tagFree (drop n s) = true.
Proof.
  revert s. induction n as [|n IH]; intros [|c r]; try done.
  intros [_ H]%tagFree_cons. by apply IH.
Qed.

Lemma tagFree_prefix p q : tagFree (p +:+ q) = true -> tagFree p = true.
Proof.
  induction p as [|c r IH]; [done|].
  rewrite app_String. intros [Hm H]%tagFree_cons.
  apply tagFree_cons. split; [|by apply IH].
  apply matchTag_None. apply matchTag_None in Hm as [Hm|[Hm|Hm]]; [by left|..].
  - right. destruct (indexOf ">" r) as [i|] eqn:Hi; [|by left].
    by rewrite (indexOf_gt_app _ q _ Hi) in Hm.
  - right. destruct (indexOf ">" r) as [i|] eqn:Hi; [|by left].
    rewrite (indexOf_gt_app _ q _ Hi) in Hm. by right.
Qed.

Lemma collapsed_cons c r :
  collapsed (String c r) = true ->
  collapsed r = true.
Proof. simpl. by intros [_ H]%andb_true_iff. Qed.

Lemma collapsed_drop n s : collapsed s = true -> collapsed (drop n s) = true.
Proof.
  revert s. induction n as [|n IH]; intros [|c r]; try done.
  intros H%collapsed_cons. by apply IH.
Qed.

Lemma collapsed_prefix p q : collapsed (p +:+ q) = true -> collapsed p = true.
Proof.
  induction p as [|c r IH]; [done|].
  rewrite app_String. simpl. intros [H1 H2]%andb_true_iff.
  apply andb_true_iff. split; [|by apply IH].
  destruct (isSpace c); [|done].
  destruct r as [|d r]; [|done].
  apply andb_true_iff in H1 as [H1 _]. by rewrite H1.
Qed.

(** The scan that replaces tags leaves no tag behind. *)
Lemma strip_tags_spec s :
  let t := replaceAll matchTag " " s in
  tagFree t = true
  /\ (indexOf ">" s = None -> indexOf ">" t = None)
  /\ (indexOf ">" s = Some O -> indexOf ">" t = Some O).
Proof.
  apply (replaceAll_scan matchTag " " bounded_matchTag
           (fun s t => tagFree t = true
                       /\ (indexOf ">" s = None -> indexOf ">" t = None)
                       /\ (indexOf ">" s = Some O -> indexOf ">" t = Some O))).
  - done.
  - intros s' k Hm (IH1 & IH2 & IH3).
    destruct s' as [|c r]; [done|]. simpl in Hm.
    destruct (Ascii.eqb c "<") eqn:Hc; [|done].
    apply Ascii.eqb_eq in Hc as ->.
    destruct (indexOf ">" r) as [[|j]|] eqn:Hi; try done.
    split_and!.
    + change (" " +:+ ?x) with (String " " x). apply tagFree_cons. split; [|done].
      apply matchTag_None. by left.
    + rewrite indexOf_gt_cons. simpl. by rewrite Hi.
    + rewrite indexOf_gt_cons. simpl. by rewrite Hi.
  - intros c r Hm (IH1 & IH2 & IH3).
    destruct Hm as [Hm|Hm]; [|by apply matchTag_not_zero in Hm].
    split_and!.
    + apply tagFree_cons. split; [|done].
      apply matchTag_None. apply matchTag_None in Hm as [Hm|[Hm|Hm]]; auto.
    + rewrite !indexOf_gt_cons. destruct (Ascii.eqb ">" c); [done|].
      destruct (indexOf ">" r); [done|]. by rewrite IH2.
    + rewrite !indexOf_gt_cons. destruct (Ascii.eqb ">" c); [done|].
      by destruct (indexOf ">" r).
Qed.

Lemma matchSpaces_cons c r :
  matchSpaces (String c r)
  = if isSpace c then Some (S (spanLength isSpace r)) else None.
Proof. unfold matchSpaces. simpl. by destruct (isSpace c). Qed.

Lemma isSpace_gt : isSpace ">" = false.
Proof. reflexivity. Qed.

Lemma isSpace_lt : isSpace "<" = false.
Proof. reflexivity. Qed.

(** The scan that collapses whitespace leaves single spaces, and keeps a
    text free of tags free of tags. *)
Lemma collapse_spaces_spec s :
  let t := replaceAll matchSpaces " " s in
  collapsed t = true
  /\ (headNonSpace s = true -> headNonSpace t = true)
  /\ (tagFree s = true -> tagFree t = true)
  /\ (indexOf ">" s = None -> indexOf ">" t = None)
  /\ (indexOf ">" s = Some O -> indexOf ">" t = Some O).
Proof.
  apply (replaceAll_scan matchSpaces " " bounded_matchSpaces
           (fun s t => collapsed t = true
                       /\ (headNonSpace s = true -> headNonSpace t = true)
                       /\ (tagFree s = true -> tagFree t = true)
                       /\ (indexOf ">" s = None -> indexOf ">" t = None)
                       /\ (indexOf ">" s = Some O -> indexOf ">" t = Some O))).
  - done.
  - intros s' k Hm (IH1 & IH2 & IH3 & IH4 & IH5).
    destruct s' as [|c r]; [done|]. rewrite matchSpaces_cons in Hm.
    destruct (isSpace c) eqn:Hc; [|done]. injection Hm as <-.
    assert (drop (S (spanLength isSpace r)) (String c r) = dropWhile isSpace r) as Hd.
    { simpl. by rewrite dropWhile_spanLength. }
    rewrite Hd in *.
    change (" " +:+ ?x) with (String " " x).
    split_and!.
    + simpl. rewrite IH1, andb_true_r.
      specialize (IH2 (headNonSpace_dropWhile r)).
      by destruct (replaceAll matchSpaces " " (dropWhile isSpace r)).
    + simpl. by rewrite Hc.
    + intros Ht. apply tagFree_cons. split.
      * apply matchTag_None. by left.
      * apply IH3. rewrite dropWhile_spanLength.
        apply tagFree_drop. by apply tagFree_cons in Ht as [_ Ht].
    + rewrite (indexOf_gt_cons c), (indexOf_gt_cons " ").
      change (Ascii.eqb ">" " ") with false. cbv iota.
      destruct (Ascii.eqb ">" c); [done|].
      destruct (indexOf ">" r) eqn:Hi; [done|]. intros _.
      rewrite IH4; [done|].
      rewrite dropWhile_spanLength.
      clear -Hi. revert Hi. generalize (spanLength isSpace r) as n.
      intros n. revert r. induction n as [|n IHn]; intros [|d r]; try done.
      rewrite indexOf_gt_cons. destruct (Ascii.eqb ">" d); [done|].
      destruct (indexOf ">" r) eqn:Hr; [done|]. intros _. by apply IHn.
    + rewrite indexOf_gt_cons. destruct (Ascii.eqb ">" c) eqn:Hg.
      * apply Ascii.eqb_eq in Hg as <-. by rewrite isSpace_gt in Hc.
      * by destruct (indexOf ">" r).
  - intros c r Hm (IH1 & IH2 & IH3 & IH4 & IH5).
    rewrite matchSpaces_cons in Hm.
    destruct (isSpace c) eqn:Hc; [by destruct Hm|].
    split_and!.
    + simpl. by rewrite Hc.
    + done.
    + intros [Ht1 Ht2]%tagFree_cons. apply tagFree_cons. split; [|auto].
      apply matchTag_None. apply matchTag_None in Ht1 as [?|[?|?]]; auto.
    + rewrite !indexOf_gt_cons. destruct (Ascii.eqb ">" c); [done|].
      destruct (indexOf ">" r); [done|]. by rewrite IH4.
    + rewrite !indexOf_gt_cons. destruct (Ascii.eqb ">" c); [done|].
      by destruct (indexOf ">" r).
Qed.

(** What [extractTextFromHTML] and the cut at 5000 guarantee of the
    stored content. *)
Lemma stripMarkup_spec html n :
  let content := substring0 n (stripMarkup html) in
  (String.length content <= n)%nat
  /\ tagFree content = true
  /\ collapsed content = true.
Proof.
  simpl. split; [apply length_take|].
  unfold substring0, stripMarkup, trim.
  set (a := replaceAll (matchBlock "style") "" (replaceAll (matchBlock "script") "" html)).
  destruct (strip_tags_spec a) as (Ha & _).
  destruct (collapse_spaces_spec (replaceAll matchTag " " a)) as (Hc & _ & Ht & _).
  specialize (Ht Ha).
  set (b := replaceAll matchSpaces " " (replaceAll matchTag " " a)) in *.
  assert (tagFree (dropWhile isSpace b) = true /\ collapsed (dropWhile isSpace b) = true)
    as [Ht1 Hc1].
  { rewrite dropWhile_spanLength. split; [by apply tagFree_drop|by apply collapsed_drop]. }
  destruct (dropWhileEnd_prefix isSpace (dropWhile isSpace b)) as [q Hq].
  rewrite Hq in Ht1, Hc1.
  apply tagFree_prefix in Ht1. apply collapsed_prefix in Hc1.
  rewrite <- (take_drop n (dropWhileEnd isSpace (dropWhile isSpace b))) in Ht1, Hc1.
  split; [by apply tagFree_prefix in Ht1|by apply collapsed_prefix in Hc1].
Qed.
End MarkupFacts.

(** ** The raw fetch *)

Section RawFetch.
Context (env : Env).
Import DocumentationCrawler.

Lemma fetchBasicDocumentation_run dep w u w1 :
  getDocumentationUrl env dep w = (Ok (Some u), w1) -> u <> "" ->
  fetchBasicDocumentation env dep w = attempts env u 3 1 w1.
Proof.
  intros Hu Hne. unfold fetchBasicDocumentation, bind. rewrite Hu. simpl.
  by apply String.eqb_neq in Hne as ->.
Qed.

(** C2. In the raw-HTML crawl path the page is requested [n] times with
    [1 <= n <= 3]; the trace of the loop is exactly request, pause of
    [attempt * 2000] ms, request, ...; each request but the last was
    answered with status 403, so a request that fails in any other way is
    the last one, and a first request that is not answered with 403 is the
    only one, with no pause; the record returned for a failed last attempt
    is the error note. *)
Theorem raw_fetch_retries_on_403_only dep w u w1 :
  getDocumentationUrl env dep w = (Ok (Some u), w1) -> u <> "" ->
  exists n doc w',
    fetchBasicDocumentation env dep w = (Ok (Some doc), w')
    /\ (1 <= n <= 3)%nat
    /\ trace w' = trace w1 ++ pageSchedule u n 1
    /\ (forall k, (k + 1 < n)%nat ->
          forbidden (http env (ticks w1 + k) (Get u 10000)) = true)
    /\ (n < 3 -> forbidden (http env (ticks w1 + (n - 1)) (Get u 10000)) = false)%nat
    /\ (forbidden (http env (ticks w1) (Get u 10000)) = false ->
          n = 1%nat /\ trace w' = trace w1 ++ [EvHttp (Get u 10000)])
    /\ pageOutcome u (clock env (ticks w1 + n))
                   (http env (ticks w1 + (n - 1)) (Get u 10000)) doc.
Proof.
  intros Hu Hne. rewrite (fetchBasicDocumentation_run _ _ _ _ Hu Hne).
  destruct (attempts_run env u 3 1 w1) as (n & doc & w' & Hrun & Hn & Htr & Hall & Hlast & Hout);
    [lia|lia|].
  exists n, doc, w'. split_and!; try done; try lia.
  intros H0.
  assert (n = 1%nat) as ->.
  { destruct n as [|[|n]]; [lia|done|].
    specialize (Hall O ltac:(lia)). rewrite Nat.add_0_r in Hall. congruence. }
  done.
Qed.

End RawFetch.

Lemma raw_fetch_retries_sample :
  DocumentationCrawler.getDocumentationUrl (Sample.forbiddenUntil 1) Sample.requests
    Sample.emptyWorld
  = (Ok (Some "https://pypi.org/project/requests/2.31.0/"), Sample.emptyWorld)
  /\ exists n doc w',
       DocumentationCrawler.fetchBasicDocumentation (Sample.forbiddenUntil 1)
         Sample.requests Sample.emptyWorld = (Ok (Some doc), w')
       /\ (1 <= n <= 3)%nat
       /\ trace w' = pageSchedule "https://pypi.org/project/requests/2.31.0/" n 1.
Proof.
  split; [reflexivity|].
  destruct (raw_fetch_retries_on_403_only (Sample.forbiddenUntil 1) Sample.requests
              Sample.emptyWorld "https://pypi.org/project/requests/2.31.0/"
              Sample.emptyWorld eq_refl ltac:(discriminate))
    as (n & doc & w' & H1 & H2 & H3 & _).
  exists n, doc, w'. split; [exact H1|]. split; [exact H2|exact H3].
Defined.

(** ** Database *)

Section DatabaseFacts.
Context (env : Env).
Import Database.

Lemma statement_Ok {A} (run : DbState -> A * DbState) w a w' :
  statement env run w = (Ok a, w') ->
  dbFault env (ticks w) = None
  /\ a = (run (database w)).1
  /\ w' = setDatabase (run (database w)).2 (tickWorld w).
Proof.
  unfold statement. destruct (dbFault env (ticks w)); [done|].
  destruct (run (database w)) as [a' d]. by intros [= <- <-].
Qed.

Lemma statement_Throw {A} (run : DbState -> A * DbState) w e w' :
  statement env run w = (Throw e, w') ->
  exists msg, dbFault env (ticks w) = Some msg /\ w' = tickWorld w.
Proof.
  unfold statement. destruct (dbFault env (ticks w)) as [msg|].
  - intros [= <- <-]. by exists msg.
  - by destruct (run (database w)).
Qed.

Lemma statement_run {A} (run : DbState -> A * DbState) w :
  dbFault env (ticks w) = None ->
  statement env run w
  = (Ok (run (database w)).1, setDatabase (run (database w)).2 (tickWorld w)).
Proof. unfold statement. intros ->. by destruct (run (database w)). Qed.

Lemma getPackageDocumentation_statement n v e :
  getPackageDocumentation env n v e
  = statement env (fun d => (selectOne n v e d, d)).
Proof.
  unfold getPackageDocumentation, getPackageDocumentationSQLite,
    getPackageDocumentationMongoDB.
  by destruct (dbType env).
Qed.

Lemma queryPackages_statement f :
  queryPackages env f = statement env (fun d => (selectAll f d, d)).
Proof.
  unfold queryPackages, queryPackagesSQLite, queryPackagesMongoDB.
  by destruct (dbType env).
Qed.

Lemma storePackage_statement p :
  exists run, storePackage env p = statement env run.
Proof.
  unfold storePackage, storePackageSQLite, storePackageMongoDB.
  destruct (dbType env); by eexists.
Qed.

Lemma sameKey_rowOf id p :
  sameKey (pkg_ecosystem p) (pkg_name p) (pkg_version p) (rowOf id p) = true.
Proof. unfold sameKey. simpl. by rewrite !String.eqb_refl. Qed.

Lemma sameKey_eq e n v r :
  sameKey e n v r = true <->
  row_ecosystem r = e /\ row_name r = n /\ row_version r = v.
Proof.
  unfold sameKey. rewrite !andb_true_iff, !String.eqb_eq. intuition.
Qed.

Lemma filter_key_removed key (l : list Row) :
  List.filter key (List.filter (fun r => negb (key r)) l) = [].
Proof.
  induction l as [|r l IH]; simpl; [done|].
  destruct (key r) eqn:H; simpl; [done|]. by rewrite H.
Qed.

Lemma find_key_removed key (l : list Row) (r : Row) :
  key r = true ->
  List.find key (List.filter (fun r => negb (key r)) l ++ [r]) = Some r.
Proof.
  intros Hr. induction l as [|x l IH]; simpl; [by rewrite Hr|].
  destruct (key x) eqn:H; simpl; [done|]. by rewrite H.
Qed.

(** What one [INSERT OR REPLACE] leaves for its key. *)
Lemma insertOrReplace_key p d :
  let d' := (insertOrReplace p d).2 in
  let id := (insertOrReplace p d).1 in
  let key := sameKey (pkg_ecosystem p) (pkg_name p) (pkg_version p) in
  List.filter key (rows d') = [rowOf id p]
  /\ selectOne (pkg_name p) (pkg_version p) (pkg_ecosystem p) d' = Some (rowOf id p).
Proof.
  simpl. split.
  - rewrite List.filter_app, filter_key_removed. simpl.
    by rewrite sameKey_rowOf.
  - unfold selectOne. simpl. apply find_key_removed, sameKey_rowOf.
Qed.

Lemma selectAll_In f d r :
  In r (selectAll f d) <-> In r (rows d) /\ matches f r = true.
Proof.
  unfold selectAll. rewrite <- List.filter_In.
  rewrite <- !list_elem_of_In.
  by rewrite (merge_sort_Permutation rowLe).
Qed.

(** C4. With the SQLite backend [storePackage] is an upsert on (ecosystem,
    name, version): after two successful stores of the same triple the table
    holds exactly one row for it, the row of the second store (the row of
    the first store is gone); the key lookup returns that row, every row a
    query returns for the triple carries the second description, and a query
    returns it whenever its filters admit it. *)
Theorem store_package_is_upsert p1 p2 w i1 w1 i2 w2 :
  dbType env = SQLite ->
  storePackage env p1 w = (Ok (RunResult i1), w1) ->
  storePackage env p2 w1 = (Ok (RunResult i2), w2) ->
  pkg_ecosystem p1 = pkg_ecosystem p2 ->
  pkg_name p1 = pkg_name p2 ->
  pkg_version p1 = pkg_version p2 ->
  let key := sameKey (pkg_ecosystem p2) (pkg_name p2) (pkg_version p2) in
  List.filter key (rows (database w2)) = [rowOf i2 p2]
  /\ ~ In (rowOf i1 p1) (rows (database w2))
  /\ row_description (rowOf i2 p2) = pkg_description p2
  /\ selectOne (pkg_name p2) (pkg_version p2) (pkg_ecosystem p2) (database w2)
     = Some (rowOf i2 p2)
  /\ (forall f r, In r (selectAll f (database w2)) -> key r = true ->
                  r = rowOf i2 p2 /\ row_description r = pkg_description p2)
  /\ (forall f, matches f (rowOf i2 p2) = true ->
                In (rowOf i2 p2) (selectAll f (database w2))).
Proof.
  intros Ht H1 H2 He Hn Hv key.
  unfold storePackage in H1, H2. rewrite Ht in H1, H2.
  unfold storePackageSQLite in H1, H2.
  apply statement_Ok in H1 as (_ & E1 & ->).
  apply statement_Ok in H2 as (_ & E2 & ->).
  simpl in E1, E2. injection E1 as ->. injection E2 as ->. simpl database.
  set (d1 := mkDb (List.filter
                     (fun r => negb (sameKey (pkg_ecosystem p1) (pkg_name p1)
                                             (pkg_version p1) r))
                     (rows (database w))
                   ++ [rowOf (lastId (database w) + 1) p1])
                  (lastId (database w) + 1)).
  destruct (insertOrReplace_key p2 d1) as [Hf Hs].
  change (insertOrReplace p2 d1).1 with (lastId (database w) + 1 + 1) in *.
  set (d2 := (insertOrReplace p2 d1).2) in *.
  assert (forall r, In r (rows d2) -> key r = true ->
                    r = rowOf (lastId (database w) + 1 + 1) p2) as Hone.
  { intros r Hr Hk.
    assert (In r (List.filter key (rows d2))) as Hin by (by apply List.filter_In).
    unfold key in Hin. rewrite Hf in Hin. by destruct Hin as [<-|[]]. }
  split_and!; try done.
  - intros Hin. apply Hone in Hin.
    + apply (f_equal row_id) in Hin. simpl in Hin. lia.
    + unfold key. rewrite <- He, <- Hn, <- Hv. apply sameKey_rowOf.
  - intros f r [Hr _]%selectAll_In Hk.
    by rewrite (Hone r Hr Hk).
  - intros f Hm. apply selectAll_In. split; [|done].
    assert (In (rowOf (lastId (database w) + 1 + 1) p2) (List.filter key (rows d2)))
      as Hin by (unfold key; rewrite Hf; by left).
    by apply List.filter_In in Hin as [Hin _].
Qed.
End DatabaseFacts.

Lemma store_package_is_upsert_sample :
  let env := Sample.constant (Response JNull) in
  let p1 := Sample.pkg "npm" "lodash" "4.17.21" "first" in
  let p2 := Sample.pkg "npm" "lodash" "4.17.21" "second" in
  exists w1 w2,
    Database.storePackage env p1 Sample.emptyWorld = (Ok (RunResult 1), w1)
    /\ Database.storePackage env p2 w1 = (Ok (RunResult 2), w2)
    /\ List.filter (Database.sameKey "npm" "lodash" "4.17.21") (rows (database w2))
       = [Database.rowOf 2 p2]
    /\ Database.selectOne "lodash" "4.17.21" "npm" (database w2)
       = Some (Database.rowOf 2 p2).
Proof.
  intros env p1 p2. eexists. eexists.
  split; [reflexivity|]. split; [reflexivity|].
  destruct (store_package_is_upsert env p1 p2 Sample.emptyWorld 1 _ 2 _
              eq_refl eq_refl eq_refl eq_refl eq_refl eq_refl) as (H1 & _ & _ & H2 & _).
  split; [exact H1|exact H2].
Defined.

Section MongoFacts.
Import Database.

Lemma updateFirst_spec key p rs :
  match updateFirst key p rs with
  | Some rs' =>
      exists pre r post,
        rs = pre ++ r :: post /\ key r = true /\ List.filter key pre = []
        /\ rs' = pre ++ documentOf (row_id r) p :: post
  | None => List.filter key rs = []
  end.
Proof.
  induction rs as [|r rest IH]; simpl; [done|].
  destruct (key r) eqn:Hk.
  - by exists [], r, rest.
  - destruct (updateFirst key p rest) as [rs'|]; simpl; [|done].
    destruct IH as (pre & r' & post & -> & Hr & Hpre & ->).
    exists (r :: pre), r', post. simpl. by rewrite Hk.
Qed.

(** With the MongoDB backend too a store leaves one document for its key,
    as long as the unique index held before. *)
Lemma updateOneUpsert_key p d :
  let key := sameKey (pkg_ecosystem p) (pkg_name p) (pkg_version p) in
  (length (List.filter key (rows d)) <= 1)%nat ->
  exists id,
    List.filter key (rows (updateOneUpsert p d).2) = [documentOf id p].
Proof.
  intros key Hu. unfold updateOneUpsert. fold key.
  pose proof (updateFirst_spec key p (rows d)) as H.
  assert (key (documentOf (lastId d + 1) p) = true) as Hnew.
  { unfold key, sameKey. simpl. by rewrite !String.eqb_refl. }
  destruct (updateFirst key p (rows d)) as [rs'|]; simpl.
  - destruct H as (pre & r & post & E & Hr & Hpre & ->).
    exists (row_id r).
    rewrite E, List.filter_app, Hpre in Hu. simpl in Hu. rewrite Hr in Hu.
    simpl in Hu. assert (List.filter key post = []) as Hpost.
    { destruct (List.filter key post); [done|simpl in Hu; lia]. }
    rewrite List.filter_app, Hpre. simpl.
    assert (key (documentOf (row_id r) p) = true) as ->.
    { unfold key, sameKey. simpl. by rewrite !String.eqb_refl. }
    by rewrite Hpost.
  - exists (lastId d + 1). rewrite List.filter_app, H. simpl. by rewrite Hnew.
Qed.
End MongoFacts.

Section QueryFacts.
Context (env : Env).
Import Database.

Lemma compare_refl_not (s : string) c : String.compare s s = c -> c = Eq.
Proof.
  intros H. pose proof (String.compare_antisym s s) as Ha.
  rewrite H in Ha. by destruct c.
Qed.

(** [ORDER BY name, version]: by name, and by version among equal names. *)
Lemma rowLe_spec a b :
  rowLe a b <->
  String.ltb (row_name a) (row_name b) = true
  \/ (row_name a = row_name b
      /\ String.leb (row_version a) (row_version b) = true).
Proof.
  unfold rowLe, rowLeb, String.ltb.
  destruct (String.compare (row_name a) (row_name b)) eqn:Hc.
  - apply String.compare_eq_iff in Hc. intuition congruence.
  - intuition.
  - split; [done|]. intros [?|[Heq _]]; [done|].
    rewrite Heq in Hc. by apply compare_refl_not in Hc.
Qed.

Lemma ltb_le s t : String.ltb s t = true <-> String.le s t /\ s <> t.
Proof.
  unfold String.ltb, String.le, String.leb.
  destruct (String.compare s t) eqn:Hc.
  - apply String.compare_eq_iff in Hc. intuition congruence.
  - split; [|done]. intros _. split; [done|]. intros ->.
    by apply compare_refl_not in Hc.
  - split; [done|]. by intros [? _].
Qed.

#[local] Instance rowLe_total : Total rowLe.
Proof.
  intros a b. rewrite !rowLe_spec, !ltb_le.
  destruct (decide (row_name a = row_name b)) as [Heq|Hne].
  - destruct (total String.le (row_version a) (row_version b)) as [H|H];
      apply Is_true_true in H; [left|right]; right; by split.
  - destruct (total String.le (row_name a) (row_name b)); [left|right]; left;
      by split.
Qed.

#[local] Instance rowLe_trans : Transitive rowLe.
Proof.
  intros a b c. rewrite !rowLe_spec, !ltb_le.
  intros [[H1 N1]|[E1 V1]] [[H2 N2]|[E2 V2]].
  - left. split; [by etrans|]. intros Heq. rewrite <- Heq in H2.
    by apply N1, (anti_symm String.le).
  - left. rewrite <- E2. by split.
  - left. rewrite E1. by split.
  - right. split; [congruence|].
    apply Is_true_true. apply Is_true_true in V1, V2. by etrans.
Qed.

Lemma condition_effective f col r :
  condition f col r = true <-> effective f col r.
Proof.
  unfold condition, effective. destruct f as [s|]; [|by split].
  destruct (String.eqb s "") eqn:Hs.
  - apply String.eqb_eq in Hs as ->. split; [|done]. by intros _ s [= <-].
  - apply String.eqb_neq in Hs. rewrite String.eqb_eq. split.
    + by intros <- s' [= <-].
    + intros H. by apply H.
Qed.

(** C5, as the code has it.  A query returns the rows that agree with
    every filter property that is supplied and is not the empty string,
    each once, ordered by name and then by version; with no property
    supplied these are all the rows; the table is not changed. *)
Theorem query_filters_and_orders f w rs w' :
  queryPackages env f w = (Ok rs, w') ->
  database w' = database w
  /\ rs ≡ₚ List.filter (matches f) (rows (database w))
  /\ (forall r, In r rs <->
                In r (rows (database w))
                /\ effective (filter_package f) row_name r
                /\ effective (filter_version f) row_version r
                /\ effective (filter_ecosystem f) row_ecosystem r)
  /\ (f = noFilters -> rs ≡ₚ rows (database w))
  /\ StronglySorted rowLe rs
  /\ (forall a b, rowLe a b <->
                  String.ltb (row_name a) (row_name b) = true
                  \/ (row_name a = row_name b
                      /\ String.leb (row_version a) (row_version b) = true)).
Proof.
  intros H. rewrite queryPackages_statement in H.
  apply statement_Ok in H as (_ & -> & ->). simpl.
  split_and!.
  - done.
  - apply merge_sort_Permutation.
  - intros r. rewrite selectAll_In. unfold matches.
    rewrite !andb_true_iff, !condition_effective. intuition.
  - intros ->. unfold selectAll. rewrite merge_sort_Permutation.
    induction (rows (database w)) as [|r l IH]; simpl; [done|]. by rewrite IH.
  - apply (StronglySorted_merge_sort rowLe).
  - apply rowLe_spec.
Qed.
End QueryFacts.

(** C5, as stated, fails on a supplied empty string: the filter
    [{package: ''}] does not restrict the result to rows whose name is the
    empty string, it returns every row. *)
Lemma query_ignores_empty_string_filter :
  let env := Sample.constant (Response JNull) in
  let w := Sample.worldWith [Sample.row 1 "npm" "lodash" "4.17.21" "Utilities"] in
  exists rs w',
    Database.queryPackages env (mkFilters (Some "") None None) w = (Ok rs, w')
    /\ ~ (forall r, In r rs -> row_name r = "").
Proof.
  intros env w. eexists. eexists. split; [vm_compute; reflexivity|].
  intros H. specialize (H _ (or_introl eq_refl)). discriminate H.
Qed.

Lemma query_filters_and_orders_sample :
  let env := Sample.constant (Response JNull) in
  let npm := Sample.row 1 "npm" "lodash" "4.17.21" "Utilities" in
  let pypi := Sample.row 2 "pypi" "requests" "2.31.0" "HTTP for Humans" in
  let w := Sample.worldWith [npm; pypi] in
  Database.queryPackages env (mkFilters None None (Some "pypi")) w
  = (Ok [pypi], tickWorld w)
  /\ Database.queryPackages env noFilters w = (Ok [npm; pypi], tickWorld w)
  /\ StronglySorted Database.rowLe [npm; pypi].
Proof.
  intros env npm pypi w.
  split; [vm_compute; reflexivity|]. split; [vm_compute; reflexivity|].
  by destruct (query_filters_and_orders env noFilters w [npm; pypi] (tickWorld w)
                 ltac:(vm_compute; reflexivity)) as (_ & _ & _ & _ & Hs & _).
Defined.

(** ** DocumentationMapper *)

Lemma bind_Ok {A B} (m : M A) (k : A -> M B) w b w' :
  bind m k w = (Ok b, w') ->
  exists a w1, m w = (Ok a, w1) /\ k a w1 = (Ok b, w').
Proof.
  unfold bind. destruct (m w) as [[a|e] w1]; [|done]. intros H. by exists a, w1.
Qed.

Lemma bind_Throw {A B} (m : M A) (k : A -> M B) w e w' :
  bind m k w = (Throw e, w') ->
  m w = (Throw e, w') \/ exists a w1, m w = (Ok a, w1) /\ k a w1 = (Throw e, w').
Proof.
  unfold bind. destruct (m w) as [[a|e'] w1].
  - intros H. right. by exists a, w1.
  - intros [= <- <-]. by left.
Qed.

Lemma safe_not_Throw {A} (m : M A) w e w' : safe m -> m w <> (Throw e, w').
Proof. intros Hs H. destruct (Hs w) as [a Ha]. by rewrite H in Ha. Qed.

Section MapperFacts.
Context (env : Env).
Import DocumentationMapper.

Lemma processOne_workspace dep w :
  isWorkspace (version dep) = true ->
  processOne env dep w
  = (Ok (workspaceEntry dep (clock env (ticks w))), tickWorld w).
Proof. intros H. unfold processOne. by rewrite H. Qed.

Lemma processRecord_workspace dep w :
  isWorkspace (version dep) = true ->
  processRecord env dep w
  = (Ok (workspaceEntry dep (clock env (ticks w))), tickWorld w).
Proof. intros H. unfold processRecord, tryCatch. by rewrite processOne_workspace. Qed.

Lemma processOne_existing dep w row :
  isWorkspace (version dep) = false ->
  dbFault env (ticks w) = None ->
  Database.selectOne (name dep) (version dep) (ecosystem dep) (database w) = Some row ->
  processOne env dep w = (Ok (Existing row), tickWorld w).
Proof.
  intros Hw Hf Hs. unfold processOne, bind. rewrite Hw.
  rewrite getPackageDocumentation_statement.
  rewrite (statement_run env _ _ Hf). simpl. rewrite Hs. by destruct w.
Qed.

(** The documentation step: the crawler, or the fixed note. *)
Lemma documentation_step dep :
  let m := (if skipDocs env then ret (Some disabledNote)
            else DocumentationCrawler.crawlDocumentation env dep) in
  safe m /\ respects frameStep m
  /\ (isWorkspace (version dep) = false -> respects callStep m).
Proof.
  simpl. destruct (skipDocs env).
  - split_and!; [apply safe_ret|apply respects_ret, _|intros _; apply respects_ret, _].
  - split_and!; [apply safe_crawlDocumentation|apply frame_crawlDocumentation
                |apply call_crawlDocumentation].
Qed.

(** A thrown error leaves the database as it was. *)
Lemma processOne_Throw dep w e w' :
  processOne env dep w = (Throw e, w') -> database w' = database w.
Proof.
  unfold processOne. destruct (isWorkspace (version dep)); [done|].
  rewrite getPackageDocumentation_statement.
  intros H. apply bind_Throw in H as [H|(existing & w1 & Hg & H)].
  { by apply statement_Throw in H as (msg & _ & ->). }
  apply statement_Ok in Hg as (_ & _ & ->). simpl in H.
  destruct existing as [row|]; [done|].
  apply bind_Throw in H as [H|(description & w2 & Hd & H)].
  { by apply safe_not_Throw in H; [|apply safe_fetchDescription]. }
  pose proof (frame_fetchDescription env dep
                (setDatabase (database w) (tickWorld w))) as [D2 _].
  rewrite Hd in D2. simpl in D2.
  destruct (documentation_step dep) as (Hsafe & Hframe & _).
  apply bind_Throw in H as [H|(documentation & w3 & Hc & H)].
  { by apply safe_not_Throw in H. }
  pose proof (Hframe w2) as [D3 _]. rewrite Hc in D3. simpl in D3.
  apply bind_Throw in H as [H|(t & w4 & Hn & H)]; [done|].
  injection Hn as <- <-.
  apply bind_Throw in H as [H|(id & w5 & Hs & H)].
  { destruct (storePackage_statement env
                (mkPkg (ecosystem dep) (name dep) (version dep) (source dep)
                       description documentation (manifestPath dep)
                       (isDevDependency dep) (clock env (ticks w3))))
      as [run Hrun].
    rewrite Hrun in H.
    apply statement_Throw in H as (msg & _ & ->). simpl.
    rewrite D3, D2. by destruct w. }
  done.
Qed.

Lemma processOne_Ok_key dep w entry w' :
  processOne env dep w = (Ok entry, w') -> entryKey entry = depKey dep.
Proof.
  unfold processOne. destruct (isWorkspace (version dep)).
  { by intros [= <- _]. }
  rewrite getPackageDocumentation_statement.
  intros H. apply bind_Ok in H as (existing & w1 & Hg & H).
  apply statement_Ok in Hg as (_ & -> & ->). simpl in H.
  destruct (Database.selectOne _ _ _ _) as [row|] eqn:Hs.
  { injection H as <- _. apply List.find_some in Hs as [_ Hk].
    apply sameKey_eq in Hk as (He & Hn & Hv).
    unfold entryKey, depKey. by rewrite He, Hn, Hv. }
  apply bind_Ok in H as (description & w2 & _ & H).
  apply bind_Ok in H as (documentation & w3 & _ & H).
  apply bind_Ok in H as (t & w4 & _ & H).
  apply bind_Ok in H as (id & w5 & _ & H).
  apply bind_Ok in H as (ms & w6 & _ & H).
  apply bind_Ok in H as (u & w7 & _ & H).
  by injection H as <- _.
Qed.

Lemma processRecord_run dep w :
  exists entry w',
    processRecord env dep w = (Ok entry, w')
    /\ entryKey entry = depKey dep
    /\ (forall e w1, processOne env dep w = (Throw e, w1) ->
          entry = Failed (ecosystem dep) (name dep) (version dep) (message e)
          /\ w' = w1).
Proof.
  unfold processRecord, tryCatch.
  destruct (processOne env dep w) as [[entry|e] w'] eqn:H.
  - exists entry, w'. split; [done|]. split; [|done].
    by apply processOne_Ok_key in H.
  - eexists. eexists. split; [done|]. split; [done|].
    by intros e' w1 [= <- <-].
Qed.

Lemma processFrom_app pre post acc w :
  processFrom env (pre ++ post) acc w
  = bind (processFrom env pre acc) (processFrom env post) w.
Proof.
  revert acc w. induction pre as [|dep pre IH]; intros acc w; [done|].
  simpl. unfold bind.
  destruct (processRecord_run dep w) as (entry & w' & Hr & _). rewrite Hr.
  rewrite IH. reflexivity.
Qed.

(** The loop returns one entry per record, in order, whatever happens. *)
Lemma processFrom_run deps : forall acc w,
  exists entries w',
    processFrom env deps acc w = (Ok (acc ++ entries), w')
    /\ Forall2 (fun d r => entryKey r = depKey d) deps entries.
Proof.
  induction deps as [|dep rest IH]; intros acc w.
  - exists [], w. split; [by rewrite app_nil_r|constructor].
  - simpl. unfold bind.
    destruct (processRecord_run dep w) as (entry & w1 & -> & Hk & _).
    destruct (IH (acc ++ [entry]) w1) as (entries & w' & -> & Hall).
    exists (entry :: entries), w'. split; [by rewrite <- app_assoc|].
    by constructor.
Qed.
End MapperFacts.

Section MapperProperties.
Context (env : Env).
Import DocumentationMapper.

Lemma call_statement {A} (run : DbState -> A * DbState) :
  respects callStep (Database.statement env run).
Proof.
  intros w. unfold Database.statement.
  destruct (dbFault env (ticks w)); [|destruct (run (database w))];
    split; exists []; simpl; by rewrite app_nil_r.
Qed.

Lemma call_net {A} (m : M A) : respects netStep m -> respects callStep m.
Proof. apply respects_weaken, netStep_callStep. Qed.

Lemma call_processRecord dep : respects callStep (processRecord env dep).
Proof.
  destruct (isWorkspace (version dep)) eqn:Hw.
  - intros w. rewrite (processRecord_workspace env dep w Hw). simpl.
    split. exists []. by rewrite app_nil_r.
  - unfold processRecord, processOne. rewrite Hw.
    destruct (documentation_step env dep) as (_ & _ & Hdoc).
    apply respects_tryCatch; [apply _| |intros e; apply respects_ret, _].
    apply respects_bind;
      [apply _|rewrite getPackageDocumentation_statement; apply call_statement|].
    intros [row|]; [apply respects_ret, _|].
    apply respects_bind; [apply _|by apply call_fetchDescription|]. intros description.
    apply respects_bind; [apply _|by apply Hdoc|]. intros documentation.
    apply respects_bind; [apply _|apply call_net, net_now|]. intros t.
    apply respects_bind; [apply _| |intros id].
    { match goal with
      | |- respects _ (Database.storePackage env ?p) =>
          destruct (storePackage_statement env p) as [run ->]
      end.
      apply call_statement. }
    apply respects_bind; [apply _|apply call_net, net_randomDelay|]. intros ms.
    apply respects_bind; [apply _|apply call_net, net_delay|]. intros u.
    apply respects_ret, _.
Qed.

Lemma call_processFrom deps acc : respects callStep (processFrom env deps acc).
Proof.
  revert acc. induction deps as [|dep rest IH]; intros acc; simpl.
  - apply respects_ret, _.
  - apply respects_bind; [apply _|apply call_processRecord|].
    intros entry. apply IH.
Qed.

Lemma processFrom_step dep rest acc w entry w1 :
  processRecord env dep w = (Ok entry, w1) ->
  processFrom env (dep :: rest) acc w = processFrom env rest (acc ++ [entry]) w1.
Proof. intros H. simpl. unfold bind. by rewrite H. Qed.

(** C1, as the code has it.  A record whose version is [workspace:*] or
    contains [workspace:] is answered at once with the entry whose
    description is "Internal workspace package: <name>": the entry goes
    to the results, the world only sees the clock read (nothing is
    written to the database, nothing is added to the trace), and in no
    run of [processDependencies] does [fetchDescription] or
    [crawlDocumentation] get called on such a record. *)
Theorem workspace_record_is_skipped dep :
  isWorkspace (version dep) = true ->
  (forall w,
     processRecord env dep w
     = (Ok (workspaceEntry dep (clock env (ticks w))), tickWorld w)
     /\ database (tickWorld w) = database w
     /\ trace (tickWorld w) = trace w)
  /\ (forall rest acc w,
        processFrom env (dep :: rest) acc w
        = processFrom env rest (acc ++ [workspaceEntry dep (clock env (ticks w))])
                      (tickWorld w))
  /\ (forall deps w,
        exists evs,
          trace (processDependencies env deps w).2 = trace w ++ evs
          /\ ~ In (EvFetchDescription dep) evs
          /\ ~ In (EvCrawlDocumentation dep) evs).
Proof.
  intros Hw. split_and!.
  - intros w. by rewrite processRecord_workspace.
  - intros rest acc w. apply processFrom_step. by apply processRecord_workspace.
  - intros deps w.
    destruct (call_processFrom deps [] w) as [(evs & E & P)].
    exists evs. split; [exact E|].
    rewrite Forall_forall in P.
    split; intros Hin%list_elem_of_In%P; simpl in Hin; congruence.
Qed.

(** C3. A run of [processDependencies] returns, with one entry per record
    in the order of the input, each entry carrying the triple of its
    record; [fetchDescription] and [crawlDocumentation] never throw, a
    registry branch that throws being answered with the placeholder
    description; and when the body of the [try] throws for a record, the
    entry for it is the error entry and the loop goes on with the records
    that follow. *)
Theorem batch_survives_record_failures deps w :
  (exists results w',
     processDependencies env deps w = (Ok results, w')
     /\ Forall2 (fun d r => entryKey r = depKey d) deps results)
  /\ (forall dep, safe (PackageFetcher.fetchDescription env dep))
  /\ (forall dep w0 e w1,
        fetcherCache w0
          !! PackageFetcher.cacheKey (ecosystem dep) (name dep) (version dep) = None ->
        PackageFetcher.dispatch env (ecosystem dep) (name dep) (version dep)
          (logEvent (EvFetchDescription dep) w0) = (Throw e, w1) ->
        PackageFetcher.fetchDescription env dep w0
        = (Ok (JStr ("Failed to fetch description: " +:+ message e)), w1))
  /\ (forall dep, safe (DocumentationCrawler.crawlDocumentation env dep))
  /\ (forall dep, safe (processRecord env dep))
  /\ (forall dep rest acc w0 e w1,
        processOne env dep w0 = (Throw e, w1) ->
        processFrom env (dep :: rest) acc w0
        = processFrom env rest
            (acc ++ [Failed (ecosystem dep) (name dep) (version dep) (message e)]) w1).
Proof.
  split_and!.
  - destruct (processFrom_run env deps [] w) as (entries & w' & H & Hall).
    by exists entries, w'.
  - apply safe_fetchDescription.
  - intros dep w0 e w1 Hc Hd.
    by rewrite (fetchDescription_miss env dep w0 Hc), Hd.
  - apply safe_crawlDocumentation.
  - intros dep w0. destruct (processRecord_run env dep w0) as (entry & w' & -> & _).
    by exists entry.
  - intros dep rest acc w0 e w1 H. apply processFrom_step.
    unfold processRecord, tryCatch. by rewrite H.
Qed.

(** C10. When the body of the [try] throws for a record, the error entry
    is all there is: the entry pushed is [{ecosystem, name, version,
    error}], and the database after the failure is the database before
    it. *)
Theorem failed_record_leaves_database_untouched dep w e w1 :
  processOne env dep w = (Throw e, w1) ->
  processRecord env dep w
  = (Ok (Failed (ecosystem dep) (name dep) (version dep) (message e)), w1)
  /\ database w1 = database w
  /\ (forall n v eco,
        Database.selectOne n v eco (database w1)
        = Database.selectOne n v eco (database w)).
Proof.
  intros H. pose proof (processOne_Throw env dep w e w1 H) as Hd.
  split_and!.
  - unfold processRecord, tryCatch. by rewrite H.
  - done.
  - intros n v eco. by rewrite Hd.
Qed.
End MapperProperties.

(** ** DependencyScanner *)

Section ScannerFacts.
Import DependencyScanner.

Lemma collect_strings filePath dev l :
  collect filePath dev (map (fun nv => (nv.1, JStr nv.2)) l)
  = Ok (map (npmRecord filePath dev) l).
Proof.
  induction l as [|[n v] l IH]; simpl; [done|]. by rewrite IH.
Qed.

Lemma section_strings filePath dev o :
  section filePath dev (manifestSection o)
  = Ok (map (npmRecord filePath dev) (declared o)).
Proof.
  destruct o as [l|]; [|done]. unfold section. simpl. apply collect_strings.
Qed.

Lemma dropWhile_split p s :
  exists pre,
    s = pre +:+ Js.dropWhile p s
    /\ Js.allChars p pre = true
    /\ match Js.dropWhile p s with
       | String c _ => p c = false
       | EmptyString => True
       end.
Proof.
  induction s as [|c r (pre & E & A & H)]; simpl.
  - by exists "".
  - destruct (p c) eqn:Hc.
    + exists (String c pre). rewrite app_String, <- E. simpl. by rewrite Hc, A.
    + by exists "".
Qed.

(** C8. The manifest [{"dependencies": {"lodash": "^4.17.21"}}] yields
    exactly the record npm / lodash / 4.17.21 / not a dev dependency.  In
    general the entries of [dependencies] come first with
    [isDevDependency] false and those of [devDependencies] follow with
    [isDevDependency] true, each with the leading run of non-digits
    removed from its declared version: what is removed holds no digit, and
    what is left is empty or starts with a digit. *)
Theorem parsePackageJson_strips_ranges filePath :
  parsePackageJson filePath
    (JObj [("dependencies", JObj [("lodash", JStr "^4.17.21")])])
  = Ok [mkDep "npm" "lodash" "4.17.21" "registry" filePath false]
  /\ (forall content deps devDeps,
        JsOps.getp content "dependencies" = Ok (manifestSection deps) ->
        JsOps.getp content "devDependencies" = Ok (manifestSection devDeps) ->
        parsePackageJson filePath content
        = Ok (map (npmRecord filePath false) (declared deps)
              ++ map (npmRecord filePath true) (declared devDeps)))
  /\ (forall dev n range,
        ecosystem (npmRecord filePath dev (n, range)) = "npm"
        /\ name (npmRecord filePath dev (n, range)) = n
        /\ isDevDependency (npmRecord filePath dev (n, range)) = dev
        /\ exists operators,
             range = operators +:+ version (npmRecord filePath dev (n, range))
             /\ Js.allChars nonDigit operators = true
             /\ match version (npmRecord filePath dev (n, range)) with
                | String c _ => Js.isDigit c = true
                | EmptyString => True
                end).
Proof.
  split_and!.
  - reflexivity.
  - intros content deps devDeps Hd Hv. unfold parsePackageJson.
    rewrite Hd. simpl. rewrite section_strings. simpl.
    rewrite Hv. simpl. by rewrite section_strings.
  - intros dev n range. split_and!; try done.
    destruct (dropWhile_split nonDigit range) as (pre & E & A & H).
    exists pre. split_and!; try done. simpl.
    destruct (Js.dropWhile nonDigit range); [done|].
    unfold nonDigit in H. by apply negb_false_iff in H.
Qed.
End ScannerFacts.

(** A manifest with both sections. *)
Example parsePackageJson_sample :
  DependencyScanner.parsePackageJson "/repo/package.json"
    (JObj [("name", JStr "app");
           ("dependencies", JObj [("lodash", JStr "^4.17.21"); ("express", JStr "~4.18.0")]);
           ("devDependencies", JObj [("jest", JStr ">=29.0.0")])])
  = Ok [mkDep "npm" "lodash" "4.17.21" "registry" "/repo/package.json" false;
        mkDep "npm" "express" "4.18.0" "registry" "/repo/package.json" false;
        mkDep "npm" "jest" "29.0.0" "registry" "/repo/package.json" true].
Proof. reflexivity. Qed.

(** ** Closed instances *)

Lemma workspace_record_is_skipped_sample :
  let env := Sample.constant (Response JNull) in
  DocumentationMapper.isWorkspace (version Sample.internal) = true
  /\ DocumentationMapper.processRecord env Sample.internal Sample.emptyWorld
     = (Ok (workspaceEntry Sample.internal "t0"), tickWorld Sample.emptyWorld).
Proof.
  intros env. split; [reflexivity|].
  destruct (workspace_record_is_skipped env Sample.internal eq_refl) as (H & _).
  destruct (H Sample.emptyWorld) as (H1 & _). exact H1.
Defined.

(** C1, as stated, fails: the entry of a workspace record goes to the
    results and not to the database. *)
Lemma workspace_record_is_not_stored :
  let env := Sample.constant (Response JNull) in
  exists w',
    DocumentationMapper.processDependencies env [Sample.internal] Sample.emptyWorld
    = (Ok [workspaceEntry Sample.internal "t0"], w')
    /\ ~ exists row,
           In row (rows (database w'))
           /\ row_description row = JStr "Internal workspace package: @acme/utils".
Proof.
  intros env. eexists. split; [vm_compute; reflexivity|].
  simpl. by intros (row & [] & _).
Qed.

(** On a table that holds the row of a workspace record, which no run
    writes, the guard answers before the lookup: the entry returned is the
    placeholder, not the row. *)
Example workspace_row_is_shadowed_by_the_guard :
  let env := Sample.constant (Response JNull) in
  let stored := Sample.row 1 "npm" "@acme/utils" "workspace:*" "Shared helpers" in
  let w := Sample.worldWith [stored] in
  Database.selectOne "@acme/utils" "workspace:*" "npm" (database w) = Some stored
  /\ exists results w',
       DocumentationMapper.processDependencies env [Sample.internal] w
       = (Ok results, w')
       /\ results <> [Existing stored].
Proof.
  intros env stored w. split; [reflexivity|].
  eexists. eexists. split; [vm_compute; reflexivity|]. discriminate.
Qed.

Lemma failed_record_leaves_database_untouched_sample :
  let env := Sample.dbFailsAt 6 in
  exists w1,
    DocumentationMapper.processOne env Sample.lodash Sample.emptyWorld
    = (Throw (JsOps.Error "SQLITE_BUSY: database is locked"), w1)
    /\ DocumentationMapper.processRecord env Sample.lodash Sample.emptyWorld
       = (Ok (Failed "npm" "lodash" "4.17.21" "SQLITE_BUSY: database is locked"), w1)
    /\ database w1 = mkDb [] 0.
Proof.
  intros env.
  assert (exists w1, DocumentationMapper.processOne env Sample.lodash Sample.emptyWorld
                     = (Throw (JsOps.Error "SQLITE_BUSY: database is locked"), w1))
    as [w1 H] by (eexists; vm_compute; reflexivity).
  exists w1. split; [exact H|].
  destruct (failed_record_leaves_database_untouched env Sample.lodash
              Sample.emptyWorld _ w1 H) as (H1 & H2 & _).
  split; [exact H1|exact H2].
Defined.

(** A registry that times out for the first record does not keep the
    second one from being processed and stored. *)
Example registry_timeout_does_not_stop_the_batch :
  exists d1 d2 w',
    DocumentationMapper.processDependencies Sample.registryDown
      [Sample.lodash; Sample.requests] Sample.emptyWorld
    = (Ok [Package d1; Package d2], w')
    /\ pkg_description d1
       = JStr "Failed to fetch description: NPM fetch failed: timeout of 10000ms exceeded"
    /\ map row_name (rows (database w')) = ["lodash"; "requests"].
Proof.
  eexists. eexists. eexists. split; [vm_compute; reflexivity|]. by split.
Qed.

(** ** The table under [storePackage] *)

Section StoreFacts.
Import Database.

Lemma sameKey_rowKey e n v r :
  sameKey e n v r = bool_decide (rowKey r = (e, n, v)).
Proof.
  unfold rowKey. destruct (sameKey e n v r) eqn:H.
  - apply sameKey_eq in H as (-> & -> & ->). by rewrite bool_decide_eq_true_2.
  - symmetry. apply bool_decide_eq_false_2. intros [= He Hn Hv].
    assert (sameKey e n v r = true) by (apply sameKey_eq; by split_and!).
    congruence.
Qed.

Lemma rowKey_storedRow t id p : rowKey (storedRow t id p) = pkgKey p.
Proof. by destruct t. Qed.

Lemma row_id_storedRow t id p : row_id (storedRow t id p) = id.
Proof. by destruct t. Qed.

Lemma filter_ext_in' {A} (f g : A -> bool) l :
  (forall x, In x l -> f x = g x) -> List.filter f l = List.filter g l.
Proof.
  induction l as [|x l IH]; intros H; simpl; [done|].
  rewrite (H x) by (by left). rewrite IH; [done|]. intros y Hy. apply H. by right.
Qed.

(** The shape of the table after a store. *)
Lemma storeStep_shape t p d :
  (exists id,
     rows (storeStep t p d) = others (pkgKey p) d ++ [storedRow t id p]
     /\ id = lastId d + 1 /\ lastId (storeStep t p d) = lastId d + 1)
  \/ (exists pre r post,
        rows d = pre ++ r :: post
        /\ rowKey r = pkgKey p
        /\ Forall (fun x => rowKey x <> pkgKey p) pre
        /\ rows (storeStep t p d) = pre ++ storedRow t (row_id r) p :: post
        /\ lastId (storeStep t p d) = lastId d).
Proof.
  destruct t; simpl.
  - left. exists (lastId d + 1). split; [|done]. f_equal. unfold others.
    apply filter_ext_in'. intros r _. by rewrite sameKey_rowKey.
  - unfold updateOneUpsert.
    pose proof (updateFirst_spec
                  (sameKey (pkg_ecosystem p) (pkg_name p) (pkg_version p)) p (rows d)) as H.
    destruct (updateFirst _ p (rows d)) as [rs|]; simpl.
    + right. destruct H as (pre & r & post & E & Hr & Hpre & ->).
      exists pre, r, post. split_and!; try done.
      * rewrite sameKey_rowKey in Hr. by apply bool_decide_eq_true in Hr.
      * apply Forall_forall. intros x Hx Hk.
        assert (In x (List.filter (sameKey (pkg_ecosystem p) (pkg_name p) (pkg_version p)) pre))
          as Hin.
        { apply List.filter_In. split; [by apply list_elem_of_In|].
          rewrite sameKey_rowKey. by apply bool_decide_eq_true_2. }
        by rewrite Hpre in Hin.
    + left. exists (lastId d + 1). split; [|done]. f_equal. unfold others.
      symmetry. clear -H. induction (rows d) as [|r l IH]; simpl in *; [done|].
      rewrite sameKey_rowKey in H.
      change (pkg_ecosystem p, pkg_name p, pkg_version p) with (pkgKey p) in H.
      destruct (bool_decide (rowKey r = pkgKey p)) eqn:Hk; simpl in *; [done|].
      f_equal. by apply IH.
Qed.

Lemma others_app k (l1 l2 : list Row) lid lid' lid'' :
  others k (mkDb (l1 ++ l2) lid) = others k (mkDb l1 lid') ++ others k (mkDb l2 lid'').
Proof. unfold others. simpl. apply List.filter_app. Qed.

Lemma others_idem k d lid :
  others k (mkDb (others k d) lid) = others k d.
Proof.
  unfold others. simpl. induction (rows d) as [|r l IH]; simpl; [done|].
  destruct (bool_decide (rowKey r = k)) eqn:H; simpl; [done|]. by rewrite H, IH.
Qed.

(** A store touches the rows of its triple only. *)
Lemma storeStep_others t p d :
  others (pkgKey p) (storeStep t p d) = others (pkgKey p) d.
Proof.
  destruct (storeStep_shape t p d) as [(id & E & _)|(pre & r & post & E & Hr & _ & E' & _)].
  - unfold others at 1. rewrite E, List.filter_app. simpl.
    rewrite rowKey_storedRow, bool_decide_eq_true_2 by done. simpl.
    rewrite app_nil_r. apply (others_idem _ _ 0).
  - unfold others. rewrite E, E', !List.filter_app. simpl.
    by rewrite rowKey_storedRow, Hr, bool_decide_eq_true_2.
Qed.

Lemma storeStep_other_key t p d k :
  k <> pkgKey p ->
  List.filter (fun r => bool_decide (rowKey r = k)) (rows (storeStep t p d))
  = List.filter (fun r => bool_decide (rowKey r = k)) (rows d).
Proof.
  intros Hk.
  assert (forall l : list Row,
            List.filter (fun r => bool_decide (rowKey r = k)) l
            = List.filter (fun r => bool_decide (rowKey r = k))
                (List.filter (fun r => negb (bool_decide (rowKey r = pkgKey p))) l)) as H.
  { induction l as [|r l IH]; simpl; [done|].
    destruct (bool_decide (rowKey r = pkgKey p)) eqn:Hp; simpl.
    - apply bool_decide_eq_true in Hp. rewrite bool_decide_eq_false_2 by congruence.
      done.
    - destruct (bool_decide (rowKey r = k)); by rewrite IH. }
  rewrite H, (H (rows d)).
  pose proof (storeStep_others t p d) as Ho. unfold others in Ho. by rewrite Ho.
Qed.

(** The key lookup after a store finds the stored row. *)
Lemma storeStep_selectOne t p d :
  exists id,
    selectOne (pkg_name p) (pkg_version p) (pkg_ecosystem p) (storeStep t p d)
    = Some (storedRow t id p).
Proof.
  assert (forall l (x : Row),
            Forall (fun r => rowKey r <> pkgKey p) l -> rowKey x = pkgKey p ->
            forall post,
              List.find (sameKey (pkg_ecosystem p) (pkg_name p) (pkg_version p))
                        (l ++ x :: post) = Some x) as Hfind.
  { intros l x Hl Hx post. induction Hl as [|r l Hr _ IH]; simpl.
    - rewrite sameKey_rowKey. by rewrite bool_decide_eq_true_2.
    - rewrite sameKey_rowKey. by rewrite bool_decide_eq_false_2. }
  unfold selectOne.
  destruct (storeStep_shape t p d) as [(id & E & _)|(pre & r & post & _ & _ & Hpre & E' & _)].
  - exists id. rewrite E. apply Hfind; [|apply rowKey_storedRow].
    apply Forall_forall. intros x Hx%list_elem_of_In. unfold others in Hx.
    apply List.filter_In in Hx as [_ Hx]. apply negb_true_iff in Hx.
    by apply bool_decide_eq_false in Hx.
  - exists (row_id r). rewrite E'. apply Hfind; [done|apply rowKey_storedRow].
Qed.

Lemma NoDup_map_filter {A B} (f : A -> B) (g : A -> bool) l :
  NoDup (map f l) -> NoDup (map f (List.filter g l)).
Proof.
  induction l as [|x l IH]; simpl; [done|].
  intros [Hx Hl]%NoDup_cons. destruct (g x); simpl; [|by apply IH].
  apply NoDup_cons. split; [|by apply IH].
  intros Hin. apply Hx. apply list_elem_of_fmap in Hin as (y & -> & Hy).
  apply list_elem_of_fmap. exists y. split; [done|].
  apply list_elem_of_In. apply list_elem_of_In in Hy.
  by apply List.filter_In in Hy as [Hy _].
Qed.

(** A store keeps the table well formed. *)
Lemma storeStep_wellFormed t p d :
  wellFormed d -> wellFormed (storeStep t p d).
Proof.
  intros [Hk Hi Hb].
  destruct (storeStep_shape t p d)
    as [(id & E & -> & El)|(pre & r & post & E & Hr & Hpre & E' & El)].
  - assert (forall x, In x (others (pkgKey p) d) ->
                      In x (rows d) /\ rowKey x <> pkgKey p) as Ho.
    { intros x Hx. unfold others in Hx. apply List.filter_In in Hx as [Hx Hn].
      split; [done|]. apply negb_true_iff in Hn. by apply bool_decide_eq_false in Hn. }
    split; rewrite ?E, ?El.
    + rewrite map_app. simpl. apply NoDup_app. split_and!.
      * by apply NoDup_map_filter.
      * intros k Hin Hin2. apply list_elem_of_fmap in Hin as (x & -> & Hx).
        apply list_elem_of_In, Ho in Hx as [_ Hx].
        apply list_elem_of_singleton in Hin2. by rewrite rowKey_storedRow in Hin2.
      * apply NoDup_singleton.
    + rewrite map_app. simpl. apply NoDup_app. split_and!.
      * by apply NoDup_map_filter.
      * intros i Hin Hin2. apply list_elem_of_fmap in Hin as (x & -> & Hx).
        apply list_elem_of_In, Ho in Hx as [Hx _].
        apply list_elem_of_singleton in Hin2. rewrite row_id_storedRow in Hin2.
        rewrite Forall_forall in Hb. apply list_elem_of_In, Hb in Hx. lia.
      * apply NoDup_singleton.
    + apply Forall_app. split.
      * apply Forall_forall. intros x Hx%list_elem_of_In%Ho. destruct Hx as [Hx _].
        rewrite Forall_forall in Hb. apply list_elem_of_In, Hb in Hx. lia.
      * constructor; [|done]. rewrite row_id_storedRow. lia.
  - rewrite E in Hk, Hi, Hb.
    split; rewrite ?E', ?El.
    + rewrite map_app in *. simpl in *. by rewrite rowKey_storedRow, <- Hr.
    + rewrite map_app in *. simpl in *. by rewrite row_id_storedRow.
    + apply Forall_app in Hb as [Hb1 Hb2]. apply Forall_cons in Hb2 as [Hb2 Hb3].
      apply Forall_app. split; [done|]. constructor; [|done].
      by rewrite row_id_storedRow.
Qed.

(** A store keeps every triple that had a row. *)
Lemma storeStep_present t p d k : present k d -> present k (storeStep t p d).
Proof.
  intros (r & Hr & Hk).
  destruct (decide (k = pkgKey p)) as [->|Hne].
  - destruct (storeStep_selectOne t p d) as [id Hs].
    apply List.find_some in Hs as [Hs _].
    exists (storedRow t id p). split; [done|apply rowKey_storedRow].
  - assert (In r (List.filter (fun r => bool_decide (rowKey r = k)) (rows (storeStep t p d))))
      as Hin.
    { rewrite storeStep_other_key by done. apply List.filter_In.
      split; [done|]. by apply bool_decide_eq_true_2. }
    apply List.filter_In in Hin as [Hin _]. by exists r.
Qed.
End StoreFacts.

Section StoreMonad.
Context (env : Env).
Import Database.

(** [storePackage] runs the store of its backend as one statement. *)
Lemma storePackage_run p w :
  storePackage env p w
  = match dbFault env (ticks w) with
    | Some msg => (Throw (JsOps.Error msg), tickWorld w)
    | None =>
        (Ok (match dbType env with
             | SQLite => RunResult (lastId (database w) + 1)
             | MongoDB => (updateOneUpsert p (database w)).1
             end),
         setDatabase (storeStep (dbType env) p (database w)) (tickWorld w))
    end.
Proof.
  unfold storePackage, storePackageSQLite, storePackageMongoDB, statement, storeStep.
  destruct (dbType env), (dbFault env (ticks w)); try done.
  simpl. by destruct (updateOneUpsert p (database w)).
Qed.
End StoreMonad.

(** ** One turn of the loop, case by case *)

Section TurnFacts.
Context (env : Env).
Import DocumentationMapper.

Lemma tickWorld_setDatabase w : setDatabase (database w) (tickWorld w) = tickWorld w.
Proof. by destruct w. Qed.

Lemma safe_documentationStep dep : safe (documentationStep env dep).
Proof. by destruct (documentation_step env dep). Qed.

(** After the guard and the lookup, a turn is the fetch, the documentation
    step, the clock and the store. *)
Lemma processOne_fresh dep w :
  isWorkspace (version dep) = false ->
  dbFault env (ticks w) = None ->
  Database.selectOne (name dep) (version dep) (ecosystem dep) (database w) = None ->
  exists description w2 documentation w3,
    PackageFetcher.fetchDescription env dep (tickWorld w) = (Ok description, w2)
    /\ documentationStep env dep w2 = (Ok documentation, w3)
    /\ let p := packageOf dep description documentation (clock env (ticks w3)) in
       processOne env dep w
       = match dbFault env (S (ticks w3)) with
         | Some msg => (Throw (JsOps.Error msg), tickWorld (tickWorld w3))
         | None => (Ok (Package p), afterStore env p (tickWorld w3))
         end.
Proof.
  intros Hw Hf Hs.
  destruct (safe_run _ (tickWorld w) (safe_fetchDescription env dep))
    as (description & w2 & Hd).
  destruct (safe_run _ w2 (safe_documentationStep dep)) as (documentation & w3 & Hc).
  exists description, w2, documentation, w3. split; [done|]. split; [done|].
  unfold processOne. rewrite Hw.
  rewrite getPackageDocumentation_statement.
  unfold bind at 1. rewrite (statement_run env _ _ Hf). simpl.
  rewrite Hs, tickWorld_setDatabase.
  unfold bind at 1. rewrite Hd.
  unfold bind at 1. fold (documentationStep env dep). rewrite Hc.
  unfold bind at 1. unfold now at 1.
  unfold bind at 1. rewrite storePackage_run. simpl.
  destruct (dbFault env (S (ticks w3))); [done|]. reflexivity.
Qed.

(** What a turn does to the table: nothing, or the store of a package with
    the triple of its record. *)
Lemma processRecord_database dep w :
  database (processRecord env dep w).2 = database w
  \/ exists p, pkgKey p = depKey dep
               /\ database (processRecord env dep w).2
                  = storeStep (dbType env) p (database w).
Proof.
  destruct (isWorkspace (version dep)) eqn:Hw.
  { left. by rewrite processRecord_workspace. }
  unfold processRecord, tryCatch.
  destruct (dbFault env (ticks w)) as [msg|] eqn:Hf.
  { left. unfold processOne. rewrite Hw, getPackageDocumentation_statement.
    unfold bind, Database.statement. rewrite Hf. simpl. done. }
  destruct (Database.selectOne (name dep) (version dep) (ecosystem dep) (database w))
    as [row|] eqn:Hs.
  { left. by rewrite (processOne_existing env dep w row). }
  destruct (processOne_fresh dep w Hw Hf Hs)
    as (description & w2 & documentation & w3 & Hd & Hc & Hp).
  simpl in Hp. rewrite Hp.
  pose proof (frame_fetchDescription env dep (tickWorld w)) as [D2 _].
  rewrite Hd in D2. simpl in D2.
  destruct (documentation_step env dep) as (_ & Hframe & _).
  pose proof (Hframe w2) as [D3 _]. fold (documentationStep env dep) in D3.
  rewrite Hc in D3. simpl in D3.
  destruct (dbFault env (S (ticks w3))); simpl.
  - left. by rewrite D3, D2.
  - right. eexists. split; [|by rewrite D3, D2]. done.
Qed.
End TurnFacts.

(** ** The table across a run *)

Section TableProperties.
Context (env : Env).
Import DocumentationMapper.

(** X1. Store, then look up: after a successful [storePackage] of
    [packageData], on either backend, a working key lookup returns the row
    just stored, which carries the triple, source, manifest path,
    dev-dependency flag and timestamp of [packageData], and its description
    unless that is [undefined]; the lookup leaves the table as it is. *)
Theorem store_then_lookup p w res w1 :
  Database.storePackage env p w = (Ok res, w1) ->
  dbFault env (ticks w1) = None ->
  exists id,
    let row := storedRow (dbType env) id p in
    Database.getPackageDocumentation env (pkg_name p) (pkg_version p) (pkg_ecosystem p) w1
    = (Ok (Some row), tickWorld w1)
    /\ rowKey row = pkgKey p
    /\ row_source row = pkg_source p
    /\ row_manifest_path row = pkg_manifestPath p
    /\ row_is_dev_dependency row = pkg_isDevDependency p
    /\ row_last_updated row = pkg_lastUpdated p
    /\ (pkg_description p <> JUndef -> row_description row = pkg_description p).
Proof.
  intros Hs Hf. rewrite storePackage_run in Hs.
  destruct (dbFault env (ticks w)); [done|]. injection Hs as _ <-.
  destruct (storeStep_selectOne (dbType env) p (database w)) as [id Hid].
  exists id. simpl. split_and!; try (by destruct (dbType env)).
  - rewrite getPackageDocumentation_statement, (statement_run env _ _ Hf). simpl.
    rewrite Hid. by destruct w.
  - intros Hd. destruct (dbType env); [done|]. simpl.
    by destruct (pkg_description p).
Qed.

(** X2. A [storePackage] touches one triple: whether it succeeds or fails,
    the rows of every other triple are the same rows in the same order,
    the trace and both caches are as they were, a well-formed table stays
    well formed, and a failed store leaves the whole table as it was. *)
Theorem store_package_touches_one_triple p w :
  let w1 := (Database.storePackage env p w).2 in
  others (pkgKey p) (database w1) = others (pkgKey p) (database w)
  /\ trace w1 = trace w
  /\ fetcherCache w1 = fetcherCache w
  /\ crawlerCache w1 = crawlerCache w
  /\ (wellFormed (database w) -> wellFormed (database w1))
  /\ (forall e, (Database.storePackage env p w).1 = Throw e -> database w1 = database w).
Proof.
  simpl. rewrite storePackage_run.
  destruct (dbFault env (ticks w)); simpl; split_and!; try done.
  - apply storeStep_others.
  - apply storeStep_wellFormed.
Qed.

Lemma processFrom_database (P : DbState -> Prop) deps :
  (forall dep, In dep deps -> forall p d,
      pkgKey p = depKey dep -> P d -> P (storeStep (dbType env) p d)) ->
  forall acc w, P (database w) -> P (database (processFrom env deps acc w).2).
Proof.
  induction deps as [|dep rest IH]; intros Hstep acc w Hw; [done|].
  simpl. unfold bind.
  destruct (processRecord_run env dep w) as (entry & w1 & Hr & _).
  pose proof (processRecord_database env dep w) as Hd. rewrite Hr in *. simpl in Hd.
  apply IH.
  - intros dep' Hin. apply Hstep. by right.
  - destruct Hd as [->|(p & Hk & ->)]; [done|].
    apply (Hstep dep); [by left|done|done].
Qed.

(** X3. A run of [processDependencies] keeps the table well formed: one row
    per triple, one row per id, no id beyond the last one handed out. *)
Theorem run_keeps_table_well_formed deps w :
  wellFormed (database w) ->
  wellFormed (database (processDependencies env deps w).2).
Proof.
  apply (processFrom_database wellFormed).
  intros dep _ p d _. apply storeStep_wellFormed.
Qed.

(** X4. A run of [processDependencies] never drops a triple: every triple
    that has a row before the run has one after it. *)
Theorem run_never_drops_a_triple deps w k :
  present k (database w) ->
  present k (database (processDependencies env deps w).2).
Proof.
  apply (processFrom_database (present k)).
  intros dep _ p d _. apply storeStep_present.
Qed.

(** X5. A run of [processDependencies] touches the rows of its records
    only: for a triple that is not the triple of any record of the input,
    the rows are the same before and after. *)
Theorem run_touches_only_its_triples deps w k :
  ~ In k (map depKey deps) ->
  List.filter (fun r => bool_decide (rowKey r = k))
              (rows (database (processDependencies env deps w).2))
  = List.filter (fun r => bool_decide (rowKey r = k)) (rows (database w)).
Proof.
  intros Hk.
  apply (processFrom_database
           (fun d => List.filter (fun r => bool_decide (rowKey r = k)) (rows d)
                     = List.filter (fun r => bool_decide (rowKey r = k))
                         (rows (database w)))); [|done].
  intros dep Hin p d Hp <-. apply storeStep_other_key.
  intros ->. apply Hk. rewrite Hp. by apply in_map.
Qed.

(** X6. Processing a record a second time does no work: when a turn of the
    loop has stored the package of a record that is not a workspace record,
    the next turn for the same record, with the database answering, returns
    the stored row and leaves table, trace and caches as they are. *)
Theorem second_turn_returns_stored_row dep w p w1 :
  isWorkspace (version dep) = false ->
  processRecord env dep w = (Ok (Package p), w1) ->
  dbFault env (ticks w1) = None ->
  exists id,
    processRecord env dep w1
    = (Ok (Existing (storedRow (dbType env) id p)), tickWorld w1)
    /\ pkgKey p = depKey dep.
Proof.
  intros Hw Hr Hf. unfold processRecord, tryCatch in Hr.
  destruct (dbFault env (ticks w)) as [msg|] eqn:Hf0.
  { unfold processOne in Hr. rewrite Hw, getPackageDocumentation_statement in Hr.
    unfold bind, Database.statement in Hr. by rewrite Hf0 in Hr. }
  destruct (Database.selectOne (name dep) (version dep) (ecosystem dep) (database w))
    as [row|] eqn:Hs.
  { by rewrite (processOne_existing env dep w row) in Hr. }
  destruct (processOne_fresh env dep w Hw Hf0 Hs)
    as (description & w2 & documentation & w3 & Hd & Hc & Hp).
  simpl in Hp. rewrite Hp in Hr.
  destruct (dbFault env (S (ticks w3))); [done|].
  injection Hr as <- <-.
  destruct (storeStep_selectOne (dbType env)
              (packageOf dep description documentation (clock env (ticks w3)))
              (database (tickWorld w3))) as [id Hid].
  exists id. split; [|done].
  unfold processRecord, tryCatch.
  by rewrite (processOne_existing env dep _ _ Hw Hf Hid).
Qed.
End TableProperties.

Lemma store_then_lookup_sample :
  let env := Sample.constant (Response JNull) in
  let p := Sample.pkg "npm" "lodash" "4.17.21" "Utilities" in
  exists w1 id,
    Database.storePackage env p Sample.emptyWorld = (Ok (RunResult 1), w1)
    /\ dbFault env (ticks w1) = None
    /\ Database.getPackageDocumentation env "lodash" "4.17.21" "npm" w1
       = (Ok (Some (storedRow SQLite id p)), tickWorld w1).
Proof.
  intros env p. eexists.
  destruct (store_then_lookup env p Sample.emptyWorld _ _ eq_refl eq_refl)
    as (id & H & _).
  exists id. split; [reflexivity|]. split; [reflexivity|]. exact H.
Defined.

Lemma run_keeps_table_well_formed_sample :
  wellFormed (database Sample.emptyWorld)
  /\ wellFormed (database (DocumentationMapper.processDependencies Sample.registryDown
                             [Sample.lodash; Sample.requests; Sample.lodash]
                             Sample.emptyWorld).2).
Proof.
  assert (wellFormed (database Sample.emptyWorld)) as H.
  { split; simpl; constructor. }
  split; [exact H|].
  exact (run_keeps_table_well_formed Sample.registryDown _ Sample.emptyWorld H).
Defined.

Lemma run_never_drops_a_triple_sample :
  let stored := Sample.row 1 "rust" "serde" "1.0" "Serialization" in
  present ("rust", "serde", "1.0") (database (Sample.worldWith [stored]))
  /\ present ("rust", "serde", "1.0")
       (database (DocumentationMapper.processDependencies Sample.registryDown
                    [Sample.lodash; Sample.serde] (Sample.worldWith [stored])).2).
Proof.
  intros stored.
  assert (present ("rust", "serde", "1.0") (database (Sample.worldWith [stored]))) as H.
  { exists stored. split; [by left|reflexivity]. }
  split; [exact H|].
  exact (run_never_drops_a_triple Sample.registryDown _ _ _ H).
Defined.

Lemma run_touches_only_its_triples_sample :
  let stored := Sample.row 1 "rust" "serde" "1.0" "Serialization" in
  ~ In ("rust", "serde", "1.0") (map depKey [Sample.lodash; Sample.requests])
  /\ List.filter (fun r => bool_decide (rowKey r = ("rust", "serde", "1.0")))
       (rows (database (DocumentationMapper.processDependencies Sample.registryDown
                          [Sample.lodash; Sample.requests]
                          (Sample.worldWith [stored])).2))
     = [stored].
Proof.
  intros stored.
  assert (~ In ("rust", "serde", "1.0") (map depKey [Sample.lodash; Sample.requests]))
    as H.
  { simpl. intros [H|[H|[]]]; discriminate H. }
  split; [exact H|].
  exact (run_touches_only_its_triples Sample.registryDown _
           (Sample.worldWith [stored]) _ H).
Defined.

Lemma second_turn_returns_stored_row_sample :
  exists p w1 id,
    DocumentationMapper.processRecord Sample.registryDown Sample.lodash Sample.emptyWorld
    = (Ok (Package p), w1)
    /\ DocumentationMapper.processRecord Sample.registryDown Sample.lodash w1
       = (Ok (Existing (storedRow SQLite id p)), tickWorld w1).
Proof.
  assert (exists p w1,
            DocumentationMapper.processRecord Sample.registryDown Sample.lodash
              Sample.emptyWorld = (Ok (Package p), w1)) as (p & w1 & H).
  { eexists. eexists. vm_compute. reflexivity. }
  destruct (second_turn_returns_stored_row Sample.registryDown Sample.lodash
              Sample.emptyWorld p w1 eq_refl H eq_refl) as (id & H2 & _).
  by exists p, w1, id.
Defined.

(** ** Footprints by kind of event *)

#[global] Instance traceStep_preorder P : PreOrder (traceStep P).
Proof.
  split.
  - intros w. split. exists []. by rewrite app_nil_r.
  - intros w1 w2 w3 [(e1 & E1 & P1)] [(e2 & E2 & P2)].
    split. exists (e1 ++ e2). rewrite E2, E1, app_assoc. split; [done|].
    by apply Forall_app.
Qed.

Section TraceFacts.
Context (env : Env) (P : Event -> Prop).
Import DocumentationMapper.

Lemma trace_silent {A} (m : M A) :
  (forall w, trace (m w).2 = trace w) -> respects (traceStep P) m.
Proof. intros H w. split. exists []. by rewrite H, app_nil_r. Qed.

Lemma trace_statement {A} (run : DbState -> A * DbState) :
  respects (traceStep P) (Database.statement env run).
Proof.
  apply trace_silent. intros w. unfold Database.statement.
  by destruct (dbFault env (ticks w)); [|destruct (run (database w))].
Qed.

Lemma trace_net {A} (m : M A) :
  (forall e, isNet e -> P e) -> respects netStep m -> respects (traceStep P) m.
Proof.
  intros HP Hm w. destruct (Hm w) as [_ _ _ _ (evs & E & F)].
  split. exists evs. split; [done|]. eapply Forall_impl; [exact F|exact HP].
Qed.

Lemma trace_delay ms : P (EvDelay ms) -> respects (traceStep P) (delay ms).
Proof. intros H w. split. exists [EvDelay ms]. split; [done|by constructor]. Qed.

(** A turn adds the events of its two lookups and one pause. *)
Lemma trace_processRecord dep :
  (forall ms, P (EvDelay ms)) ->
  respects (traceStep P) (PackageFetcher.fetchDescription env dep) ->
  respects (traceStep P) (documentationStep env dep) ->
  respects (traceStep P) (processRecord env dep).
Proof.
  intros Hdelay Hfetch Hdoc.
  unfold processRecord, processOne.
  apply respects_tryCatch; [apply _| |intros e; apply respects_ret, _].
  destruct (isWorkspace (version dep)).
  { apply respects_bind; [apply _|by apply trace_silent|].
    intros t. apply respects_ret, _. }
  apply respects_bind;
    [apply _|rewrite getPackageDocumentation_statement; apply trace_statement|].
  intros [row|]; [apply respects_ret, _|].
  apply respects_bind; [apply _|exact Hfetch|]. intros description.
  apply respects_bind; [apply _|exact Hdoc|]. intros documentation.
  apply respects_bind; [apply _|by apply trace_silent|]. intros t.
  apply respects_bind; [apply _| |intros id].
  { match goal with
    | |- respects _ (Database.storePackage env ?p) =>
        destruct (storePackage_statement env p) as [run ->]
    end.
    apply trace_statement. }
  apply respects_bind; [apply _|by apply trace_silent|]. intros ms.
  apply respects_bind; [apply _|apply trace_delay, Hdelay|]. intros u.
  apply respects_ret, _.
Qed.

Lemma trace_processFrom deps : forall acc,
  (forall ms, P (EvDelay ms)) ->
  (forall dep, In dep deps ->
     respects (traceStep P) (PackageFetcher.fetchDescription env dep)
     /\ respects (traceStep P) (documentationStep env dep)) ->
  respects (traceStep P) (processFrom env deps acc).
Proof.
  induction deps as [|dep rest IH]; intros acc Hdelay Hdeps; simpl.
  - apply respects_ret, _.
  - apply respects_bind; [apply _| |].
    + destruct (Hdeps dep) as [Hf Hd]; [by left|]. by apply trace_processRecord.
    + intros entry. apply IH; [done|]. intros d Hd. apply Hdeps. by right.
Qed.
End TraceFacts.

(** ** Requests and pauses *)

Lemma requests_app a b : requests (a ++ b) = (requests a + requests b)%nat.
Proof. induction a as [|[] a IH]; simpl; lia. Qed.

Lemma pauses_app a b : (pauses (a ++ b) == pauses a + pauses b)%Q.
Proof. induction a as [|[] a IH]; simpl; lra. Qed.

(** Bounds on pauses from bounds on whole numbers of milliseconds. *)
Ltac pause_arith :=
  repeat match goal with
         | H : (_ <= _ <= _)%Z |- _ => destruct H
         | H : (_ <= _)%Z |- _ => rewrite Zle_Qle in H
         end;
  rewrite ?pauses_app, ?inject_Z_plus, ?inject_Z_mult in *;
  change (inject_Z 0) with 0%Q in *;
  simpl pauses; lra.

Lemma costs_weaken n ms n' ms' {A} (m : M A) :
  costs n ms m -> (n <= n')%nat -> ms <= ms' -> costs n' ms' m.
Proof.
  intros H Hn Hms w. destruct (H w) as (evs & E & Hr & Hp).
  exists evs. split; [done|]. split; [lia|pause_arith].
Qed.

Lemma costs_silent {A} (m : M A) :
  (forall w, trace (m w).2 = trace w) -> costs 0 0 m.
Proof.
  intros H w. exists []. rewrite H, app_nil_r. split; [done|]. split; [done|].
  pause_arith.
Qed.

Lemma costs_ret {A} (a : A) : costs 0 0 (ret a).
Proof. by apply costs_silent. Qed.

Lemma costs_throw {A} (e : JsError) : costs 0 0 (@throw A e).
Proof. by apply costs_silent. Qed.

Lemma costs_lift {A} (r : Res A) : costs 0 0 (lift r).
Proof. by apply costs_silent. Qed.

Lemma costs_bind n1 ms1 n2 ms2 n ms {A B} (m : M A) (k : A -> M B) :
  costs n1 ms1 m -> (forall a, costs n2 ms2 (k a)) ->
  0 <= ms2 -> (n1 + n2 <= n)%nat -> ms1 + ms2 <= ms ->
  costs n ms (bind m k).
Proof.
  intros Hm Hk H0 Hn Hms w. unfold bind.
  destruct (Hm w) as (e1 & E1 & R1 & P1).
  destruct (m w) as [[a|e] w1]; simpl in *.
  - destruct (Hk a w1) as (e2 & E2 & R2 & P2).
    exists (e1 ++ e2). rewrite E2, E1, app_assoc, requests_app.
    split; [done|]. split; [lia|pause_arith].
  - exists e1. split; [done|]. split; [lia|pause_arith].
Qed.

Lemma costs_tryCatch n1 ms1 n2 ms2 n ms {A} (m : M A) (h : JsError -> M A) :
  costs n1 ms1 m -> (forall e, costs n2 ms2 (h e)) ->
  0 <= ms2 -> (n1 + n2 <= n)%nat -> ms1 + ms2 <= ms ->
  costs n ms (tryCatch m h).
Proof.
  intros Hm Hh H0 Hn Hms w. unfold tryCatch.
  destruct (Hm w) as (e1 & E1 & R1 & P1).
  destruct (m w) as [[a|e] w1]; simpl in *.
  - exists e1. split; [done|]. split; [lia|pause_arith].
  - destruct (Hh e w1) as (e2 & E2 & R2 & P2).
    exists (e1 ++ e2). rewrite E2, E1, app_assoc, requests_app.
    split; [done|]. split; [lia|pause_arith].
Qed.

Lemma free_bind {A B} (m : M A) (k : A -> M B) :
  costs 0 0 m -> (forall a, costs 0 0 (k a)) -> costs 0 0 (bind m k).
Proof. intros Hm Hk. by apply (costs_bind 0 0 0 0). Qed.

Lemma free_tryCatch {A} (m : M A) (h : JsError -> M A) :
  costs 0 0 m -> (forall e, costs 0 0 (h e)) -> costs 0 0 (tryCatch m h).
Proof. intros Hm Hh. by apply (costs_tryCatch 0 0 0 0). Qed.

Lemma free_fetcher_prop v k : costs 0 0 (PackageFetcher.prop v k).
Proof. apply costs_lift. Qed.

Lemma free_fetcher_andThen a b : costs 0 0 b -> costs 0 0 (PackageFetcher.andThen a b).
Proof.
  intros Hb. unfold PackageFetcher.andThen.
  destruct (JsOps.truthy a); [done|apply costs_ret].
Qed.

Lemma free_fetcher_orElse a b : costs 0 0 b -> costs 0 0 (PackageFetcher.orElse a b).
Proof.
  intros Hb. unfold PackageFetcher.orElse.
  destruct (JsOps.truthy a); [apply costs_ret|done].
Qed.

Lemma free_crawler_prop v k : costs 0 0 (DocumentationCrawler.prop v k).
Proof. apply costs_lift. Qed.

Lemma free_crawler_andThen a b :
  costs 0 0 b -> costs 0 0 (DocumentationCrawler.andThen a b).
Proof.
  intros Hb. unfold DocumentationCrawler.andThen.
  destruct (JsOps.truthy a); [done|apply costs_ret].
Qed.

Lemma fraction_range q : (0 <= Js.fraction q < 1)%Q.
Proof.
  unfold Js.fraction. pose proof (Qfloor_le q). pose proof (Qlt_floor q) as Hlt.
  rewrite inject_Z_plus in Hlt. change (inject_Z 1) with 1%Q in Hlt. lra.
Qed.

Section EffectCosts.
Context (env : Env).

Lemma costs_now : costs 0 0 (now env).
Proof. by apply costs_silent. Qed.

Lemma costs_axios r : costs 1 0 (axios env r).
Proof.
  intros w. exists [EvHttp r]. unfold axios.
  destruct (http env (ticks w) r); simpl; (split; [done|]); (split; [lia|]);
    pause_arith.
Qed.

Lemma costs_statement {A} (run : DbState -> A * DbState) :
  costs 0 0 (Database.statement env run).
Proof.
  apply costs_silent. intros w. unfold Database.statement.
  by destruct (dbFault env (ticks w)); [|destruct (run (database w))].
Qed.

(** The pause between two records: 200 ms at least, and less than
    500 ms. *)
Lemma costs_pause {A} (a : A) :
  costs 0 500 (ms <- randomDelay env ;; delay ms ;;; ret a).
Proof.
  intros w. exists [EvDelay (200 + Js.fraction (random env (ticks w)) * 300)%Q].
  split; [done|]. split; [done|]. cbn [pauses]. change (inject_Z 500) with 500%Q.
  pose proof (fraction_range (random env (ticks w))). lra.
Qed.
End EffectCosts.

(** Steps through code that sends nothing and does not pause. *)
Ltac free_steps :=
  repeat first
    [ apply costs_ret
    | apply costs_throw
    | apply costs_lift
    | apply costs_now
    | apply free_fetcher_prop
    | apply free_crawler_prop
    | apply free_fetcher_andThen
    | apply free_fetcher_orElse
    | apply free_crawler_andThen
    | apply free_bind; [|intros ?]
    | apply free_tryCatch; [|intros ?]
    | match goal with
      | |- costs _ _ (let _ := _ in _) => cbv zeta
      | |- costs _ _ (if ?b then _ else _) => destruct b
      | |- costs _ _ (match ?x with _ => _ end) => destruct x
      end ].

Section RequestCosts.
Context (env : Env).

(** One request, and a continuation that only reads the answer. *)
Lemma costs_request {A} r (k : JsVal -> M A) :
  (forall d, costs 0 0 (k d)) -> costs 1 0 (bind (axios env r) k).
Proof. intros Hk. by apply (costs_bind 1 0 0 0); [apply costs_axios|..]. Qed.

Lemma costs_guarded {A} n (m : M A) (h : JsError -> M A) :
  costs n 0 m -> (forall e, costs 0 0 (h e)) -> costs n 0 (tryCatch m h).
Proof. intros Hm Hh. apply (costs_tryCatch n 0 0 0); try done; lia. Qed.

Lemma free_findCatalogEntry version items :
  costs 0 0 (PackageFetcher.findCatalogEntry version items).
Proof. induction items as [|item rest IH]; simpl; free_steps; done. Qed.

Lemma costs_pypiSummary url : costs 1 0 (PackageFetcher.pypiSummary env url).
Proof. apply costs_request. intros d. free_steps. Qed.

Lemma costs_dispatch e n v : costs 2 0 (PackageFetcher.dispatch env e n v).
Proof.
  unfold PackageFetcher.dispatch.
  repeat match goal with
         | |- costs _ _ (if ?b then _ else _) => destruct b
         end.
  - apply (costs_weaken 1 0); [|lia|lia].
    apply costs_guarded; [apply costs_request; intros d; free_steps|intros; free_steps].
  - apply (costs_tryCatch 1 0 1 0); [apply costs_pypiSummary| |lia|lia|lia].
    intros e1. apply costs_guarded; [apply costs_pypiSummary|intros; free_steps].
  - apply (costs_weaken 1 0); [|lia|lia].
    apply costs_guarded; [apply costs_request; intros d; free_steps|intros; free_steps].
  - apply (costs_weaken 1 0); [|lia|lia].
    apply costs_guarded; [|intros; free_steps]. cbv zeta.
    match goal with |- costs _ _ (if ?b then _ else _) => destruct b end.
    + apply (costs_weaken 0 0); [apply costs_ret|lia|lia].
    + apply costs_request; intros d; free_steps.
  - apply (costs_weaken 1 0); [|lia|lia].
    apply costs_guarded; [apply costs_request; intros d; free_steps|intros; free_steps].
  - apply (costs_weaken 1 0); [|lia|lia].
    apply costs_guarded; [|intros; free_steps].
    match goal with |- costs _ _ (if ?b then _ else _) => destruct b end.
    + apply costs_guarded; [|intros; free_steps]. cbv zeta.
      match goal with |- costs _ _ (if ?b then _ else _) => destruct b end.
      * apply costs_request; intros d; free_steps.
      * apply (costs_weaken 0 0); [apply costs_ret|lia|lia].
    + apply (costs_weaken 0 0); [apply costs_ret|lia|lia].
  - apply (costs_weaken 1 0); [|lia|lia].
    apply costs_guarded; [|intros; free_steps].
    apply costs_request; intros d; free_steps; apply free_findCatalogEntry.
  - apply (costs_weaken 1 0); [|lia|lia].
    apply costs_guarded; [apply costs_request; intros d; free_steps|intros; free_steps].
  - apply (costs_weaken 0 0); [apply costs_ret|lia|lia].
Qed.
End RequestCosts.

Section CrawlerCosts.
Context (env : Env).
Import DocumentationCrawler.

Lemma costs_npmRepositoryUrl n : costs 1 0 (npmRepositoryUrl env n).
Proof.
  apply costs_guarded; [apply costs_request; intros d; free_steps|intros; free_steps].
Qed.

Lemma costs_getDocumentationUrl dep : costs 1 0 (getDocumentationUrl env dep).
Proof.
  unfold getDocumentationUrl. cbv zeta.
  repeat match goal with
         | |- costs _ _ (if ?b then _ else _) => destruct b
         end;
    try (apply (costs_weaken 0 0); [apply costs_ret|lia|lia]).
  apply (costs_bind 1 0 0 0); [apply costs_npmRepositoryUrl| |lia|lia|lia].
  intros [u|]; apply costs_ret.
Qed.

Lemma pageSchedule_cost u n :
  (1 <= n <= 3)%nat ->
  requests (pageSchedule u n 1) = n
  /\ (0 <= pauses (pageSchedule u n 1) <= inject_Z 6000)%Q.
Proof.
  destruct n as [|[|[|[|n]]]]; intros Hn; try lia;
    (split; [reflexivity|]); split; by vm_compute.
Qed.

(** Three attempts at most, with pauses of 2 s and 4 s between them. *)
Lemma costs_attempts u : costs 3 6000 (attempts env u 3 1).
Proof.
  intros w.
  destruct (attempts_run env u 3 1 w) as (n & doc & w' & Hrun & Hn & Htr & _);
    [lia|lia|].
  exists (pageSchedule u n 1). rewrite Hrun. simpl. split; [done|].
  destruct (pageSchedule_cost u n Hn) as [-> Hp]. split; [lia|exact Hp].
Qed.

Lemma costs_fetchBasicDocumentation dep :
  costs 4 6000 (fetchBasicDocumentation env dep).
Proof.
  unfold fetchBasicDocumentation.
  apply (costs_bind 1 0 3 6000); [apply costs_getDocumentationUrl| |lia|lia|lia].
  intros u. destruct (missing u); [|apply costs_attempts].
  apply (costs_weaken 0 0); [apply costs_ret|lia|lia].
Qed.

Lemma costs_crawlWithFirecrawl dep : costs 6 6000 (crawlWithFirecrawl env dep).
Proof.
  unfold crawlWithFirecrawl.
  apply (costs_bind 1 0 5 6000); [apply costs_getDocumentationUrl| |lia|lia|lia].
  intros u. destruct (missing u).
  { apply (costs_weaken 0 0); [apply costs_ret|lia|lia]. }
  cbv zeta.
  apply (costs_tryCatch 1 0 4 6000); [|intros e; apply costs_fetchBasicDocumentation|lia..].
  apply costs_request. intros d. free_steps.
Qed.

Lemma costs_emit_call e : ~ isNet e -> costs 0 0 (emit e).
Proof.
  intros He w. exists [e]. split; [done|]. split; [|split]; destruct e; by simpl in *.
Qed.

Lemma costs_crawlDocumentation dep : costs 6 6000 (crawlDocumentation env dep).
Proof.
  unfold crawlDocumentation.
  apply (costs_bind 0 0 6 6000); [apply costs_emit_call; intros []| |lia|lia|lia].
  intros _. cbv zeta.
  apply (costs_bind 0 0 6 6000); [by apply costs_silent| |lia|lia|lia].
  intros cache. destruct (cache !! _) as [cached|].
  { apply (costs_weaken 0 0); [apply costs_ret|lia|lia]. }
  apply (costs_tryCatch 6 6000 0 0); [|intros e; free_steps|lia..].
  apply (costs_bind 6 6000 0 0); [| |lia..].
  - destruct (hasApiKey env); [apply costs_crawlWithFirecrawl|].
    apply (costs_weaken 4 6000); [apply costs_fetchBasicDocumentation|lia|lia].
  - intros documentation. apply free_bind; [by apply costs_silent|].
    intros _. apply costs_ret.
Qed.

Lemma costs_fetchDescription dep : costs 2 0 (PackageFetcher.fetchDescription env dep).
Proof.
  unfold PackageFetcher.fetchDescription.
  apply (costs_bind 0 0 2 0); [apply costs_emit_call; intros []| |lia|lia|lia].
  intros _. cbv zeta.
  apply (costs_bind 0 0 2 0); [by apply costs_silent| |lia|lia|lia].
  intros cache. destruct (cache !! _) as [cached|].
  { apply (costs_weaken 0 0); [apply costs_ret|lia|lia]. }
  apply (costs_tryCatch 2 0 0 0); [|intros e; free_steps|lia..].
  apply (costs_bind 2 0 0 0); [apply costs_dispatch| |lia..].
  intros description. apply free_bind; [by apply costs_silent|].
  intros _. apply costs_ret.
Qed.

(** A turn costs what its two lookups cost, and one pause. *)
Lemma costs_processRecord n ms dep :
  costs n ms (documentationStep env dep) ->
  costs (2 + n) (ms + 500) (DocumentationMapper.processRecord env dep).
Proof.
  intros Hdoc.
  assert (0 <= ms) as H0.
  { destruct (Hdoc Sample.emptyWorld) as (evs & _ & _ & ?).
    rewrite Zle_Qle. change (inject_Z 0) with 0%Q. lra. }
  unfold DocumentationMapper.processRecord, DocumentationMapper.processOne.
  apply (costs_tryCatch (2 + n) (ms + 500) 0 0); [|intros e; free_steps|lia..].
  destruct (DocumentationMapper.isWorkspace (version dep)).
  { apply (costs_weaken 0 0); [free_steps|lia|lia]. }
  apply (costs_bind 0 0 (2 + n) (ms + 500)); [| |lia..].
  { rewrite getPackageDocumentation_statement. apply costs_statement. }
  intros [row|].
  { apply (costs_weaken 0 0); [apply costs_ret|lia|lia]. }
  apply (costs_bind 2 0 n (ms + 500)); [apply costs_fetchDescription| |lia..].
  intros description.
  apply (costs_bind n ms 0 500); [exact Hdoc| |lia..].
  intros documentation.
  apply (costs_bind 0 0 0 500); [apply costs_now| |lia..].
  intros t.
  apply (costs_bind 0 0 0 500); [| |lia..].
  { match goal with
    | |- costs _ _ (Database.storePackage env ?p) =>
        destruct (storePackage_statement env p) as [run ->]
    end.
    apply costs_statement. }
  intros id. apply costs_pause.
Qed.

Lemma costs_documentationStep dep : costs 6 6000 (documentationStep env dep).
Proof.
  unfold documentationStep. destruct (skipDocs env); [|apply costs_crawlDocumentation].
  apply (costs_weaken 0 0); [apply costs_ret|lia|lia].
Qed.

Lemma costs_processFrom n ms deps : forall acc,
  0 <= ms ->
  (forall dep, In dep deps -> costs n ms (DocumentationMapper.processRecord env dep)) ->
  costs (n * length deps) (ms * Z.of_nat (length deps))
        (DocumentationMapper.processFrom env deps acc).
Proof.
  induction deps as [|dep rest IH]; intros acc H0 Hdeps; simpl length.
  - apply (costs_weaken 0 0); [apply costs_ret|lia|lia].
  - simpl DocumentationMapper.processFrom.
    apply (costs_bind n ms (n * length rest) (ms * Z.of_nat (length rest)));
      [apply Hdeps; by left| |nia|lia|lia].
    intros entry. apply IH; [done|]. intros d Hd. apply Hdeps. by right.
Qed.
End CrawlerCosts.

(** ** The crawler *)

Section CrawlerRuns.
Context (env : Env).
Import DocumentationCrawler.

Lemma fetchBasicDocumentation_returns dep w :
  exists doc w', fetchBasicDocumentation env dep w = (Ok (Some doc), w').
Proof.
  destruct (safe_run _ w (safe_getDocumentationUrl env dep)) as (u & w1 & Hu).
  unfold fetchBasicDocumentation, bind. rewrite Hu.
  destruct (missing u); [by eexists; eexists|].
  destruct (attempts_run env (default "" u) 3 1 w1) as (n & doc & w' & Hrun & _);
    [lia|lia|].
  by exists doc, w'.
Qed.

Lemma crawlWithFirecrawl_returns dep w :
  exists doc w', crawlWithFirecrawl env dep w = (Ok (Some doc), w').
Proof.
  destruct (safe_run _ w (safe_getDocumentationUrl env dep)) as (u & w1 & Hu).
  unfold crawlWithFirecrawl, bind at 1. rewrite Hu.
  destruct (missing u); [by eexists; eexists|].
  cbv zeta. unfold tryCatch.
  match goal with
  | |- context [match ?body w1 with _ => _ end] =>
      destruct (body w1) as [[r|e] w2] eqn:Hb
  end.
  - apply bind_Ok in Hb as (data & wa & _ & Hb).
    apply bind_Ok in Hb as (success & wb & _ & Hb).
    destruct (JsOps.truthy success).
    + apply bind_Ok in Hb as (payload & wc & _ & Hb).
      apply bind_Ok in Hb as (markdown & wd & _ & Hb).
      apply bind_Ok in Hb as (t & we & _ & Hb).
      injection Hb as <- <-. by eexists; eexists.
    + apply bind_Ok in Hb as (err & wc & _ & Hb). done.
  - apply fetchBasicDocumentation_returns.
Qed.

(** A miss runs the chosen method, which returns a record, and files it. *)
Lemma crawlDocumentation_fresh dep w :
  crawlerCache w !! cacheKey (ecosystem dep) (name dep) (version dep) = None ->
  exists doc w1,
    (if hasApiKey env then crawlWithFirecrawl env dep
     else fetchBasicDocumentation env dep) (logEvent (EvCrawlDocumentation dep) w)
    = (Ok (Some doc), w1)
    /\ crawlDocumentation env dep w
       = (Ok (Some doc),
          setCrawlerCache
            (<[cacheKey (ecosystem dep) (name dep) (version dep) := Some doc]>
               (crawlerCache w)) w1).
Proof.
  intros Hmiss. rewrite (crawlDocumentation_miss env dep w Hmiss).
  assert (respects netStep (if hasApiKey env then crawlWithFirecrawl env dep
                            else fetchBasicDocumentation env dep)) as Hn.
  { destruct (hasApiKey env);
      [apply net_crawlWithFirecrawl|apply net_fetchBasicDocumentation]. }
  destruct (Hn (logEvent (EvCrawlDocumentation dep) w)) as [_ _ C _ _].
  destruct (hasApiKey env).
  - destruct (crawlWithFirecrawl_returns dep (logEvent (EvCrawlDocumentation dep) w))
      as (doc & w1 & H).
    rewrite H in C |- *. simpl in C. exists doc, w1. by rewrite C.
  - destruct (fetchBasicDocumentation_returns dep (logEvent (EvCrawlDocumentation dep) w))
      as (doc & w1 & H).
    rewrite H in C |- *. simpl in C. exists doc, w1. by rewrite C.
Qed.

(** The registry lookup of the [npm] case: one request, and a result that
    is a github.com URL or nothing. *)
Lemma npmRepositoryUrl_run n w :
  exists r,
    npmRepositoryUrl env n w
    = (Ok r, tickWorld (logEvent (EvHttp (Get ("https://registry.npmjs.org/"
                                               +:+ Js.encodeURIComponent n) 5000)) w))
    /\ forall u, r = Some u -> Js.includes "github.com" u = true.
Proof.
  unfold npmRepositoryUrl, tryCatch, bind at 1, axios.
  destruct (http env (ticks w) _) as [d|e]; [|by exists None].
  unfold bind, andThen, prop, lift, ret, throw.
  repeat match goal with
         | |- context [if ?b then _ else _] => destruct b eqn:?
         | |- context [match JsOps.getp ?v ?k with _ => _ end] =>
             destruct (JsOps.getp v k) eqn:?
         | |- context [match ?x with JStr _ => _ | _ => _ end] => destruct x
         end;
    try (by exists None);
    eexists; (split; [reflexivity|]); intros u [= <-]; done.
Qed.

Lemma supported_false e :
  supported e = false ->
  String.eqb e "npm" = false /\ String.eqb e "python" = false
  /\ String.eqb e "pypi" = false /\ String.eqb e "rust" = false
  /\ String.eqb e "java" = false /\ String.eqb e "ruby" = false
  /\ String.eqb e "go" = false /\ String.eqb e "dotnet" = false
  /\ String.eqb e "php" = false.
Proof.
  unfold supported. simpl. rewrite !orb_false_iff. tauto.
Qed.

Lemma getDocumentationUrl_unsupported dep :
  supported (ecosystem dep) = false -> getDocumentationUrl env dep = ret None.
Proof.
  intros H. apply supported_false in H as (H1 & H2 & H3 & H4 & H5 & H6 & H7 & H8 & H9).
  unfold getDocumentationUrl. cbv zeta.
  by rewrite H1, H2, H3, H4, H5, H6, H7, H8, H9.
Qed.

Lemma dispatch_unsupported e n v :
  supported e = false ->
  PackageFetcher.dispatch env e n v = ret (JStr ("Package from " +:+ e +:+ " ecosystem")).
Proof.
  intros H. apply supported_false in H as (H1 & H2 & H3 & H4 & H5 & H6 & H7 & H8 & H9).
  unfold PackageFetcher.dispatch.
  by rewrite H1, H2, H3, H4, H5, H6, H7, H8, H9.
Qed.

Lemma includes_nonempty u : Js.includes "github.com" u = true -> u <> "".
Proof. by intros H ->. Qed.

Lemma url_nonempty (c : ascii) (p s : string) : String.eqb (String c p +:+ s) "" = false.
Proof. done. Qed.

(** X7.  A call of [crawlDocumentation] that misses the cache returns a
    record (never [undefined]), whatever the network does, and files that
    very record under the key of the dependency, the record of a failure
    included; the next call with this cache returns it without sending
    anything. *)
Theorem crawler_caches_every_result dep w :
  let key := cacheKey (ecosystem dep) (name dep) (version dep) in
  crawlerCache w !! key = None ->
  exists doc w1,
    crawlDocumentation env dep w = (Ok (Some doc), w1)
    /\ crawlerCache w1 = <[key := Some doc]> (crawlerCache w)
    /\ forall w2, crawlerCache w2 = crawlerCache w1 ->
         crawlDocumentation env dep w2
         = (Ok (Some doc), logEvent (EvCrawlDocumentation dep) w2).
Proof.
  intros key Hmiss.
  destruct (crawlDocumentation_fresh dep w Hmiss) as (doc & w1 & _ & Hrun).
  eexists. eexists. split; [exact Hrun|]. split; [done|].
  intros w2 Hc. apply crawlDocumentation_hit.
  rewrite Hc. simpl. apply lookup_insert_eq.
Qed.

(** X8.  [getDocumentationUrl] never throws.  It yields a non-empty URL
    exactly for the nine ecosystems of its [switch] and [null] for any
    other; only the [npm] case sends a request, one [GET] of the registry
    entry with a timeout of 5 s, and nothing else about the world
    changes. *)
Theorem documentation_url_by_ecosystem dep w :
  exists ou w1,
    getDocumentationUrl env dep w = (Ok ou, w1)
    /\ missing ou = negb (supported (ecosystem dep))
    /\ (supported (ecosystem dep) = false -> ou = None)
    /\ (ecosystem dep <> "npm" -> w1 = w)
    /\ (ecosystem dep = "npm" ->
        w1 = tickWorld (logEvent (EvHttp (Get ("https://registry.npmjs.org/"
                                               +:+ Js.encodeURIComponent (name dep))
                                              5000)) w)).
Proof.
  destruct (supported (ecosystem dep)) eqn:Hs.
  2:{ rewrite (getDocumentationUrl_unsupported dep Hs).
      exists None, w. split_and!; try done.
      intros He. rewrite He in Hs. by vm_compute in Hs. }
  unfold getDocumentationUrl. cbv zeta.
  destruct (String.eqb (ecosystem dep) "npm") eqn:Hnpm.
  { destruct (npmRepositoryUrl_run (name dep) w) as (r & Hr & Hu).
    unfold bind. rewrite Hr.
    destruct r as [u|]; eexists; eexists; (split; [reflexivity|]); split_and!;
      try done.
    - simpl. specialize (Hu u eq_refl). by destruct u.
    - intros Hne. by apply String.eqb_neq in Hne; rewrite Hne in Hnpm.
    - intros Hne. by apply String.eqb_neq in Hne; rewrite Hne in Hnpm. }
  assert (ecosystem dep <> "npm") as Hne by by apply String.eqb_neq.
  unfold supported in Hs. simpl in Hs. rewrite Hnpm in Hs. simpl in Hs.
  repeat match goal with
         | |- context [if ?b then _ else _] => destruct b eqn:?
         end;
    try (eexists; eexists; (split; [reflexivity|]); split_and!; done).
  exfalso.
  repeat match goal with
         | H : (_ || _)%bool = false |- _ => apply orb_false_iff in H as [? ?]
         end.
  repeat match goal with
         | H : String.eqb _ _ = false |- _ => rewrite H in Hs; clear H
         end.
  done.
Qed.
End CrawlerRuns.

Lemma crawler_caches_every_result_sample :
  crawlerCache Sample.emptyWorld !! "npm:lodash:4.17.21" = None
  /\ exists doc w1,
       DocumentationCrawler.crawlDocumentation (Sample.constant (Rejected Sample.e500))
         Sample.lodash Sample.emptyWorld = (Ok (Some doc), w1)
       /\ crawlerCache w1 = <["npm:lodash:4.17.21" := Some doc]> (crawlerCache Sample.emptyWorld)
       /\ forall w2, crawlerCache w2 = crawlerCache w1 ->
            DocumentationCrawler.crawlDocumentation (Sample.constant (Rejected Sample.e500))
              Sample.lodash w2
            = (Ok (Some doc), logEvent (EvCrawlDocumentation Sample.lodash) w2).
Proof.
  split; [reflexivity|].
  apply (crawler_caches_every_result (Sample.constant (Rejected Sample.e500))
           Sample.lodash Sample.emptyWorld).
  reflexivity.
Defined.

(** The crawler on a server that answers 500 to everything: the record of
    the failure is what the cache keeps. *)
Example crawler_cache_holds_failures :
  crawlerCache (DocumentationCrawler.crawlDocumentation
                  (Sample.constant (Rejected Sample.e500)) Sample.lodash
                  Sample.emptyWorld).2
    !! "npm:lodash:4.17.21"
  = Some (Some (errorDoc "https://www.npmjs.com/package/lodash" "t2"
                         "Request failed with status code 500")).
Proof. vm_compute. reflexivity. Qed.

(** ** What a run sends *)

Section RunCosts.
Context (env : Env).
Import DocumentationMapper.

Lemma costs_dispatch_single e n v :
  String.eqb e "python" || String.eqb e "pypi" = false ->
  costs 1 0 (PackageFetcher.dispatch env e n v).
Proof.
  intros Hpy. unfold PackageFetcher.dispatch. rewrite Hpy.
  repeat match goal with
         | |- costs _ _ (if ?b then _ else _) => destruct b
         end.
  - apply costs_guarded; [apply costs_request; intros d; free_steps|intros; free_steps].
  - apply costs_guarded; [apply costs_request; intros d; free_steps|intros; free_steps].
  - apply costs_guarded; [|intros; free_steps]. cbv zeta.
    match goal with |- costs _ _ (if ?b then _ else _) => destruct b end.
    + apply (costs_weaken 0 0); [apply costs_ret|lia|lia].
    + apply costs_request; intros d; free_steps.
  - apply costs_guarded; [apply costs_request; intros d; free_steps|intros; free_steps].
  - apply costs_guarded; [|intros; free_steps].
    match goal with |- costs _ _ (if ?b then _ else _) => destruct b end.
    + apply costs_guarded; [|intros; free_steps]. cbv zeta.
      match goal with |- costs _ _ (if ?b then _ else _) => destruct b end.
      * apply costs_request; intros d; free_steps.
      * apply (costs_weaken 0 0); [apply costs_ret|lia|lia].
    + apply (costs_weaken 0 0); [apply costs_ret|lia|lia].
  - apply costs_guarded; [|intros; free_steps].
    apply costs_request; intros d; free_steps; apply free_findCatalogEntry.
  - apply costs_guarded; [apply costs_request; intros d; free_steps|intros; free_steps].
  - apply (costs_weaken 0 0); [apply costs_ret|lia|lia].
Qed.

Lemma costs_cached_lookup n dep :
  costs n 0 (PackageFetcher.dispatch env (ecosystem dep) (name dep) (version dep)) ->
  costs n 0 (PackageFetcher.fetchDescription env dep).
Proof.
  intros Hd. unfold PackageFetcher.fetchDescription.
  apply (costs_bind 0 0 n 0); [apply costs_emit_call; intros []| |lia|lia|lia].
  intros _. cbv zeta.
  apply (costs_bind 0 0 n 0); [by apply costs_silent| |lia|lia|lia].
  intros cache. destruct (cache !! _) as [cached|].
  { apply (costs_weaken 0 0); [apply costs_ret|lia|lia]. }
  apply (costs_tryCatch n 0 0 0); [|intros e; free_steps|lia..].
  apply (costs_bind n 0 0 0); [exact Hd| |lia..].
  intros description. apply free_bind; [by apply costs_silent|].
  intros _. apply costs_ret.
Qed.

Lemma costs_cached_crawl n dep :
  costs n 6000 (if DocumentationCrawler.hasApiKey env
                then DocumentationCrawler.crawlWithFirecrawl env dep
                else DocumentationCrawler.fetchBasicDocumentation env dep) ->
  costs n 6000 (DocumentationCrawler.crawlDocumentation env dep).
Proof.
  intros Hd. unfold DocumentationCrawler.crawlDocumentation.
  apply (costs_bind 0 0 n 6000); [apply costs_emit_call; intros []| |lia|lia|lia].
  intros _. cbv zeta.
  apply (costs_bind 0 0 n 6000);
    [apply (costs_silent DocumentationCrawler.readCache); done| |lia|lia|lia].
  intros cache. destruct (cache !! _) as [cached|].
  { apply (costs_weaken 0 0); [apply costs_ret|lia|lia]. }
  apply (costs_tryCatch n 6000 0 0); [|intros e; free_steps|lia..].
  apply (costs_bind n 6000 0 0); [exact Hd| |lia..].
  intros documentation. apply free_bind; [by apply costs_silent|].
  intros _. apply costs_ret.
Qed.

(** X9.  A description lookup never pauses and sends at most two
    requests; two only for a Python package, whose versioned URL has a
    fallback, and at most one for any other ecosystem. *)
Theorem description_lookup_cost dep :
  costs 2 0 (PackageFetcher.fetchDescription env dep)
  /\ (ecosystem dep <> "python" -> ecosystem dep <> "pypi" ->
      costs 1 0 (PackageFetcher.fetchDescription env dep)).
Proof.
  split.
  - apply costs_cached_lookup, costs_dispatch.
  - intros H1 H2. apply costs_cached_lookup, costs_dispatch_single.
    apply String.eqb_neq in H1, H2. by rewrite H1, H2.
Qed.

(** X10.  A documentation lookup sends at most six requests and pauses
    for at most 6 s in all (2 s and 4 s between the three attempts on a
    page); without a Firecrawl key it sends at most four. *)
Theorem documentation_lookup_cost dep :
  costs 6 6000 (DocumentationCrawler.crawlDocumentation env dep)
  /\ (DocumentationCrawler.hasApiKey env = false ->
      costs 4 6000 (DocumentationCrawler.crawlDocumentation env dep)).
Proof.
  split.
  - apply costs_cached_crawl.
    destruct (DocumentationCrawler.hasApiKey env); [apply costs_crawlWithFirecrawl|].
    apply (costs_weaken 4 6000); [apply costs_fetchBasicDocumentation|lia|lia].
  - intros Hk. apply costs_cached_crawl. rewrite Hk.
    apply costs_fetchBasicDocumentation.
Qed.

(** X11.  A run over [n] records sends at most [8 n] requests and pauses
    for at most [6.5 n] seconds: 6 s of retries and a pause of less than
    500 ms, not a whole number of them, for each record.  With
    documentation switched off it sends at most [2 n] requests and pauses
    for at most half a second per record. *)
Theorem batch_cost_is_bounded deps :
  costs (8 * length deps) (6500 * Z.of_nat (length deps))
        (processDependencies env deps)
  /\ (skipDocs env = true ->
      costs (2 * length deps) (500 * Z.of_nat (length deps))
            (processDependencies env deps)).
Proof.
  split.
  - apply costs_processFrom; [lia|]. intros dep _.
    apply (costs_processRecord env 6 6000), costs_documentationStep.
  - intros Hskip. apply costs_processFrom; [lia|]. intros dep _.
    apply (costs_processRecord env 0 0). unfold documentationStep. rewrite Hskip.
    apply costs_ret.
Qed.

Lemma requests_none evs : Forall (fun e => ~ isHttp e) evs -> requests evs = O.
Proof.
  induction 1 as [|e evs He _ IH]; [done|]. destruct e; simpl in *; tauto.
Qed.

Lemma quiet_fetchDescription dep :
  supported (ecosystem dep) = false ->
  respects (traceStep (fun e => ~ isHttp e)) (PackageFetcher.fetchDescription env dep).
Proof.
  intros Hs w.
  destruct (fetcherCache w !! PackageFetcher.cacheKey (ecosystem dep) (name dep)
                                (version dep)) as [v|] eqn:H.
  - rewrite (fetchDescription_hit env dep w v H). split.
    exists [EvFetchDescription dep]. split; [done|]. repeat constructor. by intros [].
  - rewrite (fetchDescription_miss env dep w H), dispatch_unsupported by done.
    split. exists [EvFetchDescription dep]. split; [done|].
    repeat constructor. by intros [].
Qed.

Lemma crawlDocumentation_unsupported dep w :
  supported (ecosystem dep) = false ->
  crawlerCache w !! DocumentationCrawler.cacheKey (ecosystem dep) (name dep) (version dep)
  = None ->
  exists w', DocumentationCrawler.crawlDocumentation env dep w
             = (Ok (Some DocumentationCrawler.noUrlNote), w')
             /\ trace w' = trace w ++ [EvCrawlDocumentation dep].
Proof.
  intros Hs H. rewrite (crawlDocumentation_miss env dep w H).
  unfold DocumentationCrawler.crawlWithFirecrawl,
    DocumentationCrawler.fetchBasicDocumentation.
  rewrite (getDocumentationUrl_unsupported env dep Hs).
  destruct (DocumentationCrawler.hasApiKey env); simpl; by eexists.
Qed.

Lemma quiet_crawlDocumentation dep :
  supported (ecosystem dep) = false ->
  respects (traceStep (fun e => ~ isHttp e))
           (DocumentationCrawler.crawlDocumentation env dep).
Proof.
  intros Hs w.
  destruct (crawlerCache w !! DocumentationCrawler.cacheKey (ecosystem dep) (name dep)
                                (version dep)) as [v|] eqn:H.
  - rewrite (crawlDocumentation_hit env dep w v H). split.
    exists [EvCrawlDocumentation dep]. split; [done|]. repeat constructor. by intros [].
  - destruct (crawlDocumentation_unsupported dep w Hs H) as (w' & -> & Ht).
    split. exists [EvCrawlDocumentation dep]. split; [done|].
    repeat constructor. by intros [].
Qed.

(** X12.  Records of an ecosystem that the two [switch] statements do not
    know cost no request: a run over such records sends nothing, the
    description is the fixed sentence naming the ecosystem and the
    documentation is the note that no URL is available. *)
Theorem unknown_ecosystem_costs_no_request deps w :
  (forall dep, In dep deps -> supported (ecosystem dep) = false) ->
  (exists evs, trace (processDependencies env deps w).2 = trace w ++ evs
               /\ requests evs = O)
  /\ forall dep w', In dep deps ->
       (fetcherCache w' !! PackageFetcher.cacheKey (ecosystem dep) (name dep)
                             (version dep) = None ->
        (PackageFetcher.fetchDescription env dep w').1
        = Ok (JStr ("Package from " +:+ ecosystem dep +:+ " ecosystem")))
       /\ (crawlerCache w' !! DocumentationCrawler.cacheKey (ecosystem dep) (name dep)
                                (version dep) = None ->
           (DocumentationCrawler.crawlDocumentation env dep w').1
           = Ok (Some DocumentationCrawler.noUrlNote)).
Proof.
  intros Hdeps. split.
  - assert (respects (traceStep (fun e => ~ isHttp e)) (processDependencies env deps))
      as Hq.
    { apply trace_processFrom; [by intros ms []|].
      intros dep Hin. split; [by apply quiet_fetchDescription, Hdeps|].
      unfold documentationStep. destruct (skipDocs env); [apply respects_ret, _|].
      by apply quiet_crawlDocumentation, Hdeps. }
    destruct (Hq w) as [(evs & E & F)]. exists evs. split; [done|].
    by apply requests_none.
  - intros dep w' Hin. split; intros Hmiss.
    + rewrite (fetchDescription_miss env dep w' Hmiss), dispatch_unsupported
        by by apply Hdeps.
      done.
    + destruct (crawlDocumentation_unsupported dep w' (Hdeps dep Hin) Hmiss)
        as (w1 & -> & _).
      done.
Qed.

End RunCosts.

Lemma unknown_ecosystem_costs_no_request_sample :
  let cobol := mkDep "cobol" "payroll" "1.0" "" "" false in
  let env := Sample.constant (Rejected Sample.e500) in
  (forall dep, In dep [cobol] -> supported (ecosystem dep) = false)
  /\ exists evs,
       trace (DocumentationMapper.processDependencies env [cobol] Sample.emptyWorld).2
       = trace Sample.emptyWorld ++ evs
       /\ requests evs = O.
Proof.
  intros cobol env.
  assert (forall dep, In dep [cobol] -> supported (ecosystem dep) = false) as H.
  { intros dep [<-|[]]. reflexivity. }
  split; [exact H|].
  exact (proj1 (unknown_ecosystem_costs_no_request env [cobol] Sample.emptyWorld H)).
Defined.

Lemma description_lookup_cost_sample :
  ecosystem Sample.lodash <> "python" /\ ecosystem Sample.lodash <> "pypi"
  /\ costs 1 0 (PackageFetcher.fetchDescription Sample.registryDown Sample.lodash).
Proof.
  assert (ecosystem Sample.lodash <> "python") as H1 by done.
  assert (ecosystem Sample.lodash <> "pypi") as H2 by done.
  split; [exact H1|]. split; [exact H2|].
  exact (proj2 (description_lookup_cost Sample.registryDown Sample.lodash) H1 H2).
Defined.

Lemma documentation_lookup_cost_sample :
  DocumentationCrawler.hasApiKey Sample.registryDown = false
  /\ costs 4 6000 (DocumentationCrawler.crawlDocumentation Sample.registryDown Sample.lodash).
Proof.
  split; [reflexivity|].
  exact (proj2 (documentation_lookup_cost Sample.registryDown Sample.lodash) eq_refl).
Defined.

Lemma batch_cost_is_bounded_sample :
  let env := mkEnv (fun _ _ => Rejected Sample.e500) (fun _ => None) Sample.stamp
                   (fun _ => (42 # 100)%Q) None None true SQLite in
  skipDocs env = true
  /\ costs 4 1000 (DocumentationMapper.processDependencies env
                     [Sample.lodash; Sample.requests]).
Proof.
  intros env. split; [reflexivity|].
  exact (proj2 (batch_cost_is_bounded env [Sample.lodash; Sample.requests]) eq_refl).
Defined.

(** A pause between two records that is not a whole number of
    milliseconds: 499.7 ms. *)
Example pause_between_records_sample :
  let env := mkEnv (fun _ _ => Rejected Sample.e500) (fun _ => None) Sample.stamp
                   (fun _ => (999 # 1000)%Q) None None true SQLite in
  (pauses (trace (DocumentationMapper.processDependencies env [Sample.lodash]
                    Sample.emptyWorld).2) == 4997 # 10)%Q.
Proof. reflexivity. Qed.

(** ** Firecrawl *)

Section Firecrawl.
Context (env : Env).
Import DocumentationCrawler.

Lemma crawlWithFirecrawl_request dep w u w1 :
  getDocumentationUrl env dep w = (Ok (Some u), w1) -> u <> "" ->
  crawlWithFirecrawl env dep w
  = tryCatch
      (data <- axios env (Post (firecrawlBaseUrl env +:+ "/v1/scrape") u 30000) ;;
       success <- prop data "success" ;;
       if JsOps.truthy success then
         payload <- prop data "data" ;;
         markdown <- prop payload "markdown" ;;
         t <- now env ;;
         ret (Some (mkDoc (Some u) (Some markdown) (Some t) (Some "firecrawl") None None))
       else
         e <- prop data "error" ;;
         throw (JsOps.Error (JsOps.toString (JsOps.or e (JStr "Firecrawl request failed")))))
      (fun error => fetchBasicDocumentation env dep) w1.
Proof.
  intros Hu Hne. unfold crawlWithFirecrawl, bind at 1. rewrite Hu.
  apply String.eqb_neq in Hne. simpl. by rewrite Hne.
Qed.

(** X14.  With a documentation URL [u] at hand, [crawlWithFirecrawl] posts
    [u] to [/v1/scrape] with a timeout of 30 s.  A rejected request and an
    answer whose [success] is falsy both end in the raw fetch, run after
    the request; an answer [{success, data}] with [success] truthy is
    returned as the record of source [firecrawl] whose content is
    [data.markdown] as it came, whatever it is and however long. *)
Theorem firecrawl_scrape_or_fallback dep w u w1 :
  getDocumentationUrl env dep w = (Ok (Some u), w1) -> u <> "" ->
  let req := Post (firecrawlBaseUrl env +:+ "/v1/scrape") u 30000 in
  let w2 := tickWorld (logEvent (EvHttp req) w1) in
  (forall e, http env (ticks w1) req = Rejected e ->
     crawlWithFirecrawl env dep w = fetchBasicDocumentation env dep w2)
  /\ (forall fields,
        http env (ticks w1) req = Response (JObj fields) ->
        JsOps.truthy (JsOps.assoc "success" fields) = false ->
        crawlWithFirecrawl env dep w = fetchBasicDocumentation env dep w2)
  /\ (forall fields payload,
        http env (ticks w1) req = Response (JObj fields) ->
        JsOps.truthy (JsOps.assoc "success" fields) = true ->
        JsOps.assoc "data" fields = JObj payload ->
        crawlWithFirecrawl env dep w
        = (Ok (Some (mkDoc (Some u) (Some (JsOps.assoc "markdown" payload))
                           (Some (clock env (ticks w2))) (Some "firecrawl") None None)),
           tickWorld w2)).
Proof.
  intros Hu Hne req w2. rewrite (crawlWithFirecrawl_request dep w u w1 Hu Hne).
  subst req w2. cbv zeta. unfold tryCatch. split_and!.
  - intros e He. unfold bind at 1. unfold axios. by rewrite He.
  - intros fields He Hs. unfold bind at 1. unfold axios. rewrite He.
    unfold bind, prop, lift. simpl. by rewrite Hs.
  - intros fields payload He Hs Hd. unfold bind at 1. unfold axios. rewrite He.
    unfold bind, prop, lift. simpl. rewrite Hs. simpl. by rewrite Hd.
Qed.
End Firecrawl.

Lemma firecrawl_scrape_or_fallback_sample :
  let env := mkEnv (fun _ _ => Response (JObj [("success", JBool true);
                                               ("data", JObj [("markdown", JStr "# requests")])]))
                   (fun _ => None) Sample.stamp (fun _ => (42 # 100)%Q) (Some "fc-key") None false
                   SQLite in
  let u := "https://pypi.org/project/requests/2.31.0/" in
  DocumentationCrawler.getDocumentationUrl env Sample.requests Sample.emptyWorld
  = (Ok (Some u), Sample.emptyWorld)
  /\ u <> ""
  /\ DocumentationCrawler.crawlWithFirecrawl env Sample.requests Sample.emptyWorld
     = (Ok (Some (mkDoc (Some u) (Some (JStr "# requests")) (Some "t1") (Some "firecrawl")
                        None None)),
        mkWorld (mkDb [] 0) ∅ ∅
                [EvHttp (Post "https://api.firecrawl.dev/v1/scrape" u 30000)] 2).
Proof.
  intros env u.
  assert (DocumentationCrawler.getDocumentationUrl env Sample.requests Sample.emptyWorld
          = (Ok (Some u), Sample.emptyWorld)) as H1 by reflexivity.
  assert (u <> "") as H2 by done.
  split; [exact H1|]. split; [exact H2|].
  exact (proj2 (proj2 (firecrawl_scrape_or_fallback env Sample.requests Sample.emptyWorld
                         u Sample.emptyWorld H1 H2))
           _ _ eq_refl eq_refl eq_refl).
Defined.

(** ** Cache keys *)

Section CacheKeys.

Lemma colon_split (a b r1 r2 : string) :
  noColon a = true -> noColon b = true ->
  a +:+ ":" +:+ r1 = b +:+ ":" +:+ r2 -> a = b /\ r1 = r2.
Proof.
  revert b. induction a as [|c a IH]; intros [|d b] Ha Hb H.
  - by injection H.
  - injection H as <- _. done.
  - injection H as -> _. done.
  - rewrite !app_String in H. injection H as <- H.
    simpl in Ha, Hb. apply andb_true_iff in Ha as [_ Ha].
    apply andb_true_iff in Hb as [_ Hb].
    destruct (IH b Ha Hb H) as [-> ->]. done.
Qed.

(** X15.  The key under which both caches file a result identifies the
    dependency as long as neither ecosystem nor name contains a colon:
    equal keys then mean equal ecosystem, name and version. *)
Theorem cache_key_identifies_the_triple e n v e' n' v' :
  noColon e = true -> noColon n = true ->
  noColon e' = true -> noColon n' = true ->
  PackageFetcher.cacheKey e n v = PackageFetcher.cacheKey e' n' v'
  \/ DocumentationCrawler.cacheKey e n v = DocumentationCrawler.cacheKey e' n' v' ->
  (e, n, v) = (e', n', v').
Proof.
  intros He Hn He' Hn' H.
  assert (e +:+ ":" +:+ n +:+ ":" +:+ v = e' +:+ ":" +:+ n' +:+ ":" +:+ v') as Hk.
  { by destruct H. }
  apply colon_split in Hk as [-> Hk]; [|done|done].
  apply colon_split in Hk as [-> ->]; done.
Qed.
End CacheKeys.

Lemma cache_key_identifies_the_triple_sample :
  noColon "npm" = true /\ noColon "lodash" = true
  /\ ("npm", "lodash", "4.17.21") = ("npm", "lodash", "4.17.21").
Proof.
  split; [reflexivity|]. split; [reflexivity|].
  apply (cache_key_identifies_the_triple "npm" "lodash" "4.17.21" "npm" "lodash" "4.17.21");
    try reflexivity.
  left. reflexivity.
Defined.

(** Without the proviso two dependencies can share an entry: a Maven
    coordinate has a colon in its name. *)
Example cache_key_collision :
  PackageFetcher.cacheKey "java" "org.acme:core" "1.0"
  = PackageFetcher.cacheKey "java" "org.acme" "core:1.0".
Proof. reflexivity. Qed.

(** ** URLs *)

Section Urls.
Import Js.

Lemma string_app_assoc (a b c : string) : (a +:+ b) +:+ c = a +:+ b +:+ c.
Proof. induction a as [|x a IH]; [done|]. by rewrite !app_String, IH. Qed.

Lemma encodeURIComponent_app a b :
  encodeURIComponent (a +:+ b) = encodeURIComponent a +:+ encodeURIComponent b.
Proof.
  induction a as [|x a IH]; [done|].
  rewrite app_String. simpl. by rewrite IH, string_app_assoc.
Qed.

Lemma encodeURIComponent_unreserved s :
  allChars isUnreserved s = true -> encodeURIComponent s = s.
Proof.
  induction s as [|c s IH]; [done|]. simpl.
  intros [Hc Hs]%andb_true_iff. unfold encodeChar. by rewrite Hc, IH.
Qed.

Lemma unreserved_not_colon c : isUnreserved c = true -> Ascii.eqb ":" c = false.
Proof.
  intros H. destruct (Ascii.eqb_spec ":" c) as [<-|]; [|done]. by vm_compute in H.
Qed.

Lemma indexOf_char_cons x c r :
  indexOf (String x "") (String c r)
  = if Ascii.eqb x c then Some O else option_map S (indexOf (String x "") r).
Proof. simpl. destruct r; by rewrite andb_true_r. Qed.

Lemma replaceFirst_colon g a :
  allChars isUnreserved g = true ->
  replaceFirst ":" "/" (g +:+ ":" +:+ a) = g +:+ "/" +:+ a.
Proof.
  intros Hg. unfold replaceFirst.
  assert (indexOf ":" (g +:+ ":" +:+ a) = Some (String.length g)) as ->.
  { induction g as [|c g IH]; [by destruct a|].
    simpl in Hg. apply andb_true_iff in Hg as [Hc Hg].
    rewrite app_String, indexOf_char_cons, (unreserved_not_colon c Hc).
    by rewrite (IH Hg). }
  clear Hg. induction g as [|c g IH]; [done|].
  rewrite !app_String. simpl. rewrite app_String. f_equal. exact IH.
Qed.
End Urls.

Section MavenUrl.
Context (env : Env).

(** X16.  The documentation URL of a Maven coordinate [group:artifact]
    carries the separator percent-escaped: the colon is replaced by a
    slash before the whole name goes through [encodeURIComponent], so the
    URL ends in [group%2Fartifact/version]. *)
Theorem maven_url_escapes_the_separator dep g a w :
  ecosystem dep = "java" ->
  name dep = g +:+ ":" +:+ a ->
  Js.allChars Js.isUnreserved g = true ->
  Js.allChars Js.isUnreserved a = true ->
  DocumentationCrawler.getDocumentationUrl env dep w
  = (Ok (Some ("https://mvnrepository.com/artifact/" +:+ g +:+ "%2F" +:+ a +:+ "/"
               +:+ Js.encodeURIComponent (version dep))), w).
Proof.
  intros He Hn Hg Ha. unfold DocumentationCrawler.getDocumentationUrl.
  rewrite He, Hn. cbv zeta. simpl String.eqb. cbv iota. simpl orb. cbv iota.
  rewrite (replaceFirst_colon g a Hg).
  rewrite !encodeURIComponent_app, (encodeURIComponent_unreserved g Hg),
    (encodeURIComponent_unreserved a Ha).
  unfold ret. rewrite !string_app_assoc. reflexivity.
Qed.
End MavenUrl.

Lemma maven_url_escapes_the_separator_sample :
  let dep := mkDep "java" "org.acme:core" "1.0" "maven_central" "/repo/pom.xml" false in
  Js.allChars Js.isUnreserved "org.acme" = true
  /\ Js.allChars Js.isUnreserved "core" = true
  /\ DocumentationCrawler.getDocumentationUrl Sample.registryDown dep Sample.emptyWorld
     = (Ok (Some "https://mvnrepository.com/artifact/org.acme%2Fcore/1.0"),
        Sample.emptyWorld).
Proof.
  intros dep. split; [reflexivity|]. split; [reflexivity|].
  exact (maven_url_escapes_the_separator Sample.registryDown dep "org.acme" "core"
           Sample.emptyWorld eq_refl eq_refl eq_refl eq_refl).
Defined.

(** ** Cleaning cleaned text *)

Section Idempotence.
Import Js DocumentationCrawler.

Lemma replaceAll_none m repl s :
  (forall n, m (drop n s) = None) -> replaceAll m repl s = s.
Proof.
  induction s as [|c r IH]; intros H.
  - specialize (H O). simpl in H. unfold replaceAll. simpl. by rewrite H.
  - rewrite replaceAll_copy by (left; apply (H O)).
    f_equal. apply IH. intros n. apply (H (S n)).
Qed.

Lemma eqCI_lt d : eqCI "<" d = true -> d = "<"%char.
Proof.
  unfold eqCI. intros H. apply Ascii.eqb_eq in H.
  destruct d as [[] [] [] [] [] [] [] []]; vm_compute in H; congruence.
Qed.

Lemma eqCI_not_gt t d : eqCI t ">" = false -> eqCI t d = true -> Ascii.eqb ">" d = false.
Proof.
  unfold eqCI. intros H1 H2. apply Ascii.eqb_eq in H2.
  destruct (Ascii.eqb_spec ">" d) as [<-|]; [|done].
  rewrite H2 in H1. by rewrite Ascii.eqb_refl in H1.
Qed.

Lemma indexOf_gt_drop k r j :
  indexOf ">" (drop k r) = Some j -> exists i, indexOf ">" r = Some i.
Proof.
  revert r j. induction k as [|k IH]; intros r j; [by exists j|].
  destruct r as [|c r]; [done|]. simpl drop. intros H.
  destruct (IH r j H) as [i Hi]. rewrite indexOf_gt_cons, Hi.
  destruct (Ascii.eqb ">" c); by eexists.
Qed.

(** A block of [<tag ...>...</tag>] begins with a tag. *)
Lemma matchBlock_matchTag t tag s n :
  eqCI t ">" = false ->
  matchBlock (String t tag) s = Some n -> matchTag s <> None.
Proof.
  intros Ht. unfold matchBlock. cbv zeta.
  destruct (startsWithCI ("<" +:+ String t tag) s) eqn:Hs; [|done].
  destruct s as [|d s]; [done|]. rewrite app_String, app_empty in Hs.
  simpl in Hs. apply andb_true_iff in Hs as [Hd Hs]. apply eqCI_lt in Hd as ->.
  destruct s as [|d s]; [done|]. simpl in Hs. apply andb_true_iff in Hs as [Hd _].
  rewrite app_String, app_empty. simpl String.length. simpl drop.
  destruct (indexOf ">" (drop (String.length tag) s)) as [j|] eqn:Hj; [|done].
  intros _. destruct (indexOf_gt_drop _ _ _ Hj) as [i Hi].
  rewrite matchTag_None, indexOf_gt_cons, (eqCI_not_gt t d Ht Hd), Hi. simpl.
  by intros [?|[?|?]].
Qed.

Lemma tagFree_head s : tagFree s = true -> matchTag s = None.
Proof. destruct s as [|c r]; [done|]. by intros [H _]%tagFree_cons. Qed.

Lemma blocks_none t tag s :
  eqCI t ">" = false -> tagFree s = true ->
  replaceAll (matchBlock (String t tag)) "" s = s.
Proof.
  intros Ht Hs. apply replaceAll_none. intros n.
  destruct (matchBlock (String t tag) (drop n s)) as [k|] eqn:Hk; [|done].
  apply (matchBlock_matchTag t tag _ _ Ht) in Hk.
  by rewrite (tagFree_head _ (tagFree_drop n s Hs)) in Hk.
Qed.

Lemma tags_none s : tagFree s = true -> replaceAll matchTag " " s = s.
Proof.
  intros Hs. apply replaceAll_none. intros n. by apply tagFree_head, tagFree_drop.
Qed.

Lemma spaces_fixed s : collapsed s = true -> replaceAll matchSpaces " " s = s.
Proof.
  induction s as [|c r IH]; intros H.
  - by apply replaceAll_nil, bounded_matchSpaces.
  - pose proof (collapsed_cons _ _ H) as Hr. simpl in H.
    apply andb_true_iff in H as [H _].
    destruct (isSpace c) eqn:Hc.
    + apply andb_true_iff in H as [Hsp Hnext]. apply Ascii.eqb_eq in Hsp as ->.
      assert (matchSpaces (String " " r) = Some 1%nat) as Hm.
      { unfold matchSpaces. simpl. destruct r as [|d r]; [done|].
        simpl. by apply negb_true_iff in Hnext as ->. }
      rewrite (replaceAll_match _ _ bounded_matchSpaces _ _ Hm). simpl drop.
      by rewrite IH.
    + rewrite replaceAll_copy; [by rewrite IH|].
      left. unfold matchSpaces. simpl. by rewrite Hc.
Qed.

Lemma dropWhile_head s : headNonSpace s = true -> dropWhile isSpace s = s.
Proof. destruct s as [|c r]; [done|]. simpl. by intros ->%negb_true_iff. Qed.

Lemma allChars_dropWhileEnd p s :
  allChars p s = false -> allChars p (dropWhileEnd p s) = false.
Proof.
  induction s as [|c r IH]; [done|]. simpl. intros H. rewrite H. simpl.
  apply andb_false_iff in H as [H|H]; [by rewrite H|].
  rewrite (IH H). apply andb_false_r.
Qed.

Lemma dropWhileEnd_idem p s : dropWhileEnd p (dropWhileEnd p s) = dropWhileEnd p s.
Proof.
  induction s as [|c r IH]; [done|]. simpl.
  destruct (p c && allChars p r) eqn:H; [done|]. simpl. rewrite IH.
  apply andb_false_iff in H as [H|H]; [by rewrite H|].
  by rewrite (allChars_dropWhileEnd p r H), andb_false_r.
Qed.

Lemma headNonSpace_dropWhileEnd s :
  headNonSpace s = true -> headNonSpace (dropWhileEnd isSpace s) = true.
Proof.
  destruct s as [|c r]; [done|]. simpl. intros H.
  apply negb_true_iff in H. rewrite H. simpl. by rewrite H.
Qed.

Lemma take_length s : take (String.length s) s = s.
Proof. induction s as [|c r IH]; [done|]. simpl. by rewrite IH. Qed.

Lemma stripMarkup_clean html :
  let t := stripMarkup html in
  tagFree t = true /\ collapsed t = true /\ headNonSpace t = true
  /\ dropWhileEnd isSpace t = t.
Proof.
  simpl.
  destruct (stripMarkup_spec html (String.length (stripMarkup html))) as (_ & Ht & Hc).
  unfold substring0 in Ht, Hc. rewrite take_length in Ht, Hc.
  split; [done|]. split; [done|]. unfold stripMarkup, trim. split.
  - apply headNonSpace_dropWhileEnd, headNonSpace_dropWhile.
  - apply dropWhileEnd_idem.
Qed.

(** X17.  Cleaning is idempotent: the text [extractTextFromHTML] returns
    goes through it unchanged, so what the raw fetch stores is a fixed
    point of the four replacements and the trim. *)
Theorem cleaning_is_idempotent html text :
  extractTextFromHTML html = Ok text ->
  extractTextFromHTML (JStr text) = Ok text.
Proof.
  destruct html; try done. intros [= <-]. simpl. f_equal.
  destruct (stripMarkup_clean s) as (Ht & Hc & Hh & He).
  set (t := stripMarkup s) in *. unfold stripMarkup at 1.
  rewrite (blocks_none "s" "cript" t), (blocks_none "s" "tyle" t),
    (tags_none t), (spaces_fixed t) by done.
  unfold trim. by rewrite (dropWhile_head t Hh).
Qed.
End Idempotence.

Lemma cleaning_is_idempotent_sample :
  DocumentationCrawler.extractTextFromHTML
    (JStr "<p>Hello   <b>world</b></p><script>x()</script>") = Ok "Hello world"
  /\ DocumentationCrawler.extractTextFromHTML (JStr "Hello world") = Ok "Hello world".
Proof.
  assert (DocumentationCrawler.extractTextFromHTML
            (JStr "<p>Hello   <b>world</b></p><script>x()</script>") = Ok "Hello world")
    as H by reflexivity.
  split; [exact H|].
  exact (cleaning_is_idempotent _ _ H).
Defined.

(** ** Line-based manifests *)

Section SpanFacts.
Import Js.

Lemma length_take_le n s : (n <= String.length s)%nat -> String.length (take n s) = n.
Proof.
  revert s. induction n as [|n IH]; intros [|c r]; simpl; try done; try lia.
  intros H. rewrite IH; lia.
Qed.

Lemma take_app_length a b : take (String.length a) (a +:+ b) = a.
Proof.
  induction a as [|c a IH]; [by destruct b|]. rewrite app_String. simpl. by rewrite IH.
Qed.

Lemma drop_app_length a b : drop (String.length a) (a +:+ b) = b.
Proof. induction a as [|c a IH]; [done|]. rewrite app_String. simpl. exact IH. Qed.

Lemma spanLength_app p a b :
  allChars p a = true ->
  match b with String c _ => p c = false | EmptyString => True end ->
  spanLength p (a +:+ b) = String.length a.
Proof.
  intros Ha Hb. induction a as [|c a IH].
  - rewrite app_empty. destruct b as [|c b]; [done|]. simpl. by rewrite Hb.
  - simpl in Ha. apply andb_true_iff in Ha as [Hc Ha].
    rewrite app_String. simpl. by rewrite Hc, IH.
Qed.

Lemma spanLength_pos p s :
  spanLength p s <> O -> exists c r, s = String c r /\ p c = true.
Proof.
  destruct s as [|c r]; [done|]. simpl. destruct (p c) eqn:H; [|done]. by exists c, r.
Qed.

Lemma take_nonempty n s : n <> O -> s <> "" -> take n s <> "".
Proof. by destruct n, s. Qed.

Lemma length_nonempty s : String.length s <> O -> s <> "".
Proof. by destruct s. Qed.

Lemma string_app_nil_r s : s +:+ "" = s.
Proof. induction s as [|c s IH]; [done|]. by rewrite app_String, IH. Qed.

Lemma splitAcc_no_sep sep cur s :
  allChars (fun c => negb (Ascii.eqb c sep)) s = true ->
  splitAcc sep cur s = [cur +:+ s].
Proof.
  revert cur. induction s as [|c s IH]; intros cur H.
  - simpl. by rewrite string_app_nil_r.
  - simpl in H. apply andb_true_iff in H as [Hc H]. apply negb_true_iff in Hc.
    simpl. rewrite Hc, IH by done. by rewrite string_app_assoc.
Qed.

Lemma allChars_app p a b : allChars p (a +:+ b) = allChars p a && allChars p b.
Proof.
  induction a as [|c a IH]; [done|]. rewrite app_String. simpl.
  by rewrite IH, andb_assoc.
Qed.

Lemma allChars_impl (p q : ascii -> bool) s :
  (forall c, p c = true -> q c = true) -> allChars p s = true -> allChars q s = true.
Proof.
  intros H. induction s as [|c s IH]; [done|]. simpl.
  intros [Hc Hs]%andb_true_iff. by rewrite (H c Hc), IH.
Qed.

Lemma startsWith_char x c r : startsWith (String x "") (String c r) = Ascii.eqb x c.
Proof. simpl. apply andb_true_r. Qed.

Lemma trim_nonempty c r : isSpace c = false -> trim (String c r) <> "".
Proof. intros H. unfold trim. simpl. rewrite H. simpl. by rewrite H. Qed.
End SpanFacts.

Section Requirements.
Import Js DependencyScanner.

Lemma nameChar_not_operator c : isNameChar c = true -> isOperatorChar c = false.
Proof.
  destruct c as [[] [] [] [] [] [] [] []]; vm_compute; congruence.
Qed.

Lemma nameChar_plain c :
  isNameChar c = true ->
  isSpace c = false /\ Ascii.eqb c LF = false /\ Ascii.eqb "#" c = false.
Proof.
  destruct c as [[] [] [] [] [] [] [] []]; vm_compute; intuition congruence.
Qed.

Lemma operatorChar_plain c :
  isOperatorChar c = true -> isNameChar c = false /\ Ascii.eqb c LF = false.
Proof.
  destruct c as [[] [] [] [] [] [] [] []]; vm_compute; intuition congruence.
Qed.

Lemma matchRequirement_Some line n v :
  matchRequirement line = Some (n, v) -> n <> "" /\ v <> "".
Proof.
  unfold matchRequirement. cbv zeta.
  set (k1 := spanLength isNameChar line).
  set (afterName := drop k1 line).
  set (k2 := spanLength isOperatorChar afterName).
  destruct (k1 =? 0)%nat eqn:H1; [done|]. apply Nat.eqb_neq in H1.
  destruct (k2 =? 0)%nat eqn:H2; [done|]. apply Nat.eqb_neq in H2. cbn [orb].
  assert (take k1 line <> "") as Hn.
  { apply take_nonempty; [done|].
    destruct (spanLength_pos _ _ H1) as (c & r & -> & _). done. }
  destruct (String.eqb_spec (drop k2 afterName) "") as [He|He].
  - destruct (2 <=? k2)%nat eqn:Hk; cbv beta iota; [|done]. apply Nat.leb_le in Hk.
    intros [= <- <-]. split; [done|].
    apply length_nonempty. unfold lastChar.
    rewrite length_drop, length_take_le by apply spanLength_le. lia.
  - cbv beta iota. destruct (allChars _ _); [|done]. by intros [= <- <-].
Qed.

Lemma requirement_scanned filePath line :
  keepLine line = true -> scanned "pypi" "pypi" filePath (requirement filePath line).
Proof.
  intros Hk. unfold requirement.
  destruct (matchRequirement line) as [[n v]|] eqn:Hm.
  - destruct (matchRequirement_Some _ _ _ Hm). by repeat split.
  - repeat split; [|done]. simpl.
    apply andb_true_iff in Hk as [Hk _]. apply negb_true_iff in Hk.
    by apply String.eqb_neq in Hk.
Qed.

(** X18.  [parseRequirementsTxt] makes one record of every line that is
    not blank and does not begin with [#], comment lines that are
    indented included; each record has a name and a version that are not
    empty. *)
Theorem requirements_one_record_per_line filePath content :
  length (parseRequirementsTxt filePath content)
  = length (List.filter keepLine (lines content))
  /\ Forall (scanned "pypi" "pypi" filePath) (parseRequirementsTxt filePath content).
Proof.
  unfold parseRequirementsTxt. split; [apply length_map|].
  apply List.Forall_forall. intros d (line & <- & Hin)%in_map_iff.
  apply filter_In in Hin as [_ Hk]. by apply requirement_scanned.
Qed.

Lemma lines_single s :
  allChars (fun c => negb (Ascii.eqb c LF)) s = true -> lines s = [s].
Proof. intros H. unfold lines, split. by rewrite splitAcc_no_sep. Qed.

Lemma keepLine_name c r : isNameChar c = true -> keepLine (String c r) = true.
Proof.
  intros Hc. destruct (nameChar_plain c Hc) as (Hs & _ & Hh).
  unfold keepLine. apply andb_true_iff. split; apply negb_true_iff.
  - apply String.eqb_neq. by apply trim_nonempty.
  - by rewrite startsWith_char.
Qed.

Lemma matchRequirement_spans name op rest :
  name <> "" -> allChars isNameChar name = true ->
  op <> "" -> allChars isOperatorChar op = true ->
  match rest with String c _ => isOperatorChar c = false | EmptyString => False end ->
  matchRequirement (name +:+ op +:+ rest)
  = if allChars (fun c => negb (isLineTerminator c)) rest then Some (name, rest)
    else None.
Proof.
  intros Hn Han Ho Hao Hr. unfold matchRequirement. cbv zeta.
  assert (spanLength isNameChar (name +:+ op +:+ rest) = String.length name) as ->.
  { apply spanLength_app; [done|]. destruct op as [|c op]; [done|].
    rewrite app_String. simpl in Hao. apply andb_true_iff in Hao as [Hc _].
    by apply operatorChar_plain in Hc as [? _]. }
  rewrite drop_app_length, take_app_length.
  assert (spanLength isOperatorChar (op +:+ rest) = String.length op) as ->.
  { apply spanLength_app; [done|]. by destruct rest. }
  rewrite drop_app_length.
  destruct name as [|c name]; [done|]. destruct op as [|o op]; [done|].
  destruct rest as [|x rest]; done.
Qed.

(** X19.  A line [name op version] is read as the record of [name] at
    [version]; with a carriage return left at its end, as in a file with
    CRLF line ends, the pattern no longer matches and the whole line,
    trimmed, becomes the name of a package of version [*]. *)
Theorem requirement_line_and_its_crlf_twin filePath name op version :
  name <> "" -> allChars isNameChar name = true ->
  op <> "" -> allChars isOperatorChar op = true ->
  match version with String c _ => isOperatorChar c = false | EmptyString => False end ->
  allChars (fun c => negb (isLineTerminator c)) version = true ->
  parseRequirementsTxt filePath (name +:+ op +:+ version)
  = [mkDep "pypi" name version "pypi" filePath false]
  /\ parseRequirementsTxt filePath (name +:+ op +:+ version +:+ String CR "")
     = [mkDep "pypi" (trim (name +:+ op +:+ version +:+ String CR "")) "*" "pypi"
              filePath false].
Proof.
  intros Hn Han Ho Hao Hv Hav.
  assert (forall tail, allChars (fun c => negb (Ascii.eqb c LF)) tail = true ->
            allChars (fun c => negb (Ascii.eqb c LF)) (name +:+ op +:+ tail) = true)
    as Hlf.
  { intros tail Ht. rewrite !allChars_app, Ht, !andb_true_r.
    apply andb_true_iff. split.
    - eapply allChars_impl; [|exact Han]. intros c Hc.
      by apply nameChar_plain in Hc as (_ & -> & _).
    - eapply allChars_impl; [|exact Hao]. intros c Hc.
      by apply operatorChar_plain in Hc as (_ & ->). }
  assert (allChars (fun c => negb (Ascii.eqb c LF)) version = true) as Hvl.
  { eapply allChars_impl; [|exact Hav]. intros c Hc. unfold isLineTerminator in Hc.
    apply negb_true_iff, orb_false_iff in Hc as [-> _]. done. }
  assert (forall tail, keepLine (name +:+ op +:+ tail) = true) as Hkeep.
  { intros tail. destruct name as [|c name]; [done|]. rewrite app_String.
    simpl in Han. apply andb_true_iff in Han as [Hc _]. by apply keepLine_name. }
  unfold parseRequirementsTxt. split.
  - rewrite lines_single by by apply Hlf. simpl. rewrite Hkeep. simpl.
    unfold requirement. by rewrite matchRequirement_spans, Hav.
  - rewrite lines_single.
    2:{ apply Hlf. by rewrite allChars_app, Hvl. }
    simpl. rewrite Hkeep. simpl. unfold requirement.
    rewrite matchRequirement_spans; try done.
    + by rewrite allChars_app, Hav.
    + by destruct version.
Qed.
End Requirements.

Lemma requirements_one_record_per_line_sample :
  let content := "requests==2.31.0" +:+ String DependencyScanner.LF ""
                 +:+ "  # pinned" +:+ String DependencyScanner.LF "" +:+ "flask" in
  map name (DependencyScanner.parseRequirementsTxt "requirements.txt" content)
  = ["requests"; "# pinned"; "flask"]
  /\ Forall (scanned "pypi" "pypi" "requirements.txt")
            (DependencyScanner.parseRequirementsTxt "requirements.txt" content).
Proof.
  intros content. split; [reflexivity|].
  exact (proj2 (requirements_one_record_per_line "requirements.txt" content)).
Defined.

Lemma requirement_line_and_its_crlf_twin_sample :
  DependencyScanner.parseRequirementsTxt "requirements.txt" "requests==2.31.0"
  = [mkDep "pypi" "requests" "2.31.0" "pypi" "requirements.txt" false]
  /\ DependencyScanner.parseRequirementsTxt "requirements.txt"
       ("requests==2.31.0" +:+ String DependencyScanner.CR "")
     = [mkDep "pypi" "requests==2.31.0" "*" "pypi" "requirements.txt" false].
Proof.
  apply (requirement_line_and_its_crlf_twin "requirements.txt" "requests" "==" "2.31.0");
    try done; reflexivity.
Defined.

(** ** Manifests with sections *)

Section Sections.
Import Js DependencyScanner.

Lemma pyprojectLoop_sectionLoop filePath ls : forall b,
  pyprojectLoop filePath b ls
  = sectionLoop "[tool.poetry.dependencies]" "pypi" "pypi"
                (fun n => String.eqb n "python") filePath b ls.
Proof.
  induction ls as [|line rest IH]; intros b; [done|].
  cbn [pyprojectLoop sectionLoop]. cbv zeta. rewrite !IH. reflexivity.
Qed.

Lemma cargoLoop_sectionLoop filePath ls : forall b,
  cargoLoop filePath b ls
  = sectionLoop "[dependencies]" "rust" "crates.io" (fun _ => false) filePath b ls.
Proof.
  induction ls as [|line rest IH]; intros b; [done|].
  cbn [cargoLoop sectionLoop]. cbv zeta. rewrite !IH.
  destruct (tomlEntry line) as [n v]. by rewrite andb_true_r.
Qed.

Lemma orStar_nonempty v : orStar v <> "".
Proof. unfold orStar. by destruct (String.eqb_spec v ""). Qed.

Section Loop.
Context (header eco src : string) (skip : string -> bool) (filePath : string).

Lemma fromLine_cons l ls d : fromLine header eco src skip filePath ls d ->
  fromLine header eco src skip filePath (l :: ls) d.
Proof.
  intros (Hs & Hk & line & Hin & H). split; [done|]. split; [done|].
  exists line. split; [by right|done].
Qed.

Lemma sectionLoop_In ls : forall b d,
  In d (sectionLoop header eco src skip filePath b ls) ->
  fromLine header eco src skip filePath ls d.
Proof.
  induction ls as [|line rest IH]; intros b d; [done|].
  cbn [sectionLoop]. cbv zeta.
  destruct (includes header line) eqn:Hh.
  { intros H. by apply fromLine_cons, (IH true). }
  set (b' := if startsWith "[" line && b then false else b).
  destruct (b' && includes "=" line) eqn:He.
  2:{ intros H. by apply fromLine_cons, (IH b'). }
  apply andb_true_iff in He as [_ He].
  destruct (tomlEntry line) as [n v] eqn:Ht.
  destruct (negb (String.eqb n "") && negb (skip n)) eqn:Hn.
  2:{ intros H. by apply fromLine_cons, (IH b'). }
  intros [<-|H]; [|by apply fromLine_cons, (IH b')].
  apply andb_true_iff in Hn as [Hn Hk]. apply negb_true_iff in Hn, Hk.
  apply String.eqb_neq in Hn.
  split; [repeat split; [done|apply orStar_nonempty]|]. split; [done|].
  exists line. rewrite Ht. split; [by left|done].
Qed.

Lemma sectionLoop_no_header ls :
  (forall line, In line ls -> includes header line = false) ->
  sectionLoop header eco src skip filePath false ls = [].
Proof.
  induction ls as [|line rest IH]; intros H; [done|].
  cbn [sectionLoop]. cbv zeta. rewrite (H line) by by left.
  rewrite andb_false_r. simpl. apply IH. intros l Hl. apply H. by right.
Qed.

Lemma sectionLoop_foreign b l rest :
  startsWith "[" l = true ->
  (forall line, In line (l :: rest) -> includes header line = false) ->
  sectionLoop header eco src skip filePath b (l :: rest) = [].
Proof.
  intros Hl H. cbn [sectionLoop]. cbv zeta. rewrite (H l) by by left.
  rewrite Hl. destruct b; simpl; apply sectionLoop_no_header;
    intros line Hin; apply H; by right.
Qed.
End Loop.

End Sections.

(** ** go.mod *)

Section GoMod.
Import Js DependencyScanner.

Lemma flat_map_nil {A B} (g : A -> list B) l :
  (forall x, In x l -> g x = []) -> flat_map g l = [].
Proof.
  induction l as [|x l IH]; intros H; [done|]. simpl.
  rewrite (H x) by by left. apply IH. intros y Hy. apply H. by right.
Qed.

Lemma firstMatch_None {A} (m : string -> option A) s :
  (forall n, m (drop n s) = None) -> firstMatch m s = None.
Proof.
  induction s as [|c r IH]; intros H.
  - pose proof (H O) as H0. simpl in H0. simpl. by rewrite H0.
  - pose proof (H O) as H0. simpl in H0. simpl. rewrite H0.
    apply IH. intros n. apply (H (S n)).
Qed.

Lemma allChars_drop p n s : allChars p s = true -> allChars p (drop n s) = true.
Proof.
  revert s. induction n as [|n IH]; intros [|c r]; try done.
  simpl. intros [_ H]%andb_true_iff. by apply IH.
Qed.

Lemma spanLength_all p s : allChars p s = true -> spanLength p s = String.length s.
Proof.
  induction s as [|c r IH]; [done|]. simpl.
  intros [Hc Hr]%andb_true_iff. by rewrite Hc, IH.
Qed.

Lemma startsWith_app p s : startsWith p (p +:+ s) = true.
Proof.
  induction p as [|c p IH]; [by destruct s|].
  rewrite app_String. simpl. by rewrite Ascii.eqb_refl.
Qed.

Lemma tokenChar_plain c :
  isTokenChar c = true -> isSpace c = false /\ Ascii.eqb c LF = false.
Proof.
  destruct c as [[] [] [] [] [] [] [] []]; vm_compute; intuition congruence.
Qed.

(** A block needs an opening parenthesis. *)
Lemma requireBlockAt_None s :
  allChars (fun c => negb (Ascii.eqb c "(")) s = true -> requireBlockAt s = None.
Proof.
  intros H. unfold requireBlockAt, afterRequire.
  destruct (startsWith "require" s); [|done]. cbv zeta.
  destruct (spanLength isSpace (drop 7 s) =? 0)%nat; [done|].
  pose proof (allChars_drop _ (spanLength isSpace (drop 7 s)) _
                (allChars_drop _ 7 _ H)) as Hd.
  destruct (drop _ (drop 7 s)) as [|c r]; [done|].
  simpl in Hd. apply andb_true_iff in Hd as [Hc _].
  by apply negb_true_iff in Hc as ->.
Qed.

Lemma twoTokens_pair name version :
  name <> "" -> allChars isTokenChar name = true ->
  version <> "" -> allChars isTokenChar version = true ->
  twoTokens (name +:+ " " +:+ version) = Some (name, version).
Proof.
  intros Hn Han Hv Hav. unfold twoTokens. cbv zeta.
  rewrite (spanLength_app isTokenChar name (" " +:+ version)) by done.
  rewrite drop_app_length, take_app_length.
  assert (spanLength isSpace (" " +:+ version) = 1%nat) as ->.
  { apply (spanLength_app isSpace " " version); [done|].
    destruct version as [|c v]; [done|]. simpl in Hav.
    apply andb_true_iff in Hav as [Hc _]. by apply tokenChar_plain in Hc as [-> _]. }
  change (drop 1 (" " +:+ version)) with version.
  rewrite (spanLength_all _ _ Hav), take_length.
  destruct name; [done|]. destruct version; done.
Qed.

(** X22.  A line [require name version] is read as the record of [name]
    at [version]. *)
Theorem go_mod_single_require filePath name version :
  name <> "" -> allChars isTokenChar name = true ->
  version <> "" -> allChars isTokenChar version = true ->
  allChars (fun c => negb (Ascii.eqb c "(")) (name +:+ version) = true ->
  parseGoMod filePath ("require " +:+ name +:+ " " +:+ version)
  = [mkDep "go" name version "goproxy" filePath false].
Proof.
  intros Hn Han Hv Hav Hp.
  set (line := "require " +:+ name +:+ " " +:+ version).
  assert (allChars (fun c => negb (Ascii.eqb c LF)) line = true) as Hlf.
  { unfold line. change ("require " +:+ name +:+ " " +:+ version)
      with ("require " +:+ (name +:+ " " +:+ version)).
    rewrite !allChars_app. apply andb_true_iff. split; [done|].
    apply andb_true_iff. split; [|apply andb_true_iff; split; [done|]].
    - eapply allChars_impl; [|exact Han]. intros c Hc.
      by apply tokenChar_plain in Hc as [_ ->].
    - eapply allChars_impl; [|exact Hav]. intros c Hc.
      by apply tokenChar_plain in Hc as [_ ->]. }
  assert (allChars (fun c => negb (Ascii.eqb c "(")) line = true) as Hparen.
  { rewrite allChars_app in Hp. apply andb_true_iff in Hp as [H1 H2].
    unfold line. change ("require " +:+ name +:+ " " +:+ version)
      with ("require " +:+ (name +:+ " " +:+ version)).
    rewrite !allChars_app, H1, H2. done. }
  unfold parseGoMod. rewrite (lines_single line Hlf). simpl. rewrite app_nil_r.
  unfold goLine.
  assert (startsWith "require" line = true) as ->.
  { change line with ("require" +:+ " " +:+ name +:+ " " +:+ version).
    apply startsWith_app. }
  simpl orb. cbv iota.
  rewrite firstMatch_None.
  2:{ intros n. apply requireBlockAt_None. by apply allChars_drop. }
  assert (requireLineAt line = Some (name, version)) as Hr.
  { unfold requireLineAt, afterRequire.
    change line with ("require" +:+ " " +:+ name +:+ " " +:+ version).
    rewrite startsWith_app. cbv zeta.
    change 7%nat with (String.length "require"). rewrite drop_app_length.
    assert (spanLength isSpace (" " +:+ name +:+ " " +:+ version) = 1%nat) as ->.
    { apply (spanLength_app isSpace " " (name +:+ " " +:+ version)); [done|].
      destruct name as [|c nm]; [done|]. rewrite app_String. simpl in Han.
      apply andb_true_iff in Han as [Hc _]. by apply tokenChar_plain in Hc as [-> _]. }
    simpl Nat.eqb. cbv iota.
    change (drop 1 (" " +:+ name +:+ " " +:+ version)) with (name +:+ " " +:+ version).
    by apply twoTokens_pair. }
  destruct line as [|c r] eqn:Hline; [done|]. simpl firstMatch. by rewrite Hr.
Qed.

(** X23.  A [require] block that spans several lines is missed: the line
    [require (] matches neither pattern, and a line that neither begins
    with [require] nor contains [=>] is not looked at, so a file whose
    lines are all of these two kinds yields nothing. *)
Theorem go_mod_require_block_is_missed filePath content :
  (forall line, In line (lines content) ->
     (startsWith "require" line = false /\ includes "=>" line = false)
     \/ line = "require ("
     \/ line = "require (" +:+ String CR "") ->
  parseGoMod filePath content = [].
Proof.
  intros H. unfold parseGoMod. apply flat_map_nil. intros line Hin.
  destruct (H line Hin) as [[H1 H2]|[->| ->]]; [|reflexivity|reflexivity].
  unfold goLine. by rewrite H1, H2.
Qed.
End GoMod.

Lemma go_mod_single_require_sample :
  DependencyScanner.parseGoMod "go.mod" "require github.com/pkg/errors v0.9.1"
  = [mkDep "go" "github.com/pkg/errors" "v0.9.1" "goproxy" "go.mod" false].
Proof.
  apply (go_mod_single_require "go.mod" "github.com/pkg/errors" "v0.9.1");
    try done; reflexivity.
Defined.

Lemma go_mod_require_block_is_missed_sample :
  let nl := String DependencyScanner.LF "" in
  let tab := String (Ascii.ascii_of_N 9) "" in
  let content := "module example.com/app" +:+ nl +:+ nl +:+ "go 1.21" +:+ nl +:+ nl
                 +:+ "require (" +:+ nl
                 +:+ tab +:+ "github.com/pkg/errors v0.9.1" +:+ nl
                 +:+ tab +:+ "golang.org/x/text v0.14.0" +:+ nl
                 +:+ ")" +:+ nl in
  DependencyScanner.parseGoMod "go.mod" content = [].
Proof.
  intros nl tab content.
  apply (go_mod_require_block_is_missed "go.mod" content).
  intros line Hin. vm_compute in Hin.
  repeat (destruct Hin as [<-|Hin]; [try (left; split; reflexivity);
                                     right; left; reflexivity|]).
  destruct Hin.
Defined.

(** ** XML manifests *)

Section Xml.
Import Js DependencyScanner.

Lemma matchAll_none m s : (forall n, m (drop n s) = None) -> matchAll m s = [].
Proof.
  unfold matchAll. induction s as [|c r IH]; intros H.
  - pose proof (H O) as H0. simpl in H0. simpl. by rewrite H0.
  - pose proof (H O) as H0. simpl in H0. simpl. rewrite H0.
    apply IH. intros n. apply (H (S n)).
Qed.

Lemma indexOf_cons p c r :
  indexOf p (String c r)
  = if startsWith p (String c r) then Some O else option_map S (indexOf p r).
Proof. reflexivity. Qed.

Lemma includes_drop p n s : includes p (drop n s) = true -> includes p s = true.
Proof.
  revert s. induction n as [|n IH]; intros [|c r]; try done.
  simpl drop. intros H. apply IH in H. unfold includes in *.
  rewrite indexOf_cons. destruct (startsWith p (String c r)); [done|].
  by destruct (indexOf p r).
Qed.

Lemma indexOf_includes p s k : indexOf p s = Some k -> includes p s = true.
Proof. unfold includes. by intros ->. Qed.

Lemma matchPackageReference_closing s n :
  matchPackageReference s = Some n -> includes "</PackageReference>" s = true.
Proof.
  unfold matchPackageReference. destruct (startsWith _ s); [|done]. cbv zeta.
  destruct (indexOf ">" (drop 17 s)) as [j|]; [|done].
  destruct (indexOf "</PackageReference>" (drop (S j) (drop 17 s))) as [k|] eqn:H;
    [|done].
  intros _. eapply includes_drop, includes_drop, indexOf_includes, H.
Qed.

Lemma matchDependency_closing s n :
  matchDependency s = Some n -> includes "</dependency>" s = true.
Proof.
  unfold matchDependency. destruct (startsWith _ s); [|done].
  destruct (indexOf "</dependency>" (drop 12 s)) as [k|] eqn:H; [|done].
  intros _. eapply includes_drop, indexOf_includes, H.
Qed.

Lemma no_match_without_closing m closing content :
  (forall s n, m s = Some n -> includes closing s = true) ->
  includes closing content = false -> matchAll m content = [].
Proof.
  intros Hm Hc. apply matchAll_none. intros n.
  destruct (m (drop n content)) as [k|] eqn:H; [|done].
  apply Hm, includes_drop in H. congruence.
Qed.

Lemma firstMatch_Some {A} (m : string -> option A) s a :
  firstMatch m s = Some a -> exists n, m (drop n s) = Some a.
Proof.
  induction s as [|c r IH]; simpl.
  - destruct (m "") eqn:H; [|done]. intros [= <-]. by exists O.
  - destruct (m (String c r)) eqn:H.
    + intros [= <-]. by exists O.
    + intros [n Hn]%IH. by exists (S n).
Qed.

Lemma allChars_take_span p s : allChars p (take (spanLength p s) s) = true.
Proof.
  induction s as [|c r IH]; [done|]. simpl.
  destruct (p c) eqn:Hc; [|done]. simpl. by rewrite Hc, IH.
Qed.

Lemma captureAt_Some opening x closing s v :
  captureAt opening x closing s = Some v ->
  v <> "" /\ allChars (fun c => negb (Ascii.eqb c x)) v = true.
Proof.
  unfold captureAt. destruct (startsWith opening s); [|done]. cbv zeta.
  set (body := drop (String.length opening) s).
  destruct (spanLength _ body =? 0)%nat eqn:Hn; [done|]. apply Nat.eqb_neq in Hn.
  destruct (startsWith closing _); [|done]. intros [= <-]. split.
  - apply take_nonempty; [done|].
    destruct (spanLength_pos _ _ Hn) as (c & r & -> & _). done.
  - apply allChars_take_span.
Qed.

Lemma element_Some tag s v :
  element tag s = Some v -> v <> "" /\ allChars (fun c => negb (Ascii.eqb c "<")) v = true.
Proof. intros [n H]%firstMatch_Some. by apply captureAt_Some in H. Qed.

Lemma attribute_Some attr s v : attribute attr s = Some v -> v <> "".
Proof. intros [n H]%firstMatch_Some. by apply captureAt_Some in H as [? _]. Qed.

Lemma app_nonempty a b : a <> "" -> a +:+ b <> "".
Proof. by destruct a. Qed.

(** X24.  Every record of [parsePomXml] is named [group:artifact], with
    both parts non-empty and free of [<], and has a version that is not
    empty, [latest] when the block has none.  A file without a closing
    [</dependency>] yields nothing. *)
Theorem pom_manifest_records filePath content :
  Forall (fun d =>
            scanned "java" "maven_central" filePath d
            /\ exists g a,
                 name d = g +:+ ":" +:+ a /\ g <> "" /\ a <> ""
                 /\ allChars (fun c => negb (Ascii.eqb c "<")) (g +:+ a) = true)
         (parsePomXml filePath content)
  /\ (includes "</dependency>" content = false -> parsePomXml filePath content = []).
Proof.
  unfold parsePomXml. split.
  - apply List.Forall_forall. intros d (dep & _ & Hd)%in_flat_map.
    unfold pomRecord in Hd.
    destruct (element "groupId" dep) as [g|] eqn:Hg; [|done].
    destruct (element "artifactId" dep) as [a|] eqn:Ha; [|done].
    destruct Hd as [<-|[]].
    apply element_Some in Hg as [Hg1 Hg2]. apply element_Some in Ha as [Ha1 Ha2].
    split.
    + repeat split; simpl; [by apply app_nonempty|].
      destruct (element "version" dep) as [v|] eqn:Hv; [|done].
      by apply element_Some in Hv as [? _].
    + exists g, a. by rewrite allChars_app, Hg2, Ha2.
  - intros Hc.
    by rewrite (no_match_without_closing _ _ _ matchDependency_closing Hc).
Qed.

(** X25.  Every record of [parseCsproj] has a name and a version that are
    not empty.  A project file without a closing [</PackageReference>]
    yields nothing: references written as empty elements, closed by [/>],
    are not found. *)
Theorem csproj_needs_closing_tags filePath content :
  Forall (scanned "dotnet" ".net_nuget" filePath) (parseCsproj filePath content)
  /\ (includes "</PackageReference>" content = false ->
      parseCsproj filePath content = []).
Proof.
  unfold parseCsproj. split.
  - apply List.Forall_forall. intros d (pkg & _ & Hd)%in_flat_map.
    unfold csprojRecord in Hd.
    destruct (attribute "Include" pkg) as [n|] eqn:Hn; [|done].
    destruct Hd as [<-|[]]. apply attribute_Some in Hn.
    repeat split; simpl; [done|].
    destruct (attribute "Version" pkg) as [v|] eqn:Hv; [|done].
    by apply attribute_Some in Hv.
  - intros Hc.
    by rewrite (no_match_without_closing _ _ _ matchPackageReference_closing Hc).
Qed.
End Xml.

Lemma pom_manifest_records_sample :
  Js.includes "</dependency>" "<project><dependencies/></project>" = false
  /\ DependencyScanner.parsePomXml "pom.xml" "<project><dependencies/></project>" = [].
Proof.
  split; [reflexivity|].
  exact (proj2 (pom_manifest_records "pom.xml" "<project><dependencies/></project>")
           eq_refl).
Defined.

Lemma csproj_needs_closing_tags_sample :
  let q := String DependencyScanner.quoteChar "" in
  let content := "<ItemGroup><PackageReference Include=" +:+ q +:+ "Newtonsoft.Json"
                 +:+ q +:+ " Version=" +:+ q +:+ "13.0.3" +:+ q +:+ " />"
                 +:+ "<PackageReference Include=" +:+ q +:+ "Serilog" +:+ q
                 +:+ " Version=" +:+ q +:+ "3.1.1" +:+ q +:+ " /></ItemGroup>" in
  Js.includes "</PackageReference>" content = false
  /\ DependencyScanner.parseCsproj "app.csproj" content = [].
Proof.
  intros q content. split; [reflexivity|].
  exact (proj2 (csproj_needs_closing_tags "app.csproj" content) eq_refl).
Defined.

(** A block of [pom.xml] and the record made of it. *)
Example parsePomXml_sample :
  DependencyScanner.parsePomXml "pom.xml"
    "<dependency><groupId>org.acme</groupId><artifactId>core</artifactId></dependency>"
  = [mkDep "java" "org.acme:core" "latest" "maven_central" "pom.xml" false].
Proof. reflexivity. Qed.

(** ** The scan file *)

Section ScanFile.
Import JsOps DependencyScanner DocumentationMapper.

Lemma loadAll_Ok deps rs :
  loadAll deps = Ok rs -> Forall2 (fun dep r => loadOne dep = Ok r) deps rs.
Proof.
  revert rs. induction deps as [|dep rest IH]; intros rs; simpl.
  - intros [= <-]. constructor.
  - destruct (loadOne dep) as [d|e] eqn:Hd; [|done]. simpl.
    destruct (loadAll rest) as [ds|e]; [|done]. simpl.
    intros [= <-]. constructor; [done|]. by apply IH.
Qed.

Lemma loadAll_Throw deps dep e :
  In dep deps -> loadOne dep = Throw e -> exists e', loadAll deps = Throw e'.
Proof.
  induction deps as [|d rest IH]; [done|]. simpl.
  intros [->|Hin] He.
  - rewrite He. by eexists.
  - destruct (loadOne d); [|by eexists]. simpl.
    destruct (IH Hin He) as [e' ->]. by eexists.
Qed.

Lemma loadOne_incomplete fields :
  assoc "dependency" fields = JUndef \/ assoc "metadata" fields = JUndef ->
  exists e, loadOne (JObj fields) = Throw e.
Proof.
  intros H. unfold loadOne. simpl getp.
  destruct H as [-> | ->]; simpl; [by eexists|].
  repeat match goal with
         | |- context [rbind ?r _] =>
             lazymatch r with
             | Ok _ => fail
             | Throw _ => fail
             | _ => destruct r; simpl
             end
         end; by eexists.
Qed.

(** X26.  [loadDependenciesFromJSON] is all or nothing.  When it returns,
    the file holds an array under [dependencies] and the result has one
    object per entry, in order.  One entry without a [dependency] or a
    [metadata] property makes the whole load throw, as does any entry
    whose reading throws; and a [dependencies] property that is not an
    array is answered with the error "Invalid JSON format: missing
    dependencies array". *)
Theorem load_is_all_or_nothing data :
  (forall rs, loadDependenciesFromJSON data = Ok rs ->
     exists deps, getp data "dependencies" = Ok (JArr deps)
                  /\ Forall2 (fun dep r => loadOne dep = Ok r) deps rs)
  /\ (forall deps dep e,
        getp data "dependencies" = Ok (JArr deps) ->
        In dep deps -> loadOne dep = Throw e ->
        exists e', loadDependenciesFromJSON data = Throw e')
  /\ (forall deps fields,
        getp data "dependencies" = Ok (JArr deps) ->
        In (JObj fields) deps ->
        assoc "dependency" fields = JUndef \/ assoc "metadata" fields = JUndef ->
        exists e', loadDependenciesFromJSON data = Throw e')
  /\ (forall v,
        getp data "dependencies" = Ok v -> (forall deps, v <> JArr deps) ->
        loadDependenciesFromJSON data
        = Throw (Error "Invalid JSON format: missing dependencies array")).
Proof.
  unfold loadDependenciesFromJSON. split_and!.
  - intros rs. destruct (getp data "dependencies") as [v|e]; [|done]. simpl.
    destruct v; try done. intros H. eexists. split; [done|]. by apply loadAll_Ok.
  - intros deps dep e -> Hin He. simpl. by apply (loadAll_Throw deps dep e).
  - intros deps fields -> Hin Hf. simpl.
    destruct (loadOne_incomplete fields Hf) as [e He].
    by apply (loadAll_Throw deps (JObj fields) e).
  - intros v -> Hv. simpl. destruct v; try done. by destruct (Hv l).
Qed.
End ScanFile.

Lemma load_is_all_or_nothing_sample :
  let good := JObj [("ecosystem", JStr "npm");
                    ("dependency", JObj [("name", JStr "lodash");
                                         ("version", JStr "4.17.21");
                                         ("source", JStr "registry")]);
                    ("manifest_path", JStr "/repo/package.json");
                    ("metadata", JObj [("dev_dependency", JBool false)])] in
  let bad := [("ecosystem", JStr "npm");
              ("dependency", JObj [("name", JStr "left-pad")])] in
  let data := JObj [("dependencies", JArr [good; JObj bad])] in
  JsOps.getp data "dependencies" = Ok (JArr [good; JObj bad])
  /\ In (JObj bad) [good; JObj bad]
  /\ (JsOps.assoc "dependency" bad = JUndef \/ JsOps.assoc "metadata" bad = JUndef)
  /\ exists e', DocumentationMapper.loadDependenciesFromJSON data = Throw e'.
Proof.
  intros good bad data.
  assert (In (JObj bad) [good; JObj bad]) as Hin by (right; left; reflexivity).
  assert (JsOps.assoc "dependency" bad = JUndef \/ JsOps.assoc "metadata" bad = JUndef)
    as Hbad by (right; reflexivity).
  split; [reflexivity|]. split; [exact Hin|]. split; [exact Hbad|].
  exact (proj1 (proj2 (proj2 (load_is_all_or_nothing data)))
           [good; JObj bad] bad eq_refl Hin Hbad).
Defined.

(** ** Descriptions decided without the network *)

Section LocalDescriptions.
Context (env : Env).
Import PackageFetcher.

Lemma fetchDescription_cached dep w d w1 :
  fetcherCache w !! cacheKey (ecosystem dep) (name dep) (version dep) = None ->
  dispatch env (ecosystem dep) (name dep) (version dep)
           (logEvent (EvFetchDescription dep) w) = (Ok d, w1) ->
  fetchDescription env dep w
  = (Ok d, setFetcherCache
             (<[cacheKey (ecosystem dep) (name dep) (version dep) := d]> (fetcherCache w1))
             w1).
Proof. intros Hmiss Hd. by rewrite (fetchDescription_miss env dep w Hmiss), Hd. Qed.

(** X27.  The description of a Go module is never the placeholder of a
    failure: [fetchGitHubGoDescription] swallows every error, so the
    lookup returns and its result is cached, whatever the network does.
    A module that is not on github.com costs no request and gets the
    fixed sentence naming module and version. *)
Theorem go_description_never_fails dep w :
  ecosystem dep = "go" ->
  fetcherCache w !! cacheKey (ecosystem dep) (name dep) (version dep) = None ->
  exists d w1,
    fetchDescription env dep w = (Ok d, w1)
    /\ fetcherCache w1 !! cacheKey (ecosystem dep) (name dep) (version dep) = Some d
    /\ (Js.startsWith "github.com/" (name dep) = false ->
        d = JStr ("Go module " +:+ name dep +:+ "@" +:+ version dep)
        /\ trace w1 = trace w ++ [EvFetchDescription dep]).
Proof.
  intros He Hmiss.
  assert (dispatch env (ecosystem dep) (name dep) (version dep)
          = fetchGoDescription env (name dep) (version dep)) as Hd.
  { unfold dispatch. by rewrite He. }
  destruct (safe_run _ (logEvent (EvFetchDescription dep) w)
              (safe_fetchGoDescription env (name dep) (version dep))) as (d & w1 & Hrun).
  exists d. eexists. split.
  { apply fetchDescription_cached; [done|]. rewrite Hd. exact Hrun. }
  split; [simpl; apply lookup_insert_eq|].
  intros Hg. unfold fetchGoDescription, tryCatch in Hrun. rewrite Hg in Hrun.
  by injection Hrun as <- <-.
Qed.

Lemma split_no_colon n : noColon n = true -> Js.split ":" n = [n].
Proof. intros H. unfold Js.split. by rewrite splitAcc_no_sep. Qed.

(** X28.  A Maven name without a colon is answered without a request:
    the description is "Invalid Maven coordinate format", and it is cached
    like any other description. *)
Theorem maven_name_without_colon dep w :
  ecosystem dep = "java" -> noColon (name dep) = true ->
  fetcherCache w !! cacheKey (ecosystem dep) (name dep) (version dep) = None ->
  exists w1,
    fetchDescription env dep w = (Ok (JStr "Invalid Maven coordinate format"), w1)
    /\ trace w1 = trace w ++ [EvFetchDescription dep]
    /\ fetcherCache w1 !! cacheKey (ecosystem dep) (name dep) (version dep)
       = Some (JStr "Invalid Maven coordinate format").
Proof.
  intros He Hn Hmiss. eexists. split.
  { apply fetchDescription_cached; [done|].
    unfold dispatch. rewrite He. simpl.
    unfold fetchMavenDescription, tryCatch. cbv zeta.
    rewrite (split_no_colon _ Hn). simpl. rewrite orb_true_r. reflexivity. }
  split; [done|]. simpl. apply lookup_insert_eq.
Qed.
End LocalDescriptions.

Lemma go_description_never_fails_sample :
  let dep := mkDep "go" "golang.org/x/text" "v0.14.0" "goproxy" "/repo/go.mod" false in
  ecosystem dep = "go"
  /\ fetcherCache Sample.emptyWorld !! "go:golang.org/x/text:v0.14.0" = None
  /\ exists d w1,
       PackageFetcher.fetchDescription Sample.registryDown dep Sample.emptyWorld
       = (Ok d, w1)
       /\ fetcherCache w1 !! "go:golang.org/x/text:v0.14.0" = Some d
       /\ (Js.startsWith "github.com/" (name dep) = false ->
           d = JStr ("Go module " +:+ name dep +:+ "@" +:+ version dep)
           /\ trace w1 = trace Sample.emptyWorld ++ [EvFetchDescription dep]).
Proof.
  intros dep. split; [reflexivity|]. split; [reflexivity|].
  exact (go_description_never_fails Sample.registryDown dep Sample.emptyWorld
           eq_refl eq_refl).
Defined.

Lemma maven_name_without_colon_sample :
  let dep := mkDep "java" "junit" "4.13" "maven_central" "/repo/pom.xml" false in
  ecosystem dep = "java" /\ noColon (name dep) = true
  /\ exists w1,
       PackageFetcher.fetchDescription Sample.registryDown dep Sample.emptyWorld
       = (Ok (JStr "Invalid Maven coordinate format"), w1)
       /\ trace w1 = trace Sample.emptyWorld ++ [EvFetchDescription dep]
       /\ fetcherCache w1 !! PackageFetcher.cacheKey (ecosystem dep) (name dep) (version dep)
          = Some (JStr "Invalid Maven coordinate format").
Proof.
  intros dep. split; [reflexivity|]. split; [reflexivity|].
  exact (maven_name_without_colon Sample.registryDown dep Sample.emptyWorld
           eq_refl eq_refl eq_refl).
Defined.

(** ** Identifiers under the two backends *)

Section Identity.
Context (env : Env).
Import Database.

Lemma find_first {A} (key : A -> bool) pre r post :
  List.filter key pre = [] -> key r = true ->
  List.find key (pre ++ r :: post) = Some r.
Proof.
  intros Hpre Hr. induction pre as [|x pre IH]; simpl.
  - by rewrite Hr.
  - simpl in Hpre. destruct (key x); [done|]. by apply IH.
Qed.

Lemma find_none {A} (key : A -> bool) l : List.filter key l = [] -> List.find key l = None.
Proof.
  induction l as [|x l IH]; [done|]. simpl. destruct (key x); [done|]. exact IH.
Qed.

(** X29.  With the MongoDB backend a package keeps its identifier: a
    store on a triple that has a document updates the first such document
    in place (same [_id], same position, no new identifier used) and
    reports one match; a store on a new triple appends a document with
    the next identifier and reports it as upserted.  With SQLite every
    successful store returns a fresh identifier. *)
Theorem store_identity_by_backend p w :
  dbFault env (ticks w) = None ->
  let d := database w in
  let d' := database (storePackage env p w).2 in
  (dbType env = MongoDB ->
   match selectOne (pkg_name p) (pkg_version p) (pkg_ecosystem p) d with
   | Some r =>
       (storePackage env p w).1 = Ok (UpdateResult 1 None)
       /\ map row_id (rows d') = map row_id (rows d)
       /\ lastId d' = lastId d
       /\ selectOne (pkg_name p) (pkg_version p) (pkg_ecosystem p) d'
          = Some (documentOf (row_id r) p)
   | None =>
       (storePackage env p w).1 = Ok (UpdateResult 0 (Some (lastId d + 1)))
       /\ rows d' = rows d ++ [documentOf (lastId d + 1) p]
       /\ lastId d' = lastId d + 1
   end)
  /\ (dbType env = SQLite ->
      (storePackage env p w).1 = Ok (RunResult (lastId d + 1))
      /\ lastId d' = lastId d + 1
      /\ selectOne (pkg_name p) (pkg_version p) (pkg_ecosystem p) d'
         = Some (rowOf (lastId d + 1) p)).
Proof.
  intros Hf d d'. subst d'. rewrite storePackage_run, Hf. simpl. split; intros Ht.
  - rewrite Ht. simpl. unfold selectOne, updateOneUpsert. fold d.
    set (key := sameKey (pkg_ecosystem p) (pkg_name p) (pkg_version p)).
    pose proof (updateFirst_spec key p (rows d)) as H.
    destruct (updateFirst key p (rows d)) as [rs'|]; simpl.
    + destruct H as (pre & r & post & E & Hr & Hpre & ->).
      rewrite E, (find_first key pre r post Hpre Hr).
      split_and!; try done.
      * by rewrite !map_app.
      * apply find_first; [done|].
        unfold key, sameKey. simpl. by rewrite !String.eqb_refl.
    + by rewrite (find_none key _ H).
  - rewrite Ht. simpl. split_and!; try done.
    destruct (insertOrReplace_key p d) as [_ Hs]. exact Hs.
Qed.
End Identity.

Lemma store_identity_by_backend_sample :
  let env := mkEnv (fun _ _ => Rejected Sample.e500) (fun _ => None) Sample.stamp
                   (fun _ => (42 # 100)%Q) None None false MongoDB in
  let stored := Sample.row 2 "rust" "serde" "1.0" "Serialization" in
  let w := Sample.worldWith [Sample.row 1 "npm" "lodash" "4.17.21" "Utilities"; stored] in
  let p := Sample.pkg "rust" "serde" "1.0" "A framework" in
  dbFault env (ticks w) = None /\ dbType env = MongoDB
  /\ map row_id (rows (database (Database.storePackage env p w).2)) = [1; 2].
Proof.
  intros env stored w p. split; [reflexivity|]. split; [reflexivity|].
  exact (proj1 (proj2 (proj1 (store_identity_by_backend env p w eq_refl) eq_refl))).
Defined.

(** ** Gemfile *)

Section Gemfile.
Import Js DependencyScanner.

Lemma quoted_Some s v rest : quoted s = Some (v, rest) -> v <> "".
Proof.
  unfold quoted. destruct s as [|q r]; [done|].
  destruct (isQuote q); [|done]. cbv zeta.
  destruct (spanLength _ r =? 0)%nat eqn:Hn; [done|]. apply Nat.eqb_neq in Hn.
  destruct (drop _ r); [done|]. intros [= <- _].
  apply take_nonempty; [done|].
  destruct (spanLength_pos _ _ Hn) as (c & t & -> & _). done.
Qed.

Lemma gemAt_Some s n v :
  gemAt s = Some (n, v) -> n <> "" /\ default ">= 0" v <> "".
Proof.
  unfold gemAt. destruct (startsWith "gem" s); [|done]. cbv zeta.
  destruct (spanLength isSpace (drop 3 s) =? 0)%nat; [done|].
  destruct (quoted _) as [[name rest]|] eqn:Hq; [|done].
  intros [= <- <-]. split; [by apply quoted_Some in Hq|].
  unfold versionAfter. destruct (dropWhile isSpace rest) as [|c r]; [done|].
  destruct (Ascii.eqb c ","); [|done].
  destruct (quoted (dropWhile isSpace r)) as [[v t]|] eqn:Hv; [|done].
  simpl. by apply quoted_Some in Hv.
Qed.

Lemma gemLine_length filePath line : (length (gemLine filePath line) <= 1)%nat.
Proof. unfold gemLine. destruct (firstMatch gemAt line) as [[n v]|]; simpl; lia. Qed.

Lemma flat_map_length_le {A B} (g : A -> list B) l :
  (forall x, (length (g x) <= 1)%nat) -> (length (flat_map g l) <= length l)%nat.
Proof.
  intros H. induction l as [|x l IH]; simpl; [lia|].
  rewrite length_app. specialize (H x). lia.
Qed.

Lemma firstMatch_prefix prefix line :
  allChars (fun c => negb (Ascii.eqb c "g")) prefix = true ->
  firstMatch gemAt (prefix +:+ line) = firstMatch gemAt line.
Proof.
  induction prefix as [|c prefix IH]; [done|]. simpl allChars.
  intros [Hc Hp]%andb_true_iff. apply negb_true_iff in Hc.
  rewrite app_String. cbn [firstMatch].
  assert (gemAt (String c (prefix +:+ line)) = None) as ->.
  { unfold gemAt.
    assert (startsWith "gem" (String c (prefix +:+ line)) = false) as ->; [|done].
    cbn [startsWith]. rewrite Ascii.eqb_sym, Hc. done. }
  by apply IH.
Qed.

(** X30.  [parseGemfile] makes at most one record of a line, with a name
    that is not empty and the version [>= 0] when the declaration gives
    none.  The pattern is looked for anywhere in the line, so what stands
    before the declaration does not matter: a declaration behind a [#] is
    reported like any other. *)
Theorem gemfile_reads_commented_declarations filePath :
  (forall content,
     Forall (scanned "ruby" "rubygems.org" filePath) (parseGemfile filePath content)
     /\ (length (parseGemfile filePath content) <= length (lines content))%nat)
  /\ (forall prefix line,
        allChars (fun c => negb (Ascii.eqb c "g")) prefix = true ->
        gemLine filePath (prefix +:+ line) = gemLine filePath line).
Proof.
  split.
  - intros content. unfold parseGemfile. split.
    + apply List.Forall_forall. intros d (line & _ & Hd)%in_flat_map.
      unfold gemLine in Hd.
      destruct (firstMatch gemAt line) as [[n v]|] eqn:Hm; [|done].
      destruct Hd as [<-|[]]. apply firstMatch_Some in Hm as [k Hm].
      apply gemAt_Some in Hm as [Hn Hv]. by repeat split.
    + apply flat_map_length_le, gemLine_length.
  - intros prefix line Hp. unfold gemLine. by rewrite firstMatch_prefix.
Qed.
End Gemfile.

Lemma gemfile_reads_commented_declarations_sample :
  Js.allChars (fun c => negb (Ascii.eqb c "g")) "# " = true
  /\ DependencyScanner.parseGemfile "Gemfile" "# gem 'rails', '~> 7.0'"
     = [mkDep "ruby" "rails" "~> 7.0" "rubygems.org" "Gemfile" false]
  /\ DependencyScanner.gemLine "Gemfile" ("# " +:+ "gem 'rails', '~> 7.0'")
     = DependencyScanner.gemLine "Gemfile" "gem 'rails', '~> 7.0'".
Proof.
  split; [reflexivity|]. split; [reflexivity|].
  exact (proj2 (gemfile_reads_commented_declarations "Gemfile")
           "# " "gem 'rails', '~> 7.0'" eq_refl).
Defined.

(** ** Tables the program writes *)

Section PlainTables.
Context (env : Env).
Import DocumentationMapper.

Lemma row_version_storedRow t id p : row_version (storedRow t id p) = pkg_version p.
Proof. by destruct t. Qed.

Lemma storeStep_Forall (Q : Row -> Prop) t p d :
  (forall id, Q (storedRow t id p)) ->
  Forall Q (rows d) -> Forall Q (rows (storeStep t p d)).
Proof.
  intros Hq Hd. rewrite List.Forall_forall in Hd. apply List.Forall_forall.
  destruct (storeStep_shape t p d) as [(id & E & _)|(pre & r & post & E & _ & _ & E' & _)].
  - rewrite E. intros x [Hx| [<-|[]]]%in_app_or; [|apply Hq].
    apply Hd. unfold others in Hx. by apply List.filter_In in Hx as [Hx _].
  - rewrite E'. intros x [Hx|[<-|Hx]]%in_app_or; [|apply Hq|];
      apply Hd; rewrite E; apply in_or_app; [by left|right; by right].
Qed.

Lemma processRecord_plain dep w :
  plainTable (database w) -> plainTable (database (processRecord env dep w).2).
Proof.
  intros Hw. destruct (isWorkspace (version dep)) eqn:Hv.
  { by rewrite processRecord_workspace. }
  destruct (processRecord_database env dep w) as [->|(p & Hk & ->)]; [done|].
  apply storeStep_Forall; [|done].
  intros id. rewrite row_version_storedRow.
  injection Hk as _ _ ->. exact Hv.
Qed.

Lemma processFrom_plain deps : forall acc w,
  plainTable (database w) -> plainTable (database (processFrom env deps acc w).2).
Proof.
  induction deps as [|dep rest IH]; intros acc w Hw; [done|].
  simpl. unfold bind.
  pose proof (processRecord_plain dep w Hw) as H1.
  destruct (processRecord_run env dep w) as (entry & w1 & Hr & _).
  rewrite Hr in H1 |- *. by apply IH.
Qed.

(** C6.  The table is written by [storePackage] alone, behind the guard
    for workspace records, so it never holds the row of a workspace
    record: the empty table has none and no run adds one.  On such a
    table a record whose triple the database finds is answered with the
    row found, whatever its version: the row goes to the results, neither
    the fetcher nor the crawler is called, no request is sent, and the
    database is as it was. *)
Theorem stored_record_is_returned dep w row :
  plainTable (database w) ->
  dbFault env (ticks w) = None ->
  Database.selectOne (name dep) (version dep) (ecosystem dep) (database w) = Some row ->
  processRecord env dep w = (Ok (Existing row), tickWorld w)
  /\ (forall rest acc,
        processFrom env (dep :: rest) acc w
        = processFrom env rest (acc ++ [Existing row]) (tickWorld w))
  /\ database (tickWorld w) = database w
  /\ trace (tickWorld w) = trace w
  /\ entryKey (Existing row) = depKey dep
  /\ plainTable (mkDb [] 0)
  /\ (forall deps w0,
        plainTable (database w0) ->
        plainTable (database (processDependencies env deps w0).2)).
Proof.
  intros Hplain Hf Hs.
  assert (isWorkspace (version dep) = false) as Hw.
  { pose proof Hs as Hs'. apply List.find_some in Hs' as [Hin Hk].
    apply sameKey_eq in Hk as (_ & _ & <-).
    unfold plainTable in Hplain. rewrite List.Forall_forall in Hplain.
    by apply Hplain. }
  assert (processRecord env dep w = (Ok (Existing row), tickWorld w)) as Hr.
  { unfold processRecord, tryCatch. by rewrite (processOne_existing env dep w row). }
  split_and!; try done.
  - intros rest acc. by apply processFrom_step.
  - destruct (processRecord_run env dep w) as (entry & w' & Hr' & Hk & _).
    rewrite Hr in Hr'. by injection Hr' as <- _.
  - constructor.
  - intros deps w0. apply processFrom_plain.
Qed.
End PlainTables.

Lemma stored_record_is_returned_sample :
  let env := Sample.constant (Response JNull) in
  let w := (DocumentationMapper.processDependencies env [Sample.internal; Sample.lodash]
              Sample.emptyWorld).2 in
  exists stored,
    plainTable (database w)
    /\ dbFault env (ticks w) = None
    /\ Database.selectOne "lodash" "4.17.21" "npm" (database w) = Some stored
    /\ DocumentationMapper.processRecord env Sample.lodash w
       = (Ok (Existing stored), tickWorld w).
Proof.
  intros env w.
  assert (exists stored,
            Database.selectOne "lodash" "4.17.21" "npm" (database w) = Some stored)
    as [stored Hs].
  { vm_compute. by eexists. }
  assert (plainTable (database w)) as Hp.
  { vm_compute. repeat constructor. }
  exists stored. split; [exact Hp|]. split; [reflexivity|]. split; [exact Hs|].
  exact (proj1 (stored_record_is_returned env Sample.lodash w stored Hp eq_refl Hs)).
Defined.

(** ** Script and style blocks *)

Section Blocks.
Import Js DocumentationCrawler.

Lemma eqCI_refl c : eqCI c c = true.
Proof. unfold eqCI. apply Ascii.eqb_refl. Qed.

Lemma startsWithCI_app p s : startsWithCI p (p +:+ s) = true.
Proof.
  induction p as [|c p IH]; [by destruct s|].
  rewrite app_String. cbn [startsWithCI]. by rewrite eqCI_refl.
Qed.

Lemma startsWithCI_cons a p b s :
  startsWithCI (String a p) (String b s) = eqCI a b && startsWithCI p s.
Proof. reflexivity. Qed.

Lemma startsWithCI_nil s : startsWithCI "" s = true.
Proof. by destruct s. Qed.

Lemma startsWithCI_weaken p t rest :
  startsWithCI p t = true -> startsWithCI p (t +:+ rest) = true.
Proof.
  revert t. induction p as [|a p IH]; intros t H; [apply startsWithCI_nil|].
  destruct t as [|b t]; [done|]. rewrite app_String. cbn [startsWithCI] in *.
  apply andb_true_iff in H as [H1 H2]. by rewrite H1, IH.
Qed.

Lemma indexOfCI_cons p c r :
  indexOfCI p (String c r)
  = if startsWithCI p (String c r) then Some O else option_map S (indexOfCI p r).
Proof. reflexivity. Qed.

Lemma indexOfCI_head p s : indexOfCI p s = None -> startsWithCI p s = false.
Proof.
  destruct s as [|c r].
  - cbn [indexOfCI]. by destruct (startsWithCI p "").
  - rewrite indexOfCI_cons. by destruct (startsWithCI p (String c r)).
Qed.

Lemma indexOfCI_drop p i s : indexOfCI p s = None -> indexOfCI p (drop i s) = None.
Proof.
  revert s. induction i as [|i IH]; intros [|c r] H; try done.
  simpl drop. apply IH. rewrite indexOfCI_cons in H.
  destruct (startsWithCI p (String c r)); [done|]. by destruct (indexOfCI p r).
Qed.

Lemma indexOfCI_app_None p a b : indexOfCI p (a +:+ b) = None -> indexOfCI p a = None.
Proof.
  induction a as [|c a IH]; intros H.
  - rewrite app_empty in H. apply indexOfCI_head in H.
    cbn [indexOfCI]. destruct (startsWithCI p "") eqn:Hp; [|done].
    apply (startsWithCI_weaken p "" b) in Hp. rewrite app_empty in Hp. congruence.
  - rewrite app_String, indexOfCI_cons in H. rewrite indexOfCI_cons.
    destruct (startsWithCI p (String c (a +:+ b))) eqn:Hs; [done|].
    destruct (startsWithCI p (String c a)) eqn:Ha.
    { apply (startsWithCI_weaken p (String c a) b) in Ha.
      rewrite app_String in Ha. congruence. }
    destruct (indexOfCI p (a +:+ b)) eqn:Hi; [done|]. by rewrite IH.
Qed.

Lemma drop_app_le i a b :
  (i <= String.length a)%nat -> drop i (a +:+ b) = drop i a +:+ b.
Proof.
  revert a. induction i as [|i IH]; intros [|c a] H; simpl in H; try done; try lia.
  rewrite app_String. simpl drop. apply IH. lia.
Qed.

Lemma drop_app_plus n a b : drop (String.length a + n)%nat (a +:+ b) = drop n b.
Proof. induction a as [|c a IH]; [done|]. rewrite app_String. simpl. exact IH. Qed.

Lemma length_app_string a b :
  String.length (a +:+ b) = (String.length a + String.length b)%nat.
Proof. induction a as [|c a IH]; [done|]. rewrite app_String. simpl. by rewrite IH. Qed.

(** The scan copies a stretch in which nothing matches. *)
Lemma replaceAll_prefix m repl pre rest :
  (forall i, (i < String.length pre)%nat -> m (drop i pre +:+ rest) = None) ->
  replaceAll m repl (pre +:+ rest) = pre +:+ replaceAll m repl rest.
Proof.
  induction pre as [|c pre IH]; intros H; [done|].
  rewrite !app_String, replaceAll_copy.
  2:{ left. rewrite <- app_String. apply (H O). simpl. lia. }
  f_equal. apply IH. intros i Hi. apply (H (S i)). simpl. lia.
Qed.

Lemma replaceAllFrom_drop m repl k s :
  m "" = None -> replaceAllFrom m repl k s = replaceAll m repl (drop k s).
Proof.
  intros H0. revert k. induction s as [|c r IH]; intros [|k]; try done.
  - unfold replaceAll. simpl. by rewrite H0.
  - simpl. apply IH.
Qed.

(** The scan replaces a match at its head and resumes after it. *)
Lemma replaceAll_head m repl s n :
  m "" = None -> m s = Some (S n) ->
  replaceAll m repl s = repl +:+ replaceAll m repl (drop (S n) s).
Proof.
  intros H0 Hm. destruct s as [|c r]; [congruence|].
  unfold replaceAll at 1. cbn [replaceAllFrom]. rewrite Hm.
  by rewrite replaceAllFrom_drop.
Qed.

(** A pattern without [>] cannot begin in a stretch that ends with [>]
    and run past its end. *)
Lemma straddle_gt p t rest :
  allChars (fun a => negb (eqCI a ">")) p = true ->
  startsWithCI p (t +:+ rest) = true ->
  startsWithCI p t = true \/ allChars (fun c => negb (Ascii.eqb c ">")) t = true.
Proof.
  revert t. induction p as [|a p IH]; intros t Hp H.
  { left. apply startsWithCI_nil. }
  destruct t as [|b t]; [by right|].
  rewrite app_String in H. cbn [startsWithCI allChars] in *.
  apply andb_true_iff in H as [Hab H]. apply andb_true_iff in Hp as [Ha Hp].
  assert (Ascii.eqb b ">" = false) as Hb.
  { destruct (Ascii.eqb_spec b ">") as [->|]; [|done].
    rewrite Hab in Ha. done. }
  destruct (IH t Hp H) as [Ht|Ht].
  - left. by rewrite Hab, Ht.
  - right. by rewrite Hb, Ht.
Qed.

Lemma endsInTag_open s :
  allChars (fun c => negb (Ascii.eqb c ">")) s = true -> endsInTag true s = true.
Proof.
  induction s as [|c s IH]; [done|]. cbn [allChars endsInTag].
  intros [Hc Hs]%andb_true_iff. apply negb_true_iff in Hc. rewrite Hc.
  destruct (Ascii.eqb c "<"); by apply IH.
Qed.

Lemma endsInTag_closes s : forall b i r,
  endsInTag b s = false -> drop i s = String "<" r ->
  allChars (fun c => negb (Ascii.eqb c ">")) (drop i s) = false.
Proof.
  induction s as [|c s IH]; intros b i r H Hd; [by destruct i|].
  destruct i as [|i].
  - simpl in Hd. injection Hd as -> ->. cbn [endsInTag] in H.
    rewrite Ascii.eqb_refl in H. cbn [drop allChars].
    destruct (allChars _ r) eqn:Hr; [|by rewrite andb_false_r].
    apply endsInTag_open in Hr. congruence.
  - simpl drop in *. cbn [endsInTag] in H. by eapply IH.
Qed.

Lemma endsInTag_closed b x : endsInTag b (x +:+ ">") = false.
Proof.
  revert b. induction x as [|c x IH]; intros b; [done|].
  rewrite app_String. cbn [endsInTag]. apply IH.
Qed.

(** A pattern that begins with [<] and has no [>] does not begin in a
    stretch that stops outside a tag and run past its end. *)
Lemma no_opening_in_closed p pre rest :
  allChars (fun a => negb (eqCI a ">")) p = true ->
  indexOfCI (String "<" p) pre = None ->
  insideTag pre = false ->
  forall i, (i < String.length pre)%nat ->
    startsWithCI (String "<" p) (drop i pre +:+ rest) = false.
Proof.
  intros Hp Hnone Hclosed i Hi.
  destruct (startsWithCI (String "<" p) (drop i pre +:+ rest)) eqn:Hs; [|done].
  destruct (drop i pre) as [|b t] eqn:Hd.
  - pose proof (length_drop i pre) as Hl. rewrite Hd in Hl. simpl in Hl. lia.
  - pose proof Hs as Hs'. rewrite app_String, startsWithCI_cons in Hs'.
    apply andb_true_iff in Hs' as [->%eqCI_lt _].
    apply (straddle_gt (String "<" p)) in Hs as [Hs|Hs].
    + apply (indexOfCI_drop _ i) in Hnone. apply indexOfCI_head in Hnone.
      rewrite Hd in Hnone. congruence.
    + rewrite <- Hd in Hs. by rewrite (endsInTag_closes pre false i t Hclosed Hd) in Hs.
    + cbn [allChars]. by rewrite Hp.
Qed.

Lemma matchBlock_opening tag s :
  startsWithCI ("<" +:+ tag) s = false -> matchBlock tag s = None.
Proof. intros H. unfold matchBlock. cbv zeta. by rewrite H. Qed.

(** A pattern cannot begin in a stretch and run into a continuation that
    begins with a character that the rest of the pattern does not have. *)
Lemma straddle_head p : forall a b t c rest,
  allChars (fun x => negb (eqCI x c)) p = true ->
  startsWithCI (String a p) (String b t +:+ String c rest) = true ->
  startsWithCI (String a p) (String b t) = true.
Proof.
  induction p as [|a' p IH]; intros a b t c rest Hp H;
    rewrite app_String, startsWithCI_cons in H; rewrite startsWithCI_cons;
    apply andb_true_iff in H as [Hab H]; rewrite Hab.
  - by rewrite startsWithCI_nil.
  - cbn [allChars] in Hp. apply andb_true_iff in Hp as [Ha' Hp].
    destruct t as [|b' t].
    + rewrite app_empty, startsWithCI_cons in H.
      apply andb_true_iff in H as [H _]. rewrite H in Ha'. done.
    + by rewrite (IH a' b' t c rest Hp H).
Qed.

Lemma indexOfCI_after c p body rest :
  allChars (fun x => negb (eqCI x c)) p = true ->
  indexOfCI (String c p) body = None ->
  indexOfCI (String c p) (body +:+ String c p +:+ rest) = Some (String.length body).
Proof.
  intros Hp. induction body as [|b body IH]; intros H.
  - rewrite app_empty, app_String, indexOfCI_cons.
    by rewrite <- (app_String c p rest), startsWithCI_app.
  - rewrite indexOfCI_cons in H.
    destruct (startsWithCI (String c p) (String b body)) eqn:Hs; [done|].
    destruct (indexOfCI (String c p) body) eqn:Hi; [done|].
    rewrite app_String, indexOfCI_cons.
    destruct (startsWithCI (String c p) (String b (body +:+ String c p +:+ rest)))
      eqn:Hs'.
    { rewrite <- (app_String b body) in Hs'.
      rewrite (app_String c p rest) in Hs'.
      apply (straddle_head p _ _ _ _ _ Hp) in Hs'. congruence. }
    by rewrite IH.
Qed.

Lemma indexOf_gt_after attrs rest :
  indexOf ">" attrs = None ->
  indexOf ">" (attrs +:+ ">" +:+ rest) = Some (String.length attrs).
Proof.
  induction attrs as [|a attrs IH]; intros H.
  - rewrite app_empty. change (">" +:+ rest) with (String ">" rest).
    by rewrite indexOf_gt_cons.
  - rewrite indexOf_gt_cons in H. rewrite app_String, indexOf_gt_cons.
    destruct (Ascii.eqb ">" a); [done|].
    destruct (indexOf ">" attrs); [done|]. by rewrite IH.
Qed.

Lemma drop_past a c rest : drop (S (String.length a)) (a +:+ String c rest) = rest.
Proof. induction a as [|x a IH]; [done|]. rewrite app_String. simpl. exact IH. Qed.

(** The pattern of a block matches a block whose opening tag ends at the
    first [>] and whose closing tag is the first one. *)
Lemma matchBlock_block tag attrs body post :
  allChars (fun x => negb (eqCI x "<")) ("/" +:+ tag +:+ ">") = true ->
  indexOf ">" attrs = None ->
  indexOfCI ("</" +:+ tag +:+ ">") body = None ->
  matchBlock tag (("<" +:+ tag) +:+ attrs +:+ ">" +:+ body +:+ ("</" +:+ tag +:+ ">")
                  +:+ post)
  = Some (String.length ("<" +:+ tag) + String.length attrs + 1 + String.length body
          + String.length ("</" +:+ tag +:+ ">"))%nat.
Proof.
  intros Htag Hattrs Hbody. unfold matchBlock. cbv zeta.
  rewrite startsWithCI_app, drop_app_length, indexOf_gt_after by done.
  change (">" +:+ body +:+ ("</" +:+ tag +:+ ">") +:+ post)
    with (String ">" (body +:+ ("</" +:+ tag +:+ ">") +:+ post)).
  rewrite drop_past.
  change ("</" +:+ tag +:+ ">") with (String "<" ("/" +:+ tag +:+ ">")) in *.
  by rewrite (indexOfCI_after "<" _ body post Htag Hbody).
Qed.

Lemma replaceAll_block tag attrs body post :
  allChars (fun x => negb (eqCI x "<")) ("/" +:+ tag +:+ ">") = true ->
  indexOf ">" attrs = None ->
  indexOfCI ("</" +:+ tag +:+ ">") body = None ->
  replaceAll (matchBlock tag) ""
    (("<" +:+ tag) +:+ attrs +:+ ">" +:+ body +:+ ("</" +:+ tag +:+ ">") +:+ post)
  = replaceAll (matchBlock tag) "" post.
Proof.
  intros Htag Hattrs Hbody.
  pose proof (matchBlock_block tag attrs body post Htag Hattrs Hbody) as Hm.
  set (o := "<" +:+ tag) in *. set (c := "</" +:+ tag +:+ ">") in *.
  assert (String.length o + String.length attrs + 1 + String.length body
          + String.length c
          = S (String.length tag + String.length attrs + 1 + String.length body
               + String.length c))%nat as Hn.
  { unfold o. change ("<" +:+ tag) with (String "<" tag). simpl. lia. }
  rewrite Hn in Hm.
  rewrite (replaceAll_head _ _ _ _ eq_refl Hm), app_empty, <- Hn.
  f_equal.
  replace (String.length o + String.length attrs + 1 + String.length body
           + String.length c)%nat
    with (String.length o
          + (String.length attrs
             + (String.length ">" + (String.length body + (String.length c + 0)))))%nat
    by (simpl; lia).
  by rewrite !drop_app_plus.
Qed.

Lemma replaceAll_before tag pre rest :
  allChars (fun a => negb (eqCI a ">")) tag = true ->
  indexOfCI ("<" +:+ tag) pre = None ->
  insideTag pre = false ->
  replaceAll (matchBlock tag) "" (pre +:+ rest)
  = pre +:+ replaceAll (matchBlock tag) "" rest.
Proof.
  intros Htag Hnone Hclosed. apply replaceAll_prefix. intros i Hi.
  by apply matchBlock_opening, no_opening_in_closed.
Qed.

(** A script block that begins outside a tag goes, and what stands around
    it is cleaned as if the block had never been there. *)
Lemma stripMarkup_script pre attrs body post :
  indexOfCI "<script" pre = None ->
  insideTag pre = false ->
  indexOf ">" attrs = None ->
  indexOfCI "</script>" body = None ->
  stripMarkup (pre +:+ "<script" +:+ attrs +:+ ">" +:+ body +:+ "</script>" +:+ post)
  = stripMarkup (pre +:+ post).
Proof.
  intros Hpre Hclosed Hattrs Hbody. unfold stripMarkup.
  rewrite !(replaceAll_before "script" pre) by done.
  assert (replaceAll (matchBlock "script") ""
            ("<script" +:+ attrs +:+ ">" +:+ body +:+ "</script>" +:+ post)
          = replaceAll (matchBlock "script") "" post) as ->; [|done].
  exact (replaceAll_block "script" attrs body post eq_refl Hattrs Hbody).
Qed.

(** The same for a style block, when no script block opens before its
    end. *)
Lemma stripMarkup_style pre attrs body post :
  indexOfCI "<script" (pre +:+ "<style" +:+ attrs +:+ ">" +:+ body +:+ "</style>") = None ->
  indexOfCI "<style" pre = None ->
  insideTag pre = false ->
  indexOf ">" attrs = None ->
  indexOfCI "</style>" body = None ->
  stripMarkup (pre +:+ "<style" +:+ attrs +:+ ">" +:+ body +:+ "</style>" +:+ post)
  = stripMarkup (pre +:+ post).
Proof.
  intros Hscript Hpre Hclosed Hattrs Hbody. unfold stripMarkup.
  pose proof (indexOfCI_app_None _ _ _ Hscript) as Hscript'.
  rewrite (replaceAll_before "script" pre post) by done.
  set (block := "<style" +:+ attrs +:+ ">" +:+ body +:+ "</style>") in *.
  assert (pre +:+ "<style" +:+ attrs +:+ ">" +:+ body +:+ "</style>" +:+ post
          = (pre +:+ block) +:+ post) as ->.
  { unfold block. by rewrite !string_app_assoc. }
  rewrite (replaceAll_before "script" (pre +:+ block)); [|done|done|].
  2:{ assert (pre +:+ block
              = (pre +:+ "<style" +:+ attrs +:+ ">" +:+ body +:+ "</style") +:+ ">")
        as ->.
      { unfold block. by rewrite !string_app_assoc. }
      apply endsInTag_closed. }
  rewrite string_app_assoc, !(replaceAll_before "style" pre) by done.
  unfold block. rewrite !string_app_assoc.
  assert (forall rest,
            replaceAll (matchBlock "style") ""
              ("<style" +:+ attrs +:+ ">" +:+ body +:+ "</style>" +:+ rest)
            = replaceAll (matchBlock "style") "" rest) as ->; [|done].
  intros rest. exact (replaceAll_block "style" attrs body rest eq_refl Hattrs Hbody).
Qed.

(** Text without tags, runs of whitespace or whitespace at its ends goes
    through unchanged. *)
Lemma stripMarkup_text t :
  tagFree t = true -> collapsed t = true -> headNonSpace t = true ->
  dropWhileEnd isSpace t = t -> stripMarkup t = t.
Proof.
  intros Ht Hc Hh He. unfold stripMarkup.
  rewrite (blocks_none "s" "cript" t), (blocks_none "s" "tyle" t),
    (tags_none t), (spaces_fixed t) by done.
  unfold trim. by rewrite (dropWhile_head t Hh).
Qed.
End Blocks.

(** ** The content of a raw fetch *)

Section RawContent.
Context (env : Env).
Import DocumentationCrawler.

End RawContent.


(** ** Runs without documentation *)

Section Disabled.
Context (env : Env).
Import DocumentationMapper.

(** A turn of a run that does not fetch documentation: what it returns,
    and what it leaves in the table. *)
Lemma processRecord_disabled (inTable : Row -> Prop) dep w entry w1 :
  skipDocs env = true ->
  (forall id p, pkg_documentation p = Some disabledNote ->
                inTable (storedRow (dbType env) id p)) ->
  Forall inTable (rows (database w)) ->
  processRecord env dep w = (Ok entry, w1) ->
  Forall inTable (rows (database w1)) /\ disabledEntry inTable entry.
Proof.
  intros Hskip Hq Hd.
  destruct (isWorkspace (version dep)) eqn:Hw.
  { rewrite processRecord_workspace by done. intros [= <- <-]. split; [done|].
    right. done. }
  unfold processRecord, tryCatch.
  destruct (dbFault env (ticks w)) as [msg|] eqn:Hf.
  { unfold processOne. rewrite Hw, getPackageDocumentation_statement.
    unfold bind, Database.statement. rewrite Hf. simpl. by intros [= <- <-]. }
  destruct (Database.selectOne (name dep) (version dep) (ecosystem dep) (database w))
    as [row|] eqn:Hs.
  { rewrite (processOne_existing env dep w row) by done. intros [= <- <-].
    split; [done|]. simpl.
    apply List.find_some in Hs as [Hin _].
    rewrite List.Forall_forall in Hd. by apply Hd. }
  destruct (processOne_fresh env dep w Hw Hf Hs)
    as (description & w2 & documentation & w3 & Hfd & Hc & Hp).
  simpl in Hp. rewrite Hp.
  pose proof (frame_fetchDescription env dep (tickWorld w)) as [D2 _].
  rewrite Hfd in D2. simpl in D2.
  unfold documentationStep in Hc. rewrite Hskip in Hc. injection Hc as <- <-.
  destruct (dbFault env (S (ticks w2))); simpl.
  - intros [= <- <-]. simpl. by rewrite D2.
  - intros [= <- <-]. simpl. split; [|by left].
    rewrite D2. apply storeStep_Forall; [|done]. intros id. by apply Hq.
Qed.

Lemma processFrom_disabled (inTable : Row -> Prop) deps :
  skipDocs env = true ->
  (forall id p, pkg_documentation p = Some disabledNote ->
                inTable (storedRow (dbType env) id p)) ->
  forall acc w entries w',
    Forall inTable (rows (database w)) ->
    Forall (disabledEntry inTable) acc ->
    processFrom env deps acc w = (Ok entries, w') ->
    Forall (disabledEntry inTable) entries.
Proof.
  intros Hskip Hq. induction deps as [|dep rest IH]; intros acc w entries w' Hd Hacc.
  - by intros [= <- _].
  - simpl. intros H. apply bind_Ok in H as (entry & w1 & He & H).
    destruct (processRecord_disabled inTable dep w entry w1 Hskip Hq Hd He) as [Hd1 Hentry].
    apply (IH (acc ++ [entry]) w1 entries w' Hd1); [|exact H].
    apply Forall_app. split; [done|]. by constructor.
Qed.

(** X13.  With documentation switched off, [crawlDocumentation] is never
    called, and every entry the run makes carries the note
    "Documentation fetching disabled", or the workspace note when its
    version marks a workspace package.  The lookup comes before the
    switch: a record found in the table is answered with the row found,
    and that row is a row the table held before the run, with the
    documentation it has, or a row the run has stored with the note. *)
Theorem disabled_documentation_never_crawls deps w :
  skipDocs env = true ->
  (exists evs, trace (processDependencies env deps w).2 = trace w ++ evs
               /\ Forall (fun e => ~ isCrawlCall e) evs)
  /\ exists entries,
       (processDependencies env deps w).1 = Ok entries
       /\ (forall p, In (Package p) entries ->
             pkg_documentation p = Some disabledNote
             \/ (isWorkspace (pkg_version p) = true
                 /\ pkg_documentation p = Some workspaceNote))
       /\ (forall row, In (Existing row) entries ->
             In row (rows (database w))
             \/ exists id p, row = storedRow (dbType env) id p
                             /\ pkg_documentation p = Some disabledNote).
Proof.
  intros Hskip. split.
  - assert (respects (traceStep (fun e => ~ isCrawlCall e))
                     (processDependencies env deps)) as Hq.
    { apply trace_processFrom; [by intros ms []|].
      intros dep Hin. split.
      - intros w0. destruct (fetchDescription_footprint env dep w0)
          as (_ & _ & evs & E & F).
        split. eexists. split; [exact E|]. constructor; [by intros []|].
        eapply Forall_impl; [exact F|]. by intros [] ? [].
      - unfold documentationStep. rewrite Hskip. apply respects_ret, _. }
    destruct (Hq w) as [(evs & E & F)]. by exists evs.
  - destruct (processFrom_run env deps [] w) as (entries & w' & Hrun & _).
    exists entries. unfold processDependencies. rewrite Hrun. split; [done|].
    set (inTable := fun row =>
           In row (rows (database w))
           \/ exists id p, row = storedRow (dbType env) id p
                           /\ pkg_documentation p = Some disabledNote).
    assert (Forall (disabledEntry inTable) entries) as Hall.
    { eapply (processFrom_disabled inTable deps Hskip); [| |constructor|exact Hrun].
      - intros id p Hp. right. by exists id, p.
      - apply List.Forall_forall. intros row Hin. by left. }
    rewrite List.Forall_forall in Hall.
    split; intros x Hin; exact (Hall _ Hin).
Qed.
End Disabled.

Lemma disabled_documentation_never_crawls_sample :
  let env := mkEnv (fun _ _ => Rejected Sample.e500) (fun _ => None) Sample.stamp
                   (fun _ => (42 # 100)%Q) None None true SQLite in
  let crawled :=
    Database.rowOf 1
      (mkPkg "npm" "lodash" "4.17.21" "registry" (JStr "Utilities")
             (Some (pageDoc "https://lodash.com/docs" "t0" "<h1>Lodash</h1>"))
             "/repo/package.json" false "t0") in
  let w := Sample.worldWith [crawled] in
  skipDocs env = true
  /\ exists entries,
       (DocumentationMapper.processDependencies env
          [Sample.lodash; Sample.serde; Sample.internal] w).1 = Ok entries
       /\ In (Existing crawled) entries
       /\ row_documentation crawled <> Some DocumentationMapper.disabledNote
       /\ forall p, In (Package p) entries ->
            pkg_documentation p = Some DocumentationMapper.disabledNote
            \/ (DocumentationMapper.isWorkspace (pkg_version p) = true
                /\ pkg_documentation p = Some DocumentationMapper.workspaceNote).
Proof.
  intros env crawled w. split; [reflexivity|].
  destruct (proj2 (disabled_documentation_never_crawls env
                     [Sample.lodash; Sample.serde; Sample.internal] w eq_refl))
    as (entries & Hrun & Hp & _).
  exists entries. split; [exact Hrun|]. split; [|split; [done|exact Hp]].
  vm_compute in Hrun. injection Hrun as <-. left. reflexivity.
Defined.

(** ** Entries of a TOML section *)

Section EntryLines.
Import Js DependencyScanner.

Lemma bareChar_plain c :
  bareChar c = true ->
  isSpace c = false /\ Ascii.eqb c "=" = false /\ Ascii.eqb c quoteChar = false
  /\ Ascii.eqb c "[" = false /\ Ascii.eqb c LF = false.
Proof.
  unfold bareChar. intros H.
  apply andb_true_iff in H as [H H4]. apply andb_true_iff in H as [H H3].
  apply andb_true_iff in H as [H1 H2].
  apply negb_true_iff in H1, H2, H3, H4. split_and!; try done.
  destruct (Ascii.eqb_spec c LF) as [->|]; done.
Qed.

Lemma splitAcc_sep sep cur a b :
  allChars (fun c => negb (Ascii.eqb c sep)) a = true ->
  splitAcc sep cur (a +:+ String sep b) = (cur +:+ a) :: splitAcc sep "" b.
Proof.
  revert cur. induction a as [|c a IH]; intros cur H.
  - rewrite app_empty. cbn [splitAcc]. by rewrite Ascii.eqb_refl, string_app_nil_r.
  - cbn [allChars] in H. apply andb_true_iff in H as [Hc H]. apply negb_true_iff in Hc.
    rewrite app_String. cbn [splitAcc]. rewrite Hc, IH by done.
    by rewrite string_app_assoc.
Qed.

Lemma dropWhileEnd_none p s :
  allChars (fun c => negb (p c)) s = true -> dropWhileEnd p s = s.
Proof.
  induction s as [|c s IH]; [done|]. cbn [allChars dropWhileEnd].
  intros [Hc Hs]%andb_true_iff. apply negb_true_iff in Hc. by rewrite Hc, IH.
Qed.

Lemma dropWhileEnd_tail p s c :
  allChars (fun c => negb (p c)) s = true -> p c = true ->
  dropWhileEnd p (s +:+ String c "") = s.
Proof.
  intros Hs Hc. induction s as [|x s IH].
  - rewrite app_empty. cbn [dropWhileEnd allChars]. by rewrite Hc.
  - cbn [allChars] in Hs. apply andb_true_iff in Hs as [Hx Hs].
    apply negb_true_iff in Hx. rewrite app_String. cbn [dropWhileEnd].
    by rewrite Hx, IH.
Qed.

Lemma removeQuotes_none s :
  allChars (fun c => negb (Ascii.eqb c quoteChar)) s = true -> removeQuotes s = s.
Proof.
  induction s as [|c s IH]; [done|]. cbn [allChars removeQuotes].
  intros [Hc Hs]%andb_true_iff. apply negb_true_iff in Hc. by rewrite Hc, IH.
Qed.

Lemma removeQuotes_app a b : removeQuotes (a +:+ b) = removeQuotes a +:+ removeQuotes b.
Proof.
  induction a as [|c a IH]; [done|]. rewrite app_String. cbn [removeQuotes].
  destruct (Ascii.eqb c quoteChar); [done|]. by rewrite app_String, IH.
Qed.

Lemma indexOf_absent c p s :
  allChars (fun x => negb (Ascii.eqb x c)) s = true -> indexOf (String c p) s = None.
Proof.
  induction s as [|x s IH]; [done|]. cbn [allChars].
  intros [Hx Hs]%andb_true_iff. apply negb_true_iff in Hx.
  rewrite indexOf_cons. cbn [startsWith].
  rewrite Ascii.eqb_sym, Hx. simpl. by rewrite IH.
Qed.

Section Bare.
Context (n v : string).
Hypothesis Hn : n <> "".
Hypothesis Hv : v <> "".
Hypothesis Han : allChars bareChar n = true.
Hypothesis Hav : allChars bareChar v = true.

Lemma bare_facts s :
  allChars bareChar s = true ->
  allChars (fun c => negb (isSpace c)) s = true
  /\ allChars (fun c => negb (Ascii.eqb c "=")) s = true
  /\ allChars (fun c => negb (Ascii.eqb c quoteChar)) s = true
  /\ allChars (fun c => negb (Ascii.eqb c "[")) s = true
  /\ allChars (fun c => negb (Ascii.eqb c LF)) s = true.
Proof.
  intros H. split_and!; (eapply allChars_impl; [|exact H]); intros c Hc;
    destruct (bareChar_plain c Hc) as (H1 & H2 & H3 & H4 & H5); by apply negb_true_iff.
Qed.

Lemma split_entryLine :
  split "=" (entryLine n v) = [n +:+ " "; " " +:+ dquote +:+ v +:+ dquote].
Proof.
  destruct (bare_facts n Han) as (_ & Hne & _). destruct (bare_facts v Hav) as (_ & Hve & _).
  unfold split, entryLine.
  assert (n +:+ " = " +:+ dquote +:+ v +:+ dquote
          = (n +:+ " ") +:+ String "=" (" " +:+ dquote +:+ v +:+ dquote)) as ->.
  { by rewrite string_app_assoc. }
  rewrite splitAcc_sep.
  2:{ rewrite allChars_app, Hne. done. }
  rewrite splitAcc_no_sep; [done|].
  change (" " +:+ dquote +:+ v +:+ dquote) with (" " +:+ dquote +:+ (v +:+ dquote)).
  rewrite !allChars_app, Hve. done.
Qed.

Lemma trim_name : trim (n +:+ " ") = n.
Proof.
  destruct (bare_facts n Han) as (Hs & _). unfold trim.
  destruct n as [|c r] eqn:E; [done|]. rewrite app_String. cbn [dropWhile].
  cbn [allChars] in Hs. apply andb_true_iff in Hs as [Hc Hr].
  apply negb_true_iff in Hc. rewrite Hc, <- app_String.
  apply dropWhileEnd_tail; [|done]. cbn [allChars]. by rewrite Hc, Hr.
Qed.

Lemma trim_version : trim (" " +:+ dquote +:+ v +:+ dquote) = dquote +:+ v +:+ dquote.
Proof.
  destruct (bare_facts v Hav) as (Hs & _). unfold trim.
  change (" " +:+ dquote +:+ v +:+ dquote)
    with (String " " (String quoteChar (v +:+ dquote))).
  cbn [dropWhile].
  change (isSpace " ") with true. change (isSpace quoteChar) with false. cbv iota.
  change (dquote +:+ v +:+ dquote) with (dquote +:+ (v +:+ dquote)).
  apply dropWhileEnd_none. by rewrite !allChars_app, Hs.
Qed.

(** What the split, the trim and the removal of quotes make of the line:
    the name before the sign, the version after it. *)
Lemma tomlEntry_entryLine : tomlEntry (entryLine n v) = (n, v).
Proof.
  destruct (bare_facts n Han) as (_ & _ & Hnq & _).
  destruct (bare_facts v Hav) as (_ & _ & Hvq & _).
  unfold tomlEntry. cbv zeta. rewrite split_entryLine. cbn [map nth].
  rewrite trim_name, trim_version, (removeQuotes_none n Hnq).
  change (dquote +:+ v +:+ dquote) with (String quoteChar (v +:+ dquote)).
  cbn [removeQuotes]. rewrite Ascii.eqb_refl, removeQuotes_app, (removeQuotes_none v Hvq).
  by rewrite string_app_nil_r.
Qed.

Lemma entryLine_no_bracket :
  allChars (fun c => negb (Ascii.eqb c "[")) (entryLine n v) = true.
Proof.
  destruct (bare_facts n Han) as (_ & _ & _ & Hnb & _).
  destruct (bare_facts v Hav) as (_ & _ & _ & Hvb & _).
  unfold entryLine.
  change (n +:+ " = " +:+ dquote +:+ v +:+ dquote)
    with (n +:+ (" = " +:+ dquote) +:+ v +:+ dquote).
  by rewrite !allChars_app, Hnb, Hvb.
Qed.

Lemma entryLine_no_LF :
  allChars (fun c => negb (Ascii.eqb c LF)) (entryLine n v) = true.
Proof.
  destruct (bare_facts n Han) as (_ & _ & _ & _ & Hnl).
  destruct (bare_facts v Hav) as (_ & _ & _ & _ & Hvl).
  unfold entryLine.
  change (n +:+ " = " +:+ dquote +:+ v +:+ dquote)
    with (n +:+ (" = " +:+ dquote) +:+ v +:+ dquote).
  by rewrite !allChars_app, Hnl, Hvl.
Qed.

Lemma entryLine_has_sign : includes "=" (entryLine n v) = true.
Proof.
  destruct (bare_facts n Han) as (_ & Hne & _). unfold includes, entryLine.
  assert (forall s rest, indexOf "=" (s +:+ " = " +:+ rest) <> None) as H.
  { intros s rest. induction s as [|c s IH]; [done|].
    rewrite app_String, indexOf_cons.
    destruct (startsWith "=" (String c (s +:+ " = " +:+ rest))); [done|].
    by destruct (indexOf "=" (s +:+ " = " +:+ rest)). }
  specialize (H n (dquote +:+ v +:+ dquote)).
  by destruct (indexOf "=" (n +:+ " = " +:+ dquote +:+ v +:+ dquote)).
Qed.

Lemma lines_header_entry header :
  allChars (fun c => negb (Ascii.eqb c LF)) header = true ->
  lines (header +:+ String LF (entryLine n v)) = [header; entryLine n v].
Proof.
  intros Hh. unfold lines, split. rewrite splitAcc_sep by done.
  by rewrite splitAcc_no_sep by apply entryLine_no_LF.
Qed.

(** A manifest of two lines, the header of the section and one entry. *)
Lemma sectionLoop_entry h eco src skip filePath :
  allChars (fun c => negb (Ascii.eqb c LF)) (String "[" h) = true ->
  includes (String "[" h) (String "[" h) = true ->
  skip n = false ->
  sectionLoop (String "[" h) eco src skip filePath false
              (lines (String "[" h +:+ String LF (entryLine n v)))
  = [mkDep eco n v src filePath false].
Proof.
  intros Hlf Hself Hskip. rewrite lines_header_entry by done.
  cbn [sectionLoop]. cbv zeta. rewrite Hself.
  unfold includes at 1. rewrite (indexOf_absent "[" h _ entryLine_no_bracket).
  assert (startsWith "[" (entryLine n v) = false) as ->.
  { pose proof entryLine_no_bracket as H. unfold entryLine in *.
    destruct n as [|c r]; [done|]. rewrite app_String in *. cbn [allChars] in H.
    apply andb_true_iff in H as [H _]. apply negb_true_iff in H.
    rewrite startsWith_char. by rewrite Ascii.eqb_sym. }
  cbn [andb]. rewrite entryLine_has_sign, tomlEntry_entryLine.
  apply String.eqb_neq in Hn as ->. rewrite Hskip. cbn [negb andb].
  unfold orStar. by apply String.eqb_neq in Hv as ->.
Qed.
End Bare.


End EntryLines.


